(** * testpilot: the step loop, the command parser and the provider adapters

    A shallow embedding of the TypeScript sources of testpilot (types.ts,
    browser.ts, llm-shared.ts, llm-adapter.ts, providers/anthropic.ts,
    providers/github-models.ts, runner.ts) and the properties of its
    specification.

    Conventions of the embedding.
    - A JavaScript string is the list of its UTF-16 code units ([jsstring]);
      [cmd[i]], [slice], [startsWith] and [length] all count code units.
    - Code that awaits an external collaborator (the agent-browser CLI, the
      HTTP transport, the decision source) runs in a state-and-exception
      monad over the collaborator's state; a rejected promise is [Throw],
      and the state reached before the exception is kept, as in JavaScript.
    - The runner is written against the interface [LLMAdapter]; the test
      case and the adapter, which the source loads from a file and builds
      from the provider name, are its inputs. An action reaches the runner
      as the adapter built it: its texts and its commands are the values of
      the parsed JSON, which nothing checks to be strings.
    - Console output, wall-clock durations and timestamps carry no claim and
      are left out; [setTimeout] pauses are recorded as events. *)

From Stdlib Require Import String Ascii List NArith ZArith Bool Lia PrimFloat.
Import ListNotations.

Set Implicit Arguments.
Set Warnings "-register-all".

(** ** JavaScript strings *)

Module JS.

Definition jsstring := list N.

(** A literal of the source, written as a Rocq string of ASCII characters. *)
Definition lit (s : string) : jsstring :=
  map N_of_ascii (list_ascii_of_string s).

Definition dquote : N := 34.
Definition squote : N := 39.
Definition space : N := 32.
Definition newline : N := 10.
Definition backtick : N := 96.
Definition emdash : N := 8212.

Fixpoint eqb (a b : jsstring) : bool :=
  match a, b with
  | [], [] => true
  | x :: a', y :: b' => N.eqb x y && eqb a' b'
  | _, _ => false
  end.

(** The class [\s] of ECMAScript regular expressions, which is also the set
    that [String.prototype.trim] and [parseInt] strip: WhiteSpace and
    LineTerminator code points. *)
Definition is_space (c : N) : bool :=
  match c with
  | 9 | 10 | 11 | 12 | 13 | 32 | 160 | 5760 | 8232 | 8233 | 8239 | 8287
  | 12288 | 65279 => true
  | _ => (8192 <=? c) && (c <=? 8202)
  end%N.

Fixpoint trimStart (s : jsstring) : jsstring :=
  match s with
  | c :: s' => if is_space c then trimStart s' else s
  | [] => []
  end.

Definition trimEnd (s : jsstring) : jsstring := rev (trimStart (rev s)).

Definition trim (s : jsstring) : jsstring := trimEnd (trimStart s).

Fixpoint startsWith (s p : jsstring) : bool :=
  match p, s with
  | [], _ => true
  | x :: p', y :: s' => N.eqb x y && startsWith s' p'
  | _ :: _, [] => false
  end.

Definition endsWith (s p : jsstring) : bool := startsWith (rev s) (rev p).

(** [s.slice(0, n)] for a non-negative [n]. *)
Definition slice0 (n : nat) (s : jsstring) : jsstring := firstn n s.

(** [Array.prototype.join]. *)
Fixpoint join (sep : jsstring) (l : list jsstring) : jsstring :=
  match l with
  | [] => []
  | [x] => x
  | x :: l' => x ++ sep ++ join sep l'
  end.

(** Decimal digits of a natural number, as [String(n)] and a template
    literal print them. This is the engine's output for the integers of the
    safe range, up to 2^53 - 1 in magnitude, where a JavaScript number is the
    integer it stands for; a larger number is rounded, and printed with an
    exponent from 1e21 on. *)
Fixpoint digits_fuel (fuel : nat) (n : N) (acc : jsstring) : jsstring :=
  match fuel with
  | O => acc
  | S fuel' =>
      let acc' := (48 + n mod 10)%N :: acc in
      if (n <? 10)%N then acc' else digits_fuel fuel' (n / 10)%N acc'
  end.

Definition of_N (n : N) : jsstring := digits_fuel (S (N.to_nat (N.log2 n))) n [].

Definition of_Z (z : Z) : jsstring :=
  if (z <? 0)%Z then 45%N :: of_N (Z.abs_N z) else of_N (Z.abs_N z).

End JS.

Import JS.

Arguments lit : simpl never.
Arguments slice0 : simpl never.
Arguments of_N : simpl never.
Arguments of_Z : simpl never.
Arguments trim : simpl never.

(** ** runner.ts: the command parser *)

Module Parser.

(** The three mutable locals of [parseCommand]. *)
Record pstate := mkP {
  args : list jsstring;
  current : jsstring;
  inQuote : option N
}.

Definition init : pstate := mkP [] [] None.

Definition is_quote (ch : N) : bool := N.eqb ch dquote || N.eqb ch squote.

(** One turn of the [for] loop, on the character [ch = cmd[i]]. *)
Definition step (st : pstate) (ch : N) : pstate :=
  match inQuote st with
  | Some q =>
      if N.eqb ch q then mkP (args st) (current st) None
      else mkP (args st) (current st ++ [ch]) (Some q)
  | None =>
      if is_quote ch then mkP (args st) (current st) (Some ch)
      else if is_space ch then
        match current st with
        | [] => st
        | _ :: _ => mkP (args st ++ [current st]) [] None
        end
      else mkP (args st) (current st ++ [ch]) None
  end.

(** "Push the last token". *)
Definition finish (st : pstate) : list jsstring :=
  match current st with
  | [] => args st
  | _ :: _ => args st ++ [current st]
  end.

Definition scan (cmd : jsstring) (st : pstate) : pstate := fold_left step cmd st.

Definition parseCommand (cmd : jsstring) : list jsstring := finish (scan cmd init).

(** The quotes of [cmd] are balanced when the scan ends outside a quoted span. *)
Definition balanced (cmd : jsstring) : Prop := inQuote (scan cmd init) = None.

(** [tokens.join(" ")], the command line rebuilt from its tokens. *)
Definition rejoin (tokens : list jsstring) : jsstring := join [space] tokens.

(** A character that is neither white space nor a quote. *)
Definition plain_char (c : N) : bool := negb (is_space c) && negb (is_quote c).

Definition plain (t : jsstring) : bool := forallb plain_char t.

Definition nonempty (t : jsstring) : bool :=
  match t with [] => false | _ :: _ => true end.

End Parser.

Import Parser.

(** ** Values read from JSON and awaited computations *)

Module Dyn.

(** A value as [JSON.parse] and [response.json()] build it. An object holds
    its own properties, each key once. [undefined], which JSON cannot
    express, is the [None] of an [option jsval]. *)
Inductive jsval :=
| JNull
| JBool (b : bool)
| JNum (x : float)
| JStr (s : jsstring)
| JArr (items : list jsval)
| JObj (fields : list (jsstring * jsval)).

(** ToBoolean. *)
Definition truthy (v : jsval) : bool :=
  match v with
  | JNull => false
  | JBool b => b
  | JNum x => negb (PrimFloat.eqb x PrimFloat.zero) && PrimFloat.eqb x x
  | JStr s => match s with [] => false | _ :: _ => true end
  | JArr _ | JObj _ => true
  end.

Definition truthy_opt (v : option jsval) : bool :=
  match v with Some x => truthy x | None => false end.

(** [typeof v === "string"]. *)
Definition isString (v : jsval) : bool :=
  match v with JStr _ => true | _ => false end.

Fixpoint assoc (k : jsstring) (fields : list (jsstring * jsval)) : option jsval :=
  match fields with
  | [] => None
  | (k', v) :: rest => if JS.eqb k k' then Some v else assoc k rest
  end.

(** What an exception carries: its [message]. *)
Record Error := mkError { message : jsstring }.

(** The messages of the engine's own TypeErrors are implementation-defined. *)
Definition TypeError : Error := mkError (lit "TypeError").

Inductive Res (X : Type) :=
| Return (x : X)
| Throw (e : Error).
Arguments Return {X} x.
Arguments Throw {X} e.

(** [v.k] for a property name [k] that no built-in prototype defines (every
    name the sources read is one): the own property of an object,
    [undefined] on the other values, a TypeError on [null]. *)
Definition getProp (v : jsval) (k : jsstring) : Res (option jsval) :=
  match v with
  | JNull => Throw TypeError
  | JObj fields => Return (assoc k fields)
  | _ => Return None
  end.

(** [v?.k] on a value that may be [undefined]. *)
Definition getPropOpt (v : option jsval) (k : jsstring) : option jsval :=
  match v with
  | Some (JObj fields) => assoc k fields
  | _ => None
  end.

(** An awaited computation over the state [S] of its collaborators. *)
Definition M (S X : Type) : Type := S -> Res X * S.

Definition ret {S X} (x : X) : M S X := fun s => (Return x, s).

Definition throw {S X} (e : Error) : M S X := fun s => (Throw e, s).

Definition bind {S X Y} (m : M S X) (k : X -> M S Y) : M S Y :=
  fun s =>
    match m s with
    | (Return x, s') => k x s'
    | (Throw e, s') => (Throw e, s')
    end.

(** [try { m } catch (err) { h err }]. *)
Definition tryCatch {S X} (m : M S X) (h : Error -> M S X) : M S X :=
  fun s =>
    match m s with
    | (Return x, s') => (Return x, s')
    | (Throw e, s') => h e s'
    end.

Definition gets {S X} (f : S -> X) : M S X := fun s => (Return (f s), s).

Definition modify {S} (f : S -> S) : M S unit := fun s => (Return tt, f s).

(** A result that is already known, as returned by a synchronous helper. *)
Definition liftRes {S X} (r : Res X) : M S X := fun s => (r, s).

(** Run a computation of a component on the part of the state it owns. *)
Definition zoom {S T X} (get : S -> T) (set : T -> S -> S) (m : M T X) : M S X :=
  fun s => let (r, t') := m (get s) in (r, set t' s).

End Dyn.

Import Dyn.

Declare Scope js_scope.
Delimit Scope js_scope with js.
Notation "x <- c ;; k" := (bind c (fun x => k))
  (at level 61, c at next level, right associativity) : js_scope.
Notation "c ;; k" := (bind c (fun _ => k))
  (at level 61, right associativity) : js_scope.
Open Scope js_scope.

(** ** types.ts *)

Module Types.

(** A step number is an integer of the safe range. *)
Record TestStep := mkStep {
  step : Z;
  action : jsstring;
  expected : jsstring
}.

Record TestCase := mkCase {
  id : jsstring;
  title : jsstring;
  priority : jsstring;
  tags : list jsstring;
  target_url : jsstring;
  preconditions : list jsstring;
  site_context : option (list jsstring);
  steps : list TestStep
}.

Inductive StepStatus := pass | fail | error | skipped.

(** [StepResult]. The fields [actual] and [commands_executed] are declared
    [string] and [string[]]; they receive the [actual_result] and the
    commands of an action as they are. *)
Record StepResult := mkStepResult {
  sr_step : Z;
  sr_action : jsstring;
  sr_expected : jsstring;
  sr_status : StepStatus;
  sr_actual : jsval;
  sr_reasoning : jsstring;
  commands_executed : list jsval;
  sr_screenshot : option jsstring
}.

Record TestReport := mkReport {
  test_id : jsstring;
  tr_title : jsstring;
  tr_status : StepStatus;
  tr_steps : list StepResult;
  summary : jsstring
}.

(** [AgentAction]. The interface declares its texts as [string]; what
    [parseAgentResponse] builds out of parsed JSON holds whatever values the
    JSON had, so the record is given over the type [V] of its texts:
    [AgentAction] is the declared interface, [AgentActionOf jsval] what the
    parser returns at run time. *)
Record AgentActionOf (V : Type) := mkAction {
  thought : V;
  commands : list V;
  done : bool;
  success : bool;
  actual_result : V
}.

Definition AgentAction := AgentActionOf jsstring.

Definition asString (v : jsval) : option jsstring :=
  match v with JStr s => Some s | _ => None end.

Fixpoint asStrings (l : list jsval) : option (list jsstring) :=
  match l with
  | [] => Some []
  | v :: l' =>
      match asString v, asStrings l' with
      | Some s, Some r => Some (s :: r)
      | _, _ => None
      end
  end.

(** The action as the declared interface sees it, when every text is a string. *)
Definition asTyped (a : AgentActionOf jsval) : option AgentAction :=
  match asString (thought a), asStrings (commands a), asString (actual_result a) with
  | Some t, Some c, Some r => Some (mkAction t c (done a) (success a) r)
  | _, _, _ => None
  end.

End Types.

Import Types.

(** ** browser.ts *)

Module Browser.

Record BrowserCommandResult := mkResult {
  stdout : jsstring;
  stderr : jsstring;
  success : bool
}.

(** How [execFileAsync] settles: it resolves with both streams, or rejects
    with an error that carries its message and, when the process ran, the
    streams. *)
Inductive ExecOutcome :=
| Exited (out err : jsstring)
| Rejected (out err : option jsstring) (msg : jsstring).

Definition DEFAULT_TIMEOUT : Z := 30000.

Section Daemon.

(** The machine the CLI runs on: the agent-browser daemon, its page, the
    file system and the clock. *)
Variable W : Type.
Variable execFile : list jsstring -> Z -> W -> ExecOutcome * W.
(** [new Date().toISOString()] and [path.join]. *)
Variable isoNow : W -> jsstring.
Variable path_join : jsstring -> jsstring -> jsstring.

Definition runBrowserCommand (args : list jsstring) (timeoutMs : Z)
  : M W BrowserCommandResult :=
  fun w =>
    match execFile args timeoutMs w with
    | (Exited out err, w') => (Return (mkResult (trim out) (trim err) true), w')
    | (Rejected out err msg, w') =>
        (Return (mkResult
                   (match out with Some o => trim o | None => [] end)
                   (match err with Some e => trim e | None => msg end)
                   false), w')
    end.

Definition openUrl (url : jsstring) : M W BrowserCommandResult :=
  runBrowserCommand [lit "open"; url] DEFAULT_TIMEOUT.

Definition getSnapshot : M W jsstring :=
  result <- runBrowserCommand [lit "snapshot"; lit "-i"; lit "-c"] DEFAULT_TIMEOUT ;;
  ret (stdout result).

Definition getFullSnapshot : M W jsstring :=
  result <- runBrowserCommand [lit "snapshot"; lit "-c"] DEFAULT_TIMEOUT ;;
  ret (stdout result).

Definition click (selector : jsstring) : M W BrowserCommandResult :=
  runBrowserCommand [lit "click"; selector] DEFAULT_TIMEOUT.

Definition fill (selector value : jsstring) : M W BrowserCommandResult :=
  runBrowserCommand [lit "fill"; selector; value] DEFAULT_TIMEOUT.

Definition waitFor (condition : jsstring) (timeoutMs : Z) : M W BrowserCommandResult :=
  runBrowserCommand [lit "wait"; condition] timeoutMs.

Definition screenshot (filepath : jsstring) (annotate : bool)
  : M W BrowserCommandResult :=
  runBrowserCommand
    ([lit "screenshot"; filepath] ++ (if annotate then [lit "--annotate"] else []))
    DEFAULT_TIMEOUT.

Definition waitForNetworkIdle : M W BrowserCommandResult :=
  runBrowserCommand [lit "wait"; lit "--load"; lit "networkidle"] 30000.

Definition getUrl : M W jsstring :=
  result <- runBrowserCommand [lit "get"; lit "url"] DEFAULT_TIMEOUT ;;
  ret (stdout result).

Definition getTitle : M W jsstring :=
  result <- runBrowserCommand [lit "get"; lit "title"] DEFAULT_TIMEOUT ;;
  ret (stdout result).

Definition closeBrowser : M W BrowserCommandResult :=
  runBrowserCommand [lit "close"] DEFAULT_TIMEOUT.

(** [s.replace(/[:.]/g, "-")]. *)
Definition dashed (s : jsstring) : jsstring :=
  map (fun c => if N.eqb c 58 || N.eqb c 46 then 45%N else c) s.

Definition takeStepScreenshot (testId : jsstring) (stepNumber : Z)
    (screenshotsDir : jsstring) : M W jsstring :=
  timestamp <- gets (fun w => dashed (isoNow w)) ;;
  let filename :=
    testId ++ lit "_step" ++ of_Z stepNumber ++ lit "_" ++ timestamp ++ lit ".png" in
  let filepath := path_join screenshotsDir filename in
  _ <- screenshot filepath false ;;
  ret filepath.

End Daemon.

End Browser.

(** ** llm-shared.ts *)

Module Shared.

(** [LLMRequest], with the two counters the runner adds to it. *)
Record LLMRequest := mkRequest {
  systemPrompt : jsstring;
  stepDescription : jsstring;
  expectedResult : jsstring;
  browserState : jsstring;
  previousActions : list jsstring;
  pageUrl : jsstring;
  pageTitle : jsstring;
  iteration : nat;
  maxIterations : nat
}.

Definition nl : jsstring := [newline].
Definition fence : jsstring := [backtick; backtick; backtick].

(** [arr.slice(-3)]. *)
Definition lastThree {X} (l : list X) : list X := skipn (length l - 3) l.

Definition buildUserMessage (request : LLMRequest) : jsstring :=
  let prev := previousActions request in
  let head :=
    match prev with
    | [] =>
        lit "## Current Test Step" ++ nl ++ nl ++
        lit "**Action:** " ++ stepDescription request ++ nl ++
        lit "**Expected result:** " ++ expectedResult request ++ nl ++ nl
    | _ :: _ =>
        lit "## After executing: " ++ join (lit ", ") (lastThree prev) ++ nl ++ nl
    end in
  let page :=
    lit "**Page URL:** " ++ pageUrl request ++ nl ++
    lit "**Page title:** " ++ pageTitle request ++ nl ++ nl ++
    lit "## Browser Accessibility Snapshot" ++ nl ++ nl ++
    fence ++ nl ++ browserState request ++ nl ++ fence ++ nl in
  let executed :=
    match prev with
    | [] => []
    | _ :: _ =>
        nl ++ lit "## Commands executed so far this step" ++ nl ++ nl ++
        join nl (map (fun c => lit "- " ++ [backtick] ++ c ++ [backtick]) prev) ++ nl
    end in
  head ++ page ++ executed ++
  nl ++ lit "Decide the next action(s). Respond with JSON only.".

Definition dropPrefix (p s : jsstring) : jsstring :=
  if startsWith s p then skipn (length p) s else s.

(** [s.replace(/^```(?:json)?\n?/, "")]. *)
Definition stripOpeningFence (s : jsstring) : jsstring :=
  if startsWith s fence
  then dropPrefix nl (dropPrefix (lit "json") (skipn 3 s))
  else s.

(** [s.replace(/\n?```$/, "")]: the leftmost match is the longer one. *)
Definition stripClosingFence (s : jsstring) : jsstring :=
  if endsWith s (nl ++ fence) then firstn (length s - 4) s
  else if endsWith s fence then firstn (length s - 3) s
  else s.

(** The text handed to [JSON.parse]. *)
Definition cleanResponse (raw : jsstring) : jsstring :=
  let cleaned := trim raw in
  if startsWith cleaned fence
  then stripClosingFence (stripOpeningFence cleaned)
  else cleaned.

(** The value of the [catch] branch. *)
Definition parseFailure (raw : jsstring) : AgentActionOf jsval :=
  mkAction
    (JStr (lit "Parse error " ++ [emdash] ++ lit " raw response: " ++ slice0 200 raw))
    [] false false (JStr []).

(** [v || ""]. *)
Definition orEmpty (v : option jsval) : jsval :=
  match v with
  | Some x => if truthy x then x else JStr []
  | None => JStr []
  end.

(** Whether a value of parsed JSON converts to a string, as a template
    literal and [join] require. An object converts through
    [Object.prototype.toString] unless it has a property [toString] of its
    own, which, being JSON, is not a function: the conversion then throws a
    TypeError. An array converts its items, [null] to the empty text. *)
Fixpoint printable (v : jsval) : bool :=
  match v with
  | JObj fields =>
      match assoc (lit "toString") fields with Some _ => false | None => true end
  | JArr items => forallb printable items
  | _ => true
  end.

(** [logAction]: the console output carries no claim, the conversions of
    the values it prints may throw. *)
Definition logAction (action : AgentActionOf jsval) : Res unit :=
  if printable (thought action)
     && forallb printable (commands action)
     && (negb (done action) || printable (actual_result action))
  then Return tt else Throw TypeError.

Section Parse.

(** [JSON.parse]; [None] when it throws a SyntaxError. *)
Variable JSON_parse : jsstring -> option jsval.

(** The body of the [try] block, once [JSON.parse] has returned. *)
Definition readAction (parsed : jsval) : Res (AgentActionOf jsval) :=
  match getProp parsed (lit "thought"), getProp parsed (lit "commands"),
        getProp parsed (lit "done"), getProp parsed (lit "success"),
        getProp parsed (lit "actual_result") with
  | Return t, Return c, Return d, Return s, Return r =>
      Return (mkAction (orEmpty t)
                (match c with Some (JArr items) => items | _ => [] end)
                (truthy_opt d) (truthy_opt s) (orEmpty r))
  | Throw e, _, _, _, _ | _, Throw e, _, _, _ | _, _, Throw e, _, _
  | _, _, _, Throw e, _ | _, _, _, _, Throw e => Throw e
  end.

Definition parseAgentResponse (raw : jsstring) : AgentActionOf jsval :=
  match JSON_parse (cleanResponse raw) with
  | Some parsed =>
      match readAction parsed with
      | Return a => a
      | Throw _ => parseFailure raw
      end
  | None => parseFailure raw
  end.

End Parse.

End Shared.

Import Shared.

(** ** The HTTP transport of the autonomous providers *)

Module Http.

Record Message := mkMessage {
  role : jsstring;
  content : jsval
}.

(** The JSON body of the POST. *)
Record Body := mkBody {
  b_model : jsstring;
  b_system : option jsstring;
  b_messages : list Message;
  b_max_tokens : option Z;
  b_max_completion_tokens : option Z;
  b_temperature : option float
}.

(** What the code reads of a [Response]: the status, the retry-after header
    ([None] for [null]), [text()] and how [json()] settles. *)
Record Response := mkResponse {
  status : Z;
  retry_after : option jsstring;
  text : jsstring;
  json : Res jsval
}.

(** [response.ok]. *)
Definition ok (r : Response) : bool := (200 <=? status r)%Z && (status r <=? 299)%Z.

Inductive FetchOutcome :=
| Responded (r : Response)
| FetchFailed (e : Error).

(** What a provider does to the outside, in order. *)
Inductive Event :=
| Fetched (endpoint : jsstring) (body : Body)
| Slept (ms : Z).

(** The private state of an adapter object, the transport it talks to, and
    the journal of what it did. *)
Record Adapter (T : Type) := mkAdapter {
  model : jsstring;
  conversationHistory : list Message;
  transport : T;
  journal : list Event
}.

Definition setHistory {T} (h : list Message) (a : Adapter T) : Adapter T :=
  mkAdapter (model a) h (transport a) (journal a).

Definition record {T} (e : Event) : M (Adapter T) unit :=
  modify (fun a => mkAdapter (model a) (conversationHistory a) (transport a)
                     (journal a ++ [e])).

(** [await new Promise((r) => setTimeout(r, ms))]. *)
Definition sleep {T} (ms : Z) : M (Adapter T) unit := record (Slept ms).

(** The number of requests sent, and the pauses taken, in a journal. *)
Definition fetches (j : list Event) : nat :=
  List.length (filter (fun e => match e with Fetched _ _ => true | Slept _ => false end) j).

Definition pauses (j : list Event) : list Z :=
  flat_map (fun e => match e with Fetched _ _ => [] | Slept ms => [ms] end) j.

(** The adapter after a request answered through [t'] and [extra] more events. *)
Definition after {T} (a : Adapter T) (t' : T) (extra : list Event) : Adapter T :=
  mkAdapter (model a) (conversationHistory a) t' (journal a ++ extra).

Definition is_digit (c : N) : bool := (48 <=? c)%N && (c <=? 57)%N.

Fixpoint leadingDigits (s : jsstring) : list N :=
  match s with
  | c :: s' => if is_digit c then c :: leadingDigits s' else []
  | [] => []
  end.

Definition decimalValue (ds : list N) : Z :=
  fold_left (fun acc c => (10 * acc + (Z.of_N c - 48))%Z) ds 0%Z.

(** [parseInt(s, 10)]; [None] is NaN. The value is kept exact, where
    JavaScript rounds it to a double: the code only compares it with 0 and
    60 and uses it when it is at most 60. *)
Definition parseInt10 (s : jsstring) : option Z :=
  let t := trimStart s in
  let (negative, rest) :=
    match t with
    | 45%N :: r => (true, r)
    | 43%N :: r => (false, r)
    | _ => (false, t)
    end in
  match leadingDigits rest with
  | [] => None
  | ds => Some (if negative then (- decimalValue ds)%Z else decimalValue ds)
  end.

(** [retryAfter ? parseInt(retryAfter, 10) : NaN]. *)
Definition parsedWait (retryAfter : option jsstring) : option Z :=
  match retryAfter with
  | Some ((_ :: _) as h) => parseInt10 h
  | _ => None
  end.

(** The seconds to wait after a 429 at the given attempt. *)
Definition rateLimitWait (retryAfter : option jsstring) (attempt : Z) : Z :=
  match parsedWait retryAfter with
  | Some n =>
      if (0 <? n)%Z && (n <=? 60)%Z then n else Z.min (10 * (attempt + 1)) 30
  | None => Z.min (10 * (attempt + 1)) 30
  end.

(** The seconds to wait after a 529 at the given attempt. *)
Definition overloadWait (attempt : Z) : Z := Z.min (15 * (attempt + 1)) 45.

Definition MAX_RETRIES : nat := 3.

Definition rateLimited : Error := mkError (lit "Rate limited (429)").
Definition overloaded : Error := mkError (lit "Anthropic overloaded (529)").
Definition maxRetries : Error := mkError (lit "Max retries exceeded").

(** [throw lastError || new Error("Max retries exceeded")]. *)
Definition giveUp {S X} (lastError : option Error) : M S X :=
  throw (match lastError with Some e => e | None => maxRetries end).

Fixpoint includes_from (fuel : nat) (s p : jsstring) : bool :=
  startsWith s p ||
  match fuel, s with
  | S fuel', _ :: s' => includes_from fuel' s' p
  | _, _ => false
  end.

(** [s.includes(p)]. *)
Definition includes (s p : jsstring) : bool := includes_from (List.length s) s p.

End Http.

Import Http.

(** ** providers/anthropic.ts *)

Module Anthropic.

Definition ANTHROPIC_ENDPOINT : jsstring := lit "https://api.anthropic.com/v1/messages".

Section Adapter.

Variable T : Type.
(** [fetch], with the state of the network and of the provider behind it. *)
Variable fetch : jsstring -> Body -> T -> FetchOutcome * T.
Variable JSON_parse : jsstring -> option jsval.
Variable JSON_stringify : jsval -> jsstring.
(** The fixed text of the response-format instructions. *)
Variable ACTION_SCHEMA : jsstring.

Definition post (body : Body) : M (Adapter T) Response :=
  fun a =>
    let (outcome, t') := fetch ANTHROPIC_ENDPOINT body (transport a) in
    let a' := mkAdapter (model a) (conversationHistory a) t'
                (journal a ++ [Fetched ANTHROPIC_ENDPOINT body]) in
    match outcome with
    | Responded r => (Return r, a')
    | FetchFailed e => (Throw e, a')
    end.

(** [content.find((block) => block.type === "text")] on the items of an array. *)
Fixpoint findText (items : list jsval) : Res (option jsval) :=
  match items with
  | [] => Return None
  | block :: rest =>
      match getProp block (lit "type") with
      | Throw e => Throw e
      | Return (Some (JStr s)) =>
          if JS.eqb s (lit "text") then Return (Some block) else findText rest
      | Return _ => findText rest
      end
  end.

(** [data.content?.find(...)]: a [content] that is neither missing, [null]
    nor an array has no [find] to call. *)
Definition textBlockOf (data : jsval) : Res (option jsval) :=
  match getProp data (lit "content") with
  | Throw e => Throw e
  | Return None | Return (Some JNull) => Return None
  | Return (Some (JArr items)) => findText items
  | Return (Some _) => Throw TypeError
  end.

(** The tail of the loop body, for a response with a success status. *)
Definition readPayload (response : Response) : M (Adapter T) jsval :=
  data <- liftRes (json response) ;;
  textBlock <- liftRes (textBlockOf data) ;;
  match getPropOpt textBlock (lit "text") with
  | Some t =>
      if truthy t then ret t
      else throw (mkError (lit "Unexpected Anthropic response structure: "
                           ++ slice0 500 (JSON_stringify data)))
  | None =>
      throw (mkError (lit "Unexpected Anthropic response structure: "
                      ++ slice0 500 (JSON_stringify data)))
  end.

(** The [for] loop of [callApi], with [remaining] turns left, the first of
    which has index [attempt]. *)
Fixpoint attempts (body : Body) (remaining : nat) (attempt : Z)
    (lastError : option Error) : M (Adapter T) jsval :=
  match remaining with
  | O => giveUp lastError
  | S remaining' =>
      response <- post body ;;
      if (status response =? 429)%Z then
        let waitSec := rateLimitWait (retry_after response) attempt in
        sleep (waitSec * 1000) ;;
        attempts body remaining' (attempt + 1) (Some rateLimited)
      else if (status response =? 529)%Z then
        let waitSec := overloadWait attempt in
        sleep (waitSec * 1000) ;;
        attempts body remaining' (attempt + 1) (Some overloaded)
      else if negb (ok response) then
        throw (mkError (lit "Anthropic API error " ++ of_Z (status response)
                        ++ lit ": " ++ slice0 500 (text response)))
      else readPayload response
  end.

Definition callApi (systemPrompt : jsstring) (messages : list Message)
  : M (Adapter T) jsval :=
  m <- gets (@model T) ;;
  attempts (mkBody m (Some systemPrompt) messages (Some 1024%Z) None None)
    (S MAX_RETRIES) 0 None.

Definition decideAction (request : LLMRequest) : M (Adapter T) (AgentActionOf jsval) :=
  (match previousActions request with
   | [] => modify (setHistory [])
   | _ :: _ => ret tt
   end) ;;
  let userMessage := buildUserMessage request in
  let systemPrompt :=
    Shared.systemPrompt request ++ nl ++ nl ++ lit "## Response Format" ++ nl ++ nl
    ++ ACTION_SCHEMA in
  history <- gets (@conversationHistory T) ;;
  let messages := history ++ [mkMessage (lit "user") (JStr userMessage)] in
  response <- callApi systemPrompt messages ;;
  modify (fun a => setHistory
            (conversationHistory a ++
             [mkMessage (lit "user") (JStr userMessage);
              mkMessage (lit "assistant") response]) a) ;;
  match response with
  | JStr raw =>
      let action := parseAgentResponse JSON_parse raw in
      liftRes (logAction action) ;;
      ret action
  | _ => throw TypeError
  end.

End Adapter.

End Anthropic.

(** ** providers/github-models.ts *)

Module GitHubModels.

Definition GITHUB_MODELS_ENDPOINT : jsstring :=
  lit "https://models.github.ai/inference/chat/completions".

Section Adapter.

Variable T : Type.
Variable fetch : jsstring -> Body -> T -> FetchOutcome * T.
Variable JSON_parse : jsstring -> option jsval.
Variable JSON_stringify : jsval -> jsstring.
Variable ACTION_SCHEMA : jsstring.

Definition post (body : Body) : M (Adapter T) Response :=
  fun a =>
    let (outcome, t') := fetch GITHUB_MODELS_ENDPOINT body (transport a) in
    let a' := mkAdapter (model a) (conversationHistory a) t'
                (journal a ++ [Fetched GITHUB_MODELS_ENDPOINT body]) in
    match outcome with
    | Responded r => (Return r, a')
    | FetchFailed e => (Throw e, a')
    end.

(** [v?.[0]]: the first item of an array, the first code unit of a string,
    the property ["0"] of an object. *)
Definition firstOf (v : option jsval) : option jsval :=
  match v with
  | Some (JArr (x :: _)) => Some x
  | Some (JStr (c :: _)) => Some (JStr [c])
  | Some (JObj fields) => assoc (lit "0") fields
  | _ => None
  end.

(** [data.choices?.[0]?.message?.content]. *)
Definition contentOf (data : jsval) : Res (option jsval) :=
  match getProp data (lit "choices") with
  | Throw e => Throw e
  | Return choices =>
      Return (getPropOpt (getPropOpt (firstOf choices) (lit "message")) (lit "content"))
  end.

Definition readPayload (response : Response) : M (Adapter T) jsval :=
  data <- liftRes (json response) ;;
  c <- liftRes (contentOf data) ;;
  match c with
  | Some t =>
      if truthy t then ret t
      else throw (mkError (lit "Unexpected API response structure: "
                           ++ slice0 500 (JSON_stringify data)))
  | None =>
      throw (mkError (lit "Unexpected API response structure: "
                      ++ slice0 500 (JSON_stringify data)))
  end.

Fixpoint attempts (body : Body) (remaining : nat) (attempt : Z)
    (lastError : option Error) : M (Adapter T) jsval :=
  match remaining with
  | O => giveUp lastError
  | S remaining' =>
      response <- post body ;;
      if (status response =? 429)%Z then
        let waitSec := rateLimitWait (retry_after response) attempt in
        sleep (waitSec * 1000) ;;
        attempts body remaining' (attempt + 1) (Some rateLimited)
      else if negb (ok response) then
        throw (mkError (lit "GitHub Models API error " ++ of_Z (status response)
                        ++ lit ": " ++ slice0 500 (text response)))
      else readPayload response
  end.

Definition callApi (messages : list Message) : M (Adapter T) jsval :=
  m <- gets (@model T) ;;
  let isGpt5 := includes m (lit "gpt-5") in
  let body :=
    if isGpt5 then mkBody m None messages None (Some 1024%Z) None
    else mkBody m None messages (Some 1024%Z) None (Some 0x1.999999999999ap-3%float) in
  attempts body (S MAX_RETRIES) 0 None.

Definition decideAction (request : LLMRequest) : M (Adapter T) (AgentActionOf jsval) :=
  (match previousActions request with
   | [] => modify (setHistory [])
   | _ :: _ => ret tt
   end) ;;
  let userMessage := buildUserMessage request in
  history <- gets (@conversationHistory T) ;;
  let messages :=
    [mkMessage (lit "system")
       (JStr (Shared.systemPrompt request ++ nl ++ nl ++ lit "## Response Format"
              ++ nl ++ nl ++ ACTION_SCHEMA))]
    ++ history ++ [mkMessage (lit "user") (JStr userMessage)] in
  response <- callApi messages ;;
  modify (fun a => setHistory
            (conversationHistory a ++
             [mkMessage (lit "user") (JStr userMessage);
              mkMessage (lit "assistant") response]) a) ;;
  match response with
  | JStr raw =>
      let action := parseAgentResponse JSON_parse raw in
      liftRes (logAction action) ;;
      ret action
  | _ => throw TypeError
  end.

End Adapter.

End GitHubModels.

(** ** llm-adapter.ts: the decision-source interface *)

(** [LLMAdapter]: an object with private state [A] and one method. The
    method is declared to return an [AgentAction]; the action the two
    autonomous providers return is the one [parseAgentResponse] built. *)
Class LLMAdapter (A : Type) := {
  decideAction : LLMRequest -> M A (AgentActionOf jsval)
}.


Definition GitHubModelsSource (T : Type)
    (fetch : jsstring -> Body -> T -> FetchOutcome * T)
    (JSON_parse : jsstring -> option jsval) (JSON_stringify : jsval -> jsstring)
    (ACTION_SCHEMA : jsstring) : LLMAdapter (Adapter T) :=
  {| decideAction := GitHubModels.decideAction fetch JSON_parse JSON_stringify ACTION_SCHEMA |}.

(** ** runner.ts: the step loop and the test-case driver *)

Module Runner.

Import Browser.

Definition MAX_ITERATIONS : nat := 10.

Definition SNAPSHOT : jsstring := lit "__SNAPSHOT__".

(** What the runner does besides browser commands, in order: a request put
    to the decision source, the action the source returned, a pause. *)
Inductive Event :=
| Asked (request : LLMRequest)
| Answered (action : AgentActionOf jsval)
| Paused (ms : Z).

(** The collaborators of a run and the array [allCommands] of the step in
    progress, which is read after an exception too. The array is declared
    [string[]]; the commands of an action are pushed on it as they are. *)
Record St (W A : Type) := mkSt {
  machine : W;
  adapter : A;
  allCommands : list jsval;
  events : list Event
}.

Definition withMachine {W A} (w : W) (s : St W A) : St W A :=
  mkSt w (adapter s) (allCommands s) (events s).

Definition withAdapter {W A} (a : A) (s : St W A) : St W A :=
  mkSt (machine s) a (allCommands s) (events s).

Definition withCommands {W A} (l : list jsval) (s : St W A) : St W A :=
  mkSt (machine s) (adapter s) l (events s).

Definition logged {W A} (e : Event) (s : St W A) : St W A :=
  mkSt (machine s) (adapter s) (allCommands s) (events s ++ [e]).

(** The requests put to the decision source, and the actions it returned,
    in order. A request without an action is a call that threw. *)
Definition asked (l : list Event) : list LLMRequest :=
  flat_map (fun e => match e with Asked r => [r] | _ => [] end) l.

Definition answered (l : list Event) : list (AgentActionOf jsval) :=
  flat_map (fun e => match e with Answered a => [a] | _ => [] end) l.

(** The locals [snapshot], [url] and [title]. *)
Record Observation := mkObs {
  snapshot : jsstring;
  url : jsstring;
  title : jsstring
}.

Definition statusText (s : StepStatus) : jsstring :=
  match s with
  | pass => lit "PASS"
  | fail => lit "FAIL"
  | error => lit "ERROR"
  | skipped => lit "SKIPPED"
  end.

Definition is_pass (s : StepStatus) : bool :=
  match s with pass => true | _ => false end.

Definition is_error (s : StepStatus) : bool :=
  match s with error => true | _ => false end.

Definition is_fail (s : StepStatus) : bool :=
  match s with fail => true | _ => false end.

(** The precedence of the aggregate status, as the specification words it:
    error if a step is in error, else fail if a step failed, else pass. *)
Definition aggregate (statuses : list StepStatus) : StepStatus :=
  if existsb is_error statuses then error
  else if existsb is_fail statuses then fail
  else pass.

Definition timedOut : jsstring :=
  lit "Step timed out after " ++ of_N (N.of_nat MAX_ITERATIONS)
  ++ lit " iterations without reaching a conclusion.".

(** [actualResult === ""]. *)
Definition isEmptyText (v : jsval) : bool :=
  match v with JStr [] => true | _ => false end.

(** [cmd === "__SNAPSHOT__"]. *)
Definition isSnapshot (cmd : jsval) : bool :=
  match cmd with JStr s => JS.eqb s SNAPSHOT | _ => false end.

(** [["click", "fill", "select", "press"].some((c) => cmd.startsWith(c))] on
    a string. *)
Definition mutating (cmd : jsstring) : bool :=
  existsb (startsWith cmd) [lit "click"; lit "fill"; lit "select"; lit "press"].

(** The same test on the value that [cmd] holds. Only a string has a method
    [startsWith]: on any other value the first call of the callback throws
    a TypeError. *)
Definition needsPause (cmd : jsval) : Res bool :=
  match cmd with
  | JStr s => Return (mutating s)
  | _ => Throw TypeError
  end.

(** [allCommands] read at its declared type [string[]], as the request of a
    turn lists it. Whenever a request is built the array holds strings
only: a command that is not a string is pushed by the statement before
    the one that throws on it, which ends the step. *)
Definition strings (l : list jsval) : list jsstring :=
  flat_map (fun v => match v with JStr s => [s] | _ => [] end) l.

(** The commands of an action that are pushed on [allCommands] when all of
    them are run: all but the refresh sentinel. *)
Definition recorded (cmds : list jsval) : list jsval :=
  filter (fun c => negb (isSnapshot c)) cmds.

Section Run.

Variables W A : Type.
Context {Adapter : LLMAdapter A}.
Variable execFile : list jsstring -> Z -> W -> ExecOutcome * W.
(** What the log line [`... ${cmd}`] and [parseCommand(cmd)] make of a
    command that is an array or an object: the tokens read through the
    engine's conversions of its [length] and of its items, or the TypeError
    of a value that has no conversion. *)
Variable coerced : jsval -> Res (list jsstring).
Variable isoNow : W -> jsstring.
Variable path_join : jsstring -> jsstring -> jsstring.
(** The fixed prompt text and the directory of the screenshots. *)
Variable SYSTEM_PROMPT : jsstring.
Variable SCREENSHOTS_DIR : jsstring.

Definition browser {X} (m : M W X) : M (St W A) X :=
  zoom (@machine W A) (@withMachine W A) m.

Definition note (e : Event) : M (St W A) unit := modify (logged e).

(** [await adapter.decideAction(request)]. *)
Definition ask (request : LLMRequest) : M (St W A) (AgentActionOf jsval) :=
  note (Asked request) ;;
  act <- zoom (@adapter W A) (@withAdapter W A) (decideAction request) ;;
  note (Answered act) ;;
  ret act.

Definition setCommands (l : list jsval) : M (St W A) unit :=
  modify (withCommands l).

Definition buildSystemPrompt (testCase : TestCase) : jsstring :=
  match site_context testCase with
  | Some ((_ :: _) as hints) =>
      SYSTEM_PROMPT ++ nl ++ nl ++ lit "## Site-Specific Context" ++ nl ++ nl
      ++ join nl (map (fun hint => lit "- " ++ hint) hints)
  | _ => SYSTEM_PROMPT
  end.

(** The three awaits [getSnapshot(); getUrl(); getTitle()]. *)
Definition capture : M (St W A) Observation :=
  s <- browser (getSnapshot execFile) ;;
  u <- browser (getUrl execFile) ;;
  t <- browser (getTitle execFile) ;;
  ret (mkObs s u t).

(** [parseCommand(cmd)] on the value that [cmd] holds. A string is parsed.
    [null] has no [length]: a TypeError. The [length] of a number or of a
    boolean is [undefined], so the loop of the parser does not run and
    there is no token. *)
Definition parseValue (cmd : jsval) : Res (list jsstring) :=
  match cmd with
  | JStr s => Return (parseCommand s)
  | JNull => Throw TypeError
  | JBool _ | JNum _ => Return []
  | JArr _ | JObj _ => coerced cmd
  end.

(** [for (const cmd of action.commands)], from the observation [obs]. *)
Fixpoint dispatch (cmds : list jsval) (obs : Observation) : M (St W A) Observation :=
  match cmds with
  | [] => ret obs
  | cmd :: rest =>
      if isSnapshot cmd then
        obs' <- capture ;;
        dispatch rest obs'
      else
        parts <- liftRes (parseValue cmd) ;;
        _ <- browser (runBrowserCommand execFile parts DEFAULT_TIMEOUT) ;;
        sofar <- gets (@allCommands W A) ;;
        setCommands (sofar ++ [cmd]) ;;
        pause <- liftRes (needsPause cmd) ;;
        (if pause then note (Paused 1500) else ret tt) ;;
        dispatch rest obs
  end.

(** The object literal [request] of turn [iter]. *)
Definition buildRequest (prompt : jsstring) (step : TestStep) (obs : Observation)
    (previous : list jsstring) (iter : nat) : LLMRequest :=
  mkRequest prompt (action step) (expected step) (snapshot obs) previous
    (url obs) (title obs) (iter + 1) MAX_ITERATIONS.

(** [for (let iter = ...; iter < MAX_ITERATIONS; iter++)] with [remaining]
    turns left; the result is the pair of locals [(stepStatus, actualResult)]
    at the exit of the loop. *)
Fixpoint iterate (prompt : jsstring) (step : TestStep) (remaining iter : nat)
    (obs : Observation) : M (St W A) (StepStatus * jsval) :=
  match remaining with
  | O => ret (pass, JStr [])
  | S remaining' =>
      previous <- gets (@allCommands W A) ;;
      let request := buildRequest prompt step obs (strings previous) iter in
      act <- ask request ;;
      obs' <- dispatch (commands act) obs ;;
      if done act then
        ret (if Types.success act then pass else fail, actual_result act)
      else
        obs'' <- capture ;;
        iterate prompt step remaining' (iter + 1) obs''
  end.

(** The body of the [try] block of a step. *)
Definition attemptStep (prompt : jsstring) (step : TestStep)
  : M (St W A) (StepStatus * jsval) :=
  obs <- capture ;;
  r <- iterate prompt step MAX_ITERATIONS 0 obs ;;
  let (stepStatus, actualResult) := r in
  if is_pass stepStatus && isEmptyText actualResult then ret (fail, JStr timedOut)
  else ret (stepStatus, actualResult).

(** One turn of [for (const step of testCase.steps)], up to the push of the
    step's result. *)
Definition runStep (testCase : TestCase) (prompt : jsstring) (step : TestStep)
  : M (St W A) StepResult :=
  setCommands [] ;;
  r <- tryCatch (attemptStep prompt step)
         (fun err => ret (error, JStr (lit "Error: " ++ message err))) ;;
  let (stepStatus, actualResult) := r in
  screenshotPath <-
    tryCatch
      (p <- browser (takeStepScreenshot execFile isoNow path_join
                       (id testCase) (Types.step step) SCREENSHOTS_DIR) ;;
       ret (Some p))
      (fun _ => ret None) ;;
  executed <- gets (@allCommands W A) ;;
  ret (mkStepResult (Types.step step) (action step) (expected step) stepStatus
         actualResult [] executed screenshotPath).

(** How the [try]/[catch] of a step settles its status and its text. *)
Definition settled (r : Res (StepStatus * jsval)) : StepStatus * jsval :=
  match r with
  | Return verdict => verdict
  | Throw err => (error, JStr (lit "Error: " ++ message err))
  end.

(** [if (stepStatus !== "pass") overallStatus = ...]. *)
Definition overallAfter (overallStatus stepStatus : StepStatus) : StepStatus :=
  if is_pass stepStatus then overallStatus
  else if is_error stepStatus then error else fail.

(** The loop over the steps, with its two accumulators. *)
Fixpoint runSteps (testCase : TestCase) (prompt : jsstring) (todo : list TestStep)
    (overallStatus : StepStatus) (stepResults : list StepResult)
  : M (St W A) (StepStatus * list StepResult) :=
  match todo with
  | [] => ret (overallStatus, stepResults)
  | step :: rest =>
      r <- runStep testCase prompt step ;;
      let overallStatus' := overallAfter overallStatus (sr_status r) in
      let stepResults' := stepResults ++ [r] in
      if is_error (sr_status r) then ret (overallStatus', stepResults')
      else runSteps testCase prompt rest overallStatus' stepResults'
  end.

Definition passed (results : list StepResult) : nat :=
  List.length (filter (fun s => is_pass (sr_status s)) results).

(** [runTestCase], from the test case it has loaded and the adapter it has
    built on: the prompt, the opening of the browser, the loop over the
    steps and the report. *)
Definition runTestCase (testCase : TestCase) : M (St W A) TestReport :=
  let prompt := buildSystemPrompt testCase in
  _ <- browser (openUrl execFile (target_url testCase)) ;;
  _ <- browser (waitForNetworkIdle execFile) ;;
  r <- runSteps testCase prompt (steps testCase) pass [] ;;
  let (overallStatus, stepResults) := r in
  ret (mkReport (id testCase) (Types.title testCase) overallStatus stepResults
         (lit "Test " ++ id testCase ++ lit " " ++ statusText overallStatus
          ++ lit ". " ++ of_N (N.of_nat (passed stepResults)) ++ lit "/"
          ++ of_N (N.of_nat (List.length stepResults)) ++ lit " steps passed.")).

End Run.

End Runner.

(** ** providers/interactive.ts *)

Module Interactive.

Definition THOUGHT : jsstring :=
  lit "Interactive mode " ++ [emdash] ++ lit " human/agent provided commands".

(** The locals of [decideAction] at the [return]. *)
Record Locals := mkLocals {
  l_commands : list jsstring;
  l_done : bool;
  l_success : bool;
  l_actual : jsstring
}.

Section Terminal.

(** [String.prototype.toUpperCase], whose mapping is the Unicode tables'. *)
Variable toUpperCase : jsstring -> jsstring.

(** The [while (true)] loop. The terminal is the list of the lines that
    will be typed: each [await this.prompt(...)] takes the next one, and
    [None] is a prompt left waiting because no line remains. The result is
    the locals at the [break] and the lines not read. *)
Fixpoint loop (expectedResult : jsstring) (lines commands : list jsstring)
  : option (Locals * list jsstring) :=
  match lines with
  | [] => None
  | line :: rest =>
      let trimmed := trim line in
      if JS.eqb trimmed [] then
        match rest with
        | [] => None
        | verdict :: rest1 =>
            let v := toUpperCase (trim verdict) in
            if JS.eqb v (lit "PASS") then
              match rest1 with
              | [] => None
              | actual :: rest2 =>
                  Some (mkLocals commands true true
                          (if JS.eqb (trim actual) [] then expectedResult else actual),
                        rest2)
              end
            else if JS.eqb v (lit "FAIL") then
              match rest1 with
              | [] => None
              | actual :: rest2 => Some (mkLocals commands true false actual, rest2)
              end
            else if JS.eqb v (lit "SKIP") then
              Some (mkLocals commands true false (lit "Step skipped"), rest1)
            else loop expectedResult rest1 commands
        end
      else if JS.eqb (toUpperCase trimmed) (lit "PASS") then
        Some (mkLocals commands true true expectedResult, rest)
      else if JS.eqb (toUpperCase trimmed) (lit "FAIL") then
        match rest with
        | [] => None
        | actual :: rest1 => Some (mkLocals commands true false actual, rest1)
        end
      else if JS.eqb (toUpperCase trimmed) (lit "SKIP") then
        Some (mkLocals commands true false (lit "Step skipped"), rest)
      else if JS.eqb (toUpperCase trimmed) (lit "SNAP") then
        loop expectedResult rest (commands ++ [lit "__SNAPSHOT__"])
      else loop expectedResult rest (commands ++ [trimmed])
  end.

Definition decideAction (request : LLMRequest) (lines : list jsstring)
  : option (AgentAction * list jsstring) :=
  match loop (expectedResult request) lines [] with
  | Some (l, rest) =>
      Some (mkAction THOUGHT (l_commands l) (l_done l) (l_success l) (trim (l_actual l)),
            rest)
  | None => None
  end.

End Terminal.

End Interactive.

(** ** runner.ts: the environment file and the choice of the provider *)

Module Startup.

(** [process.env]: what reading a name gives, [None] for [undefined]. *)
Definition Env := jsstring -> option jsstring.

Definition equals : N := 61.
Definition hash : N := 35.

Definition isHighSurrogate (c : N) : bool := (55296 <=? c)%N && (c <=? 56319)%N.
Definition isLowSurrogate (c : N) : bool := (56320 <=? c)%N && (c <=? 57343)%N.

(** A text after its passage through UTF-8: a surrogate without its pair
    comes back as U+FFFD. *)
Fixpoint toWellFormed (s : jsstring) : jsstring :=
  match s with
  | [] => []
  | c :: s' =>
      if isHighSurrogate c then
        match s' with
        | d :: s'' =>
            if isLowSurrogate d then c :: d :: toWellFormed s''
            else 65533%N :: toWellFormed s'
        | [] => [65533%N]
        end
      else if isLowSurrogate c then 65533%N :: toWellFormed s'
      else c :: toWellFormed s'
  end.

(** A C string ends before its first U+0000. *)
Fixpoint cstring (s : jsstring) : jsstring :=
  match s with
  | [] => []
  | c :: s' => if N.eqb c 0 then [] else c :: cstring s'
  end.

(** A name or a value as the environment of the process holds it: encoded
    in UTF-8 and handed over as a C string. *)
Definition stored (s : jsstring) : jsstring := cstring (toWellFormed s).

(** [process.env[key] = value], in Node on Linux, the platform of the
    Dockerfile: the name and the value are stored as above, and setenv(3)
    refuses an empty name and a name that holds [=], in which case nothing
    changes. Reading a name goes through the same conversion. *)
Definition setenv (key value : jsstring) (env : Env) : Env :=
  let name := stored key in
  match name with
  | [] => env
  | _ :: _ =>
      if existsb (N.eqb equals) name then env
      else fun k => if JS.eqb (stored k) name then Some (stored value) else env k
  end.

(** A variable that is set to a non-empty value. *)
Definition present (v : option jsstring) : bool :=
  match v with Some (_ :: _) => true | _ => false end.

(** [s.split("\n")], with the piece in progress [cur]. *)
Fixpoint splitLines (s cur : jsstring) : list jsstring :=
  match s with
  | [] => [cur]
  | c :: s' =>
      if N.eqb c newline then cur :: splitLines s' [] else splitLines s' (cur ++ [c])
  end.

(** [s.indexOf(c)] for a single code unit; [None] is -1. *)
Fixpoint indexOf (c : N) (s : jsstring) : option nat :=
  match s with
  | [] => None
  | x :: s' => if N.eqb x c then Some 0 else option_map S (indexOf c s')
  end.

(** The body of the loop over the lines of the file: the assignment a line
    makes, if any. *)
Definition assignment (line : jsstring) : option (jsstring * jsstring) :=
  let trimmed := trim line in
  if JS.eqb trimmed [] || startsWith trimmed [hash] then None
  else
    match indexOf equals trimmed with
    | None => None
    | Some eqIdx => Some (trim (firstn eqIdx trimmed), trim (skipn (S eqIdx) trimmed))
    end.

Definition applyLine (env : Env) (line : jsstring) : Env :=
  match assignment line with
  | Some (key, value) => setenv key value env
  | None => env
  end.

(** [loadEnv], on the text of the file as [readFileSync] decodes it ([None]
    when the file does not exist). *)
Definition loadEnv (file : option jsstring) (env : Env) : Env :=
  match file with
  | Some text => fold_left applyLine (splitLines text []) env
  | None => env
  end.

(** [argv.indexOf(x)]. *)
Fixpoint indexOfArg (x : jsstring) (argv : list jsstring) : option nat :=
  match argv with
  | [] => None
  | a :: argv' => if JS.eqb a x then Some 0 else option_map S (indexOfArg x argv')
  end.

(** The choice of the provider in [main]. *)
Definition selectProvider (argv : list jsstring) (env : Env) : jsstring :=
  let flagged :=
    match indexOfArg (lit "--provider") argv with
    | Some providerArgIdx =>
        match nth_error argv (providerArgIdx + 1) with
        | Some ((_ :: _) as p) => Some p
        | _ => None
        end
    | None => None
    end in
  match flagged with
  | Some p => p
  | None =>
      match env (lit "MODEL_PROVIDER") with
      | Some ((_ :: _) as p) => p
      | _ =>
          if present (env (lit "ANTHROPIC_API_KEY")) then lit "anthropic"
          else if present (env (lit "GITHUB_MODELS_TOKEN")) then lit "github-models"
          else lit "interactive"
      end
  end.

End Startup.

(** ** llm-adapter.ts: the factory, with the constructors of the providers *)

Module Factory.

Import Startup.

(** The adapter objects, by class. *)
Inductive AnyAdapter (T : Type) :=
| InteractiveLLMAdapter
| GitHubModelsAdapter (a : Adapter T)
| AnthropicAdapter (a : Adapter T).
Arguments InteractiveLLMAdapter {T}.

(** [process.env.NAME || fallback]. *)
Definition orDefault (v : option jsstring) (fallback : jsstring) : jsstring :=
  match v with Some ((_ :: _) as x) => x | _ => fallback end.

Definition newAnthropicAdapter {T} (env : Env) (t : T) : Res (Adapter T) :=
  if present (env (lit "ANTHROPIC_API_KEY")) then
    Return (mkAdapter (orDefault (env (lit "ANTHROPIC_MODEL")) (lit "claude-sonnet-4-6"))
              [] t [])
  else
    Throw (mkError (lit "ANTHROPIC_API_KEY not set. "
                    ++ lit "Create a .env file from .env.example and add your Anthropic API key.")).

Definition newGitHubModelsAdapter {T} (env : Env) (t : T) : Res (Adapter T) :=
  if present (env (lit "GITHUB_MODELS_TOKEN")) then
    Return (mkAdapter (orDefault (env (lit "GITHUB_MODELS_MODEL")) (lit "openai/gpt-4.1"))
              [] t [])
  else
    Throw (mkError (lit "GITHUB_MODELS_TOKEN not set. "
                    ++ lit "Create a .env file from .env.example and add your GitHub PAT.")).

Definition createLLMAdapter {T} (provider : jsstring) (env : Env) (t : T)
  : Res (AnyAdapter T) :=
  if JS.eqb provider (lit "interactive") then Return InteractiveLLMAdapter
  else if JS.eqb provider (lit "github-models") then
    match newGitHubModelsAdapter env t with
    | Return a => Return (GitHubModelsAdapter a)
    | Throw e => Throw e
    end
  else if JS.eqb provider (lit "anthropic") then
    match newAnthropicAdapter env t with
    | Return a => Return (AnthropicAdapter a)
    | Throw e => Throw e
    end
  else
    Throw (mkError (lit "LLM provider " ++ [dquote] ++ provider ++ [dquote]
                    ++ lit " is not supported. "
                    ++ lit "Available: interactive, github-models, anthropic")).

End Factory.

(** ** Measures and shapes used in the statements *)

Module Shape.

(** A history made of pairs: a user message, then the assistant's reply. *)
Fixpoint paired (h : list Message) : bool :=
  match h with
  | [] => true
  | u :: a :: rest =>
      JS.eqb (role u) (lit "user") && JS.eqb (role a) (lit "assistant") && paired rest
  | _ => false
  end.

(** The requests of a journal, with their endpoints, and the sum of its pauses. *)
Definition requests (j : list Http.Event) : list (jsstring * Body) :=
  flat_map (fun e => match e with Fetched ep b => [(ep, b)] | Slept _ => [] end) j.

Definition waited (j : list Http.Event) : Z := fold_right Z.add 0%Z (pauses j).

(** A text made of white space only. *)
Definition blank (s : jsstring) : bool := forallb is_space s.

(** A content block that [find] passes over: any value but [null] whose
    [type] is not the string "text". *)
Definition otherBlock (v : jsval) : bool :=
  match v with
  | JNull => false
  | JObj fields =>
      match assoc (lit "type") fields with
      | Some (JStr s) => negb (JS.eqb s (lit "text"))
      | _ => true
      end
  | _ => true
  end.

(** A line typed at the terminal that reads as the given word, and one that
    is kept as a command: not blank and none of the four words. *)
Definition says (toUpperCase : jsstring -> jsstring) (word : string) (line : jsstring)
  : bool :=
  negb (JS.eqb (trim line) []) && JS.eqb (toUpperCase (trim line)) (lit word).

Definition ordinary (toUpperCase : jsstring -> jsstring) (line : jsstring) : bool :=
  negb (JS.eqb (trim line) [])
  && negb (JS.eqb (toUpperCase (trim line)) (lit "PASS"))
  && negb (JS.eqb (toUpperCase (trim line)) (lit "FAIL"))
  && negb (JS.eqb (toUpperCase (trim line)) (lit "SKIP"))
  && negb (JS.eqb (toUpperCase (trim line)) (lit "SNAP")).

(** A text that the environment stores as it is: well-formed, which the
    decoded text of a file always is, and without U+0000. *)
Definition storable (s : jsstring) : bool := JS.eqb (Startup.stored s) s.

(** A name that the environment accepts as it is: storable, not empty and
    without [=]. *)
Definition envName (s : jsstring) : bool :=
  storable s
  && match s with [] => false | _ :: _ => true end
  && negb (existsb (N.eqb Startup.equals) s).


(** The integers that a JavaScript number holds exactly and prints in full. *)
Definition safeInteger (n : Z) : Prop :=
  (- 9007199254740991 <= n <= 9007199254740991)%Z.



(** What [decideAction] makes of the value that the transport returned:
    the value is parsed, which throws on one that has no [trim], and the
    action is logged and returned. *)
Definition reply (JSON_parse : jsstring -> option jsval) (response : jsval)
  : Res (AgentActionOf jsval) :=
  match response with
  | JStr raw =>
      let action := parseAgentResponse JSON_parse raw in
      match logAction action with
      | Return _ => Return action
      | Throw e => Throw e
      end
  | _ => Throw TypeError
  end.

(** An action that keeps the loop of a step going: it is not final and all
    its commands are strings. *)
Definition undecided (a : AgentActionOf jsval) : bool :=
  negb (done a) && forallb isString (commands a).

(** A pause of a provider, in milliseconds: from one second to one minute. *)
Definition shortPause (ms : Z) : Prop := (1000 <= ms <= 60000)%Z.

(** The requests of a step with the actions that answered them. Each
    request carries the prompt, the texts of the step and the ceiling of
    ten, and is numbered from [i] on; the first lists the commands [prev],
    and each later one lists the commands of the request before it followed
    by the commands of the action that answered that request, the refresh
    sentinel left out. A request is followed by another only if its action
    is not final and holds strings only; a request without an action is the
    last. *)
Fixpoint chained (prompt : jsstring) (step : TestStep) (prev : list jsstring) (i : nat)
    (reqs : list LLMRequest) (answers : list (AgentActionOf jsval)) : Prop :=
  match reqs with
  | [] => answers = []
  | r :: rest =>
      systemPrompt r = prompt
      /\ stepDescription r = action step
      /\ expectedResult r = expected step
      /\ maxIterations r = 10
      /\ iteration r = i
      /\ previousActions r = prev
      /\ match answers with
         | [] => rest = []
         | a :: answers' =>
             match rest with
             | [] => answers' = []
             | _ :: _ =>
                 undecided a = true
                 /\ chained prompt step
                      (prev ++ Runner.strings (Runner.recorded (commands a)))
                      (S i) rest answers'
             end
         end
  end.

End Shape.

(** ** Concrete collaborators *)

Module Scenario.

(** A machine on which every CLI call succeeds and prints the same text,
    and one on which every call is rejected: the process exits with a
    non-zero code, having printed nothing but a complaint on its error
    stream. Their state counts the calls made. *)
Definition healthy (args : list jsstring) (timeoutMs : Z) (w : nat)
  : Browser.ExecOutcome * nat :=
  (Browser.Exited (lit "- button [ref=e1]") [], S w).

Definition broken (args : list jsstring) (timeoutMs : Z) (w : nat)
  : Browser.ExecOutcome * nat :=
  (Browser.Rejected (Some []) (Some (lit "Browser not launched"))
     (lit "Command failed: agent-browser"), S w).

Definition isoNow (w : nat) : jsstring := lit "2026-01-01T00:00:00.000Z".

Definition path_join (dir file : jsstring) : jsstring := dir ++ lit "/" ++ file.

(** A decision source that plays a fixed script, one answer per call, and
    throws once the script is over. *)
Definition scripted : LLMAdapter (list (Res (AgentActionOf jsval))) :=
  {| decideAction := fun _ script =>
       match script with
       | answer :: rest => (answer, rest)
       | [] => (Throw (mkError (lit "script is over")), [])
       end |}.


Definition verdict (ok : bool) (actual : jsstring) : AgentActionOf jsval :=
  mkAction (JStr (lit "done")) [] true ok (JStr actual).

(** The conversions of arrays and objects are not called on in the runs
    below, whose commands are strings and numbers. *)
Definition engine (cmd : jsval) : Res (list jsstring) := Return [].

Definition twoSteps : TestCase :=
  mkCase (lit "TC001") (lit "Valid login") (lit "P1") [lit "smoke"]
    (lit "https://example.test/login") [lit "Browser is open"] None
    [mkStep 1 (lit "Enter the user name") (lit "The field holds the name");
     mkStep 2 (lit "Click Login") (lit "The secure page opens")].

Definition start {W A} (w : W) (a : A) : Runner.St W A := Runner.mkSt w a [] [].

(** A transport that answers 429 with a retry-after of 2 to its first
    [limit] requests and 200 with [payload] afterwards; its state counts the
    requests received. *)
Definition throttled (limit : nat) (payload : jsval) (endpoint : jsstring)
    (body : Body) (served : nat) : FetchOutcome * nat :=
  if Nat.ltb served limit
  then (Responded (mkResponse 429 (Some (lit "2")) (lit "slow down") (Throw TypeError)),
        S served)
  else (Responded (mkResponse 200 None [] (Return payload)), S served).

(** A transport that answers every request with the given status. *)
Definition answering (code : Z) (endpoint : jsstring) (body : Body) (served : nat)
  : FetchOutcome * nat :=
  (Responded (mkResponse code None (lit "no") (Throw TypeError)), S served).

Definition anthropicPayload (text : jsstring) : jsval :=
  JObj [(lit "content", JArr [JObj [(lit "type", JStr (lit "text"));
                                    (lit "text", JStr text)]])].

Definition githubPayload (text : jsstring) : jsval :=
  JObj [(lit "choices",
         JArr [JObj [(lit "message", JObj [(lit "content", JStr text)])]])].

Definition fresh (served : nat) : Adapter nat :=
  mkAdapter (lit "some-model") [] served [].

(** A stand-in for [JSON.parse] that knows two texts, the empty object and
    [null], and rejects every other, and a [JSON.stringify] that prints
    nothing: enough where no other JSON text is involved. *)
Definition noJSON (s : jsstring) : option jsval :=
  if JS.eqb s (lit "{}") then Some (JObj [])
  else if JS.eqb s (lit "null") then Some JNull
  else None.
Definition noText (v : jsval) : jsstring := [].



Definition firstRequest : LLMRequest :=
  mkRequest (lit "You are a tester.") (lit "Click Login") (lit "The secure page opens")
    (lit "- button [ref=e1]") [] (lit "https://example.test/login") (lit "Login")
    1 10.

Definition laterRequest : LLMRequest :=
  mkRequest (lit "You are a tester.") (lit "Click Login") (lit "The secure page opens")
    (lit "- heading [ref=e2]") [lit "click @e1"] (lit "https://example.test/secure")
    (lit "Secure") 2 10.

End Scenario.

(** ** More concrete collaborators *)

Module Fixture.

(** Upper case on ASCII letters, where it agrees with [toUpperCase]. *)
Definition asciiUpper (s : jsstring) : jsstring :=
  map (fun c => if (97 <=? c)%N && (c <=? 122)%N then (c - 32)%N else c) s.

Definition emptyEnv : Startup.Env := fun _ => None.

Definition shellEnv : Startup.Env :=
  Startup.setenv (lit "MODEL_PROVIDER") (lit "interactive")
    (Startup.setenv (lit "ANTHROPIC_API_KEY") (lit "sk-ant-shell") emptyEnv).

Definition envFile : jsstring :=
  lit "# keys" ++ [newline] ++ lit "ANTHROPIC_API_KEY = sk-ant-file" ++ [newline]
  ++ [newline] ++ lit "MODEL_PROVIDER=anthropic" ++ [newline]
  ++ lit "NOT AN ASSIGNMENT" ++ [newline] ++ lit "URL=https://x.test/?a=b".

End Fixture.

(** * Properties *)

Lemma jsstring_eqb_spec (a b : jsstring) : reflect (a = b) (JS.eqb a b).
Proof.
  revert b; induction a as [|x a IH]; intros [|y b]; simpl;
    try (constructor; congruence).
  destruct (N.eqb_spec x y) as [->|Hxy]; simpl.
  - destruct (IH b) as [->|Hab]; constructor; congruence.
  - constructor; congruence.
Qed.

(** ** The command parser *)

Section ParserFacts.

Lemma scan_app (a b : jsstring) (st : pstate) :
  scan (a ++ b) st = scan b (scan a st).
Proof. unfold scan; apply fold_left_app. Qed.

Lemma scan_cons (c : N) (s : jsstring) (st : pstate) :
  scan (c :: s) st = scan s (Parser.step st c).
Proof. reflexivity. Qed.

(** Outside quotes a run of plain characters is appended to the token. *)
Lemma scan_plain (t : jsstring) :
  plain t = true ->
  forall a c, scan t (mkP a c None) = mkP a (c ++ t) None.
Proof.
  induction t as [|x t IH]; intros Hp a c.
  - unfold scan; simpl. now rewrite app_nil_r.
  - simpl in Hp. apply andb_prop in Hp as [Hx Ht].
    unfold plain_char in Hx. apply andb_prop in Hx as [Hs Hq].
    apply negb_true_iff in Hs, Hq.
    rewrite scan_cons. unfold Parser.step; simpl. rewrite Hq, Hs.
    rewrite (IH Ht). now rewrite <- app_assoc.
Qed.

(** Inside a span opened by [q], characters other than [q] are appended. *)
Lemma scan_quoted (q : N) (t : jsstring) :
  ~ In q t ->
  forall a c, scan t (mkP a c (Some q)) = mkP a (c ++ t) (Some q).
Proof.
  induction t as [|x t IH]; intros Hn a c.
  - unfold scan; simpl. now rewrite app_nil_r.
  - simpl in Hn. rewrite scan_cons. unfold Parser.step; simpl.
    destruct (N.eqb_spec x q) as [->|Hxq]; [tauto|].
    rewrite IH by tauto. now rewrite <- app_assoc.
Qed.

Lemma forallb_snoc {X} (f : X -> bool) (l : list X) (x : X) :
  forallb f (l ++ [x]) = forallb f l && f x.
Proof. rewrite forallb_app; simpl. now rewrite andb_true_r. Qed.

Lemma step_args_nonempty (st : pstate) (ch : N) :
  forallb nonempty (args st) = true ->
  forallb nonempty (args (Parser.step st ch)) = true.
Proof.
  intros H. unfold Parser.step.
  destruct (inQuote st) as [q|].
  - now destruct (N.eqb ch q).
  - destruct (is_quote ch); [assumption|].
    destruct (is_space ch); [|assumption].
    destruct (current st) eqn:E; [assumption|].
    simpl. rewrite forallb_snoc, H. reflexivity.
Qed.

Lemma scan_args_nonempty (cmd : jsstring) :
  forall st, forallb nonempty (args st) = true ->
             forallb nonempty (args (scan cmd st)) = true.
Proof.
  induction cmd as [|c cmd IH]; intros st H; [assumption|].
  rewrite scan_cons. apply IH, step_args_nonempty, H.
Qed.

(** The parser never produces an empty token. *)
Lemma parseCommand_nonempty (cmd : jsstring) :
  forallb nonempty (parseCommand cmd) = true.
Proof.
  unfold parseCommand, finish.
  pose proof (scan_args_nonempty cmd init eq_refl) as H.
  destruct (current (scan cmd init)) eqn:E; [assumption|].
  rewrite forallb_snoc, H. reflexivity.
Qed.

(** Parsing plain, non-empty tokens joined by single spaces gives them back. *)
Lemma parse_joined (ts : list jsstring) :
  forallb nonempty ts = true -> forallb plain ts = true ->
  forall a, finish (scan (rejoin ts) (mkP a [] None)) = a ++ ts.
Proof.
  induction ts as [|t ts IH]; intros Hne Hpl a.
  - simpl. now rewrite app_nil_r.
  - simpl in Hne, Hpl.
    apply andb_prop in Hne as [Hne1 Hne2]. apply andb_prop in Hpl as [Hpl1 Hpl2].
    destruct ts as [|t' ts].
    + unfold rejoin; simpl join. rewrite (scan_plain _ Hpl1). simpl.
      destruct t; [discriminate|reflexivity].
    + change (rejoin (t :: t' :: ts)) with (t ++ [space] ++ rejoin (t' :: ts)).
      rewrite !scan_app, (scan_plain _ Hpl1). simpl app at 1.
      change (scan [space] (mkP a t None)) with (Parser.step (mkP a t None) space).
      unfold Parser.step; simpl.
      destruct t as [|x t]; [discriminate|].
      rewrite (IH Hne2 Hpl2). now rewrite <- app_assoc.
Qed.

(** After a balanced prefix, an opening quote that is never closed leaves
    the scan inside the span, with the rest appended to the current token. *)
Lemma scan_open_quote (pre rest : jsstring) (q : N) :
  balanced pre -> is_quote q = true -> ~ In q rest ->
  scan (pre ++ q :: rest) init
  = mkP (args (scan pre init)) (current (scan pre init) ++ rest) (Some q).
Proof.
  intros Hb Hq Hn. rewrite scan_app, scan_cons.
  destruct (scan pre init) as [a c iq] eqn:E.
  unfold balanced in Hb; rewrite E in Hb; simpl in Hb; subst iq.
  unfold Parser.step; simpl. rewrite Hq.
  now rewrite scan_quoted by assumption.
Qed.

(** Without a quote character in the command, every token is plain. *)
Lemma scan_unquoted (cmd : jsstring) :
  forallb (fun c => negb (is_quote c)) cmd = true ->
  forall st,
    inQuote st = None -> forallb plain (args st) = true -> plain (current st) = true ->
    inQuote (scan cmd st) = None
    /\ forallb plain (args (scan cmd st)) = true
    /\ plain (current (scan cmd st)) = true.
Proof.
  induction cmd as [|c cmd IH]; intros Hq st Hi Ha Hc; [now repeat split|].
  simpl in Hq. apply andb_prop in Hq as [Hc0 Hq]. apply negb_true_iff in Hc0.
  rewrite scan_cons.
  assert (H : inQuote (Parser.step st c) = None
              /\ forallb plain (args (Parser.step st c)) = true
              /\ plain (current (Parser.step st c)) = true).
  { unfold Parser.step. rewrite Hi, Hc0. destruct (is_space c) eqn:Hs.
    - destruct (current st) as [|x t] eqn:E.
      + repeat split; try assumption. now rewrite E.
      + simpl. repeat split. rewrite forallb_snoc, Ha. exact Hc.
    - simpl. repeat split; [assumption|].
      unfold plain in *. rewrite forallb_snoc, Hc. unfold plain_char.
      now rewrite Hs, Hc0. }
  destruct H as (H1 & H2 & H3). exact (IH Hq _ H1 H2 H3).
Qed.

Lemma unquoted_tokens_plain (cmd : jsstring) :
  forallb (fun c => negb (is_quote c)) cmd = true ->
  forallb plain (parseCommand cmd) = true.
Proof.
  intros Hq.
  destruct (scan_unquoted cmd Hq init eq_refl eq_refl eq_refl) as (_ & Ha & Hc).
  unfold parseCommand, finish.
  destruct (current (scan cmd init)) eqn:E; [exact Ha|].
  rewrite forallb_snoc, Ha. exact Hc.
Qed.

Lemma scan_under_prefix (p : list jsstring) (b : jsstring) :
  forall a c q,
    scan b (mkP (p ++ a) c q)
    = mkP (p ++ args (scan b (mkP a c q))) (current (scan b (mkP a c q)))
        (inQuote (scan b (mkP a c q))).
Proof.
  induction b as [|x b IH]; intros a c q; [reflexivity|].
  rewrite !scan_cons.
  assert (Hstep : Parser.step (mkP (p ++ a) c q) x
                  = mkP (p ++ args (Parser.step (mkP a c q) x))
                      (current (Parser.step (mkP a c q) x))
                      (inQuote (Parser.step (mkP a c q) x))).
  { unfold Parser.step; simpl. destruct q as [q|].
    - now destruct (N.eqb x q).
    - destruct (is_quote x); [reflexivity|].
      destruct (is_space x); [|reflexivity].
      destruct c; simpl; [reflexivity|]. now rewrite app_assoc. }
  rewrite Hstep.
  destruct (Parser.step (mkP a c q) x) as [a' c' q']. simpl. apply IH.
Qed.

Lemma finish_under_prefix (p a : list jsstring) (c : jsstring) (q q' : option N) :
  finish (mkP (p ++ a) c q) = p ++ finish (mkP a c q').
Proof. unfold finish; simpl. destruct c; [reflexivity|]. now rewrite app_assoc. Qed.

(** White space after a balanced prefix ends the token in progress: the
    tokens on its two sides are parsed apart. *)
Lemma tokens_split_at_space (a b : jsstring) (c : N) :
  balanced a -> is_space c = true ->
  parseCommand (a ++ c :: b) = parseCommand a ++ parseCommand b.
Proof.
  intros Hb Hc. unfold parseCommand. rewrite scan_app, scan_cons.
  destruct (scan a init) as [A C iq] eqn:E.
  unfold balanced in Hb. rewrite E in Hb. simpl in Hb. subst iq.
  assert (Hq : is_quote c = false).
  { unfold is_quote, dquote, squote.
    destruct (N.eqb_spec c 34) as [->|_]; [discriminate Hc|].
    destruct (N.eqb_spec c 39) as [->|_]; [discriminate Hc|]. reflexivity. }
  assert (Hstep : Parser.step (mkP A C None) c = mkP (finish (mkP A C None) ++ []) [] None).
  { unfold Parser.step, finish; simpl. rewrite Hq, Hc, app_nil_r.
    now destruct C. }
  rewrite Hstep, scan_under_prefix.
  apply (finish_under_prefix _ _ _ _ (inQuote (scan b init))).
Qed.

(** A quoted span after a balanced prefix: its content is appended to the
    token in progress, and the scan is outside quotes again. *)
Lemma scan_span (pre s : jsstring) (q : N) :
  balanced pre -> is_quote q = true -> ~ In q s ->
  scan (pre ++ q :: s ++ [q]) init
  = mkP (args (scan pre init)) (current (scan pre init) ++ s) None.
Proof.
  intros Hb Hq Hn.
  replace (pre ++ q :: s ++ [q]) with ((pre ++ q :: s) ++ [q])
    by (now rewrite <- app_assoc).
  rewrite scan_app, scan_open_quote by assumption.
  change (scan [q] ?st) with (Parser.step st q).
  unfold Parser.step; simpl. now rewrite N.eqb_refl.
Qed.

End ParserFacts.

(** C8. The parser on the documented inputs: [fill @e2 "hello world"] gives
    the three tokens fill, @e2 and hello world; [click @e3] gives click and
    @e3; [fill @e2 'some "value"'] keeps the double quotes inside the
    single-quoted span; the empty string gives no token; and a quote that is
    never closed runs to the end of the string: after a balanced prefix
    [pre], an opening quote [q] and a rest without [q], the tokens are those
    of the same string with the closing quote added at its end, namely the
    tokens of [pre] with the rest appended to its last, unfinished token. The
    parser is a total function, so no input makes it fail. *)
Theorem parseCommand_documented :
  parseCommand (lit "fill @e2 " ++ [dquote] ++ lit "hello world" ++ [dquote])
    = [lit "fill"; lit "@e2"; lit "hello world"]
  /\ parseCommand (lit "click @e3") = [lit "click"; lit "@e3"]
  /\ parseCommand (lit "fill @e2 'some " ++ [dquote] ++ lit "value" ++ [dquote] ++ lit "'")
    = [lit "fill"; lit "@e2"; lit "some " ++ [dquote] ++ lit "value" ++ [dquote]]
  /\ parseCommand [] = []
  /\ (forall (pre rest : jsstring) (q : N),
        balanced pre -> is_quote q = true -> ~ In q rest ->
        parseCommand (pre ++ q :: rest) = parseCommand (pre ++ q :: rest ++ [q])
        /\ parseCommand (pre ++ q :: rest)
           = finish (mkP (args (scan pre init)) (current (scan pre init) ++ rest) None)).
Proof.
  repeat split; try reflexivity.
  - unfold parseCommand.
    replace (pre ++ q :: rest ++ [q]) with ((pre ++ q :: rest) ++ [q])
      by (now rewrite <- app_assoc).
    rewrite (scan_app (pre ++ q :: rest)), scan_open_quote by assumption.
    change (scan [q] ?st) with (Parser.step st q).
    unfold Parser.step; simpl. now rewrite N.eqb_refl.
  - unfold parseCommand. now rewrite scan_open_quote by assumption.
Qed.

Lemma parseCommand_documented_witness :
  parseCommand (lit "fill @e2 " ++ dquote :: lit "hello wor")
  = [lit "fill"; lit "@e2"; lit "hello wor"].
Proof.
  destruct parseCommand_documented as (_ & _ & _ & _ & H).
  destruct (H (lit "fill @e2 ") (lit "hello wor") dquote) as [_ ->].
  - reflexivity.
  - reflexivity.
  - vm_compute. intuition discriminate.
  - reflexivity.
Defined.

(** C10. An empty quoted span produces no argument, and a quoted span that
    touches unquoted characters is part of the same token: [fill @e2 ""]
    gives fill and @e2 only, and [a"b c"d] gives the single token [ab cd].
    In general, for either quote character: after a balanced prefix an
    opening quote closed at once changes nothing of the tokens; a quoted
    span appends its content to the token in progress and leaves the scan
    outside quotes, so that unquoted characters before and after it, without
    white space in between, make one token with it; and such a token stands
    among the tokens of the commands around it. *)
Theorem parseCommand_empty_and_adjacent_spans :
  parseCommand (lit "fill @e2 " ++ [dquote; dquote]) = [lit "fill"; lit "@e2"]
  /\ parseCommand (lit "a" ++ [dquote] ++ lit "b c" ++ [dquote] ++ lit "d")
     = [lit "ab cd"]
  /\ (forall (pre post : jsstring) (q : N),
        balanced pre -> is_quote q = true ->
        parseCommand (pre ++ q :: q :: post) = parseCommand (pre ++ post))
  /\ (forall (pre s : jsstring) (q : N),
        balanced pre -> is_quote q = true -> ~ In q s ->
        scan (pre ++ q :: s ++ [q]) init
        = mkP (args (scan pre init)) (current (scan pre init) ++ s) None)
  /\ (forall (u s v : jsstring) (q : N),
        plain u = true -> plain v = true -> is_quote q = true -> ~ In q s ->
        parseCommand (u ++ q :: s ++ q :: v)
        = match u ++ s ++ v with [] => [] | _ :: _ => [u ++ s ++ v] end)
  /\ (forall (a b u s v : jsstring) (q c c' : N),
        balanced a -> is_space c = true -> is_space c' = true ->
        plain u = true -> plain v = true -> is_quote q = true -> ~ In q s ->
        parseCommand (a ++ c :: (u ++ q :: s ++ q :: v) ++ c' :: b)
        = parseCommand a
          ++ match u ++ s ++ v with [] => [] | _ :: _ => [u ++ s ++ v] end
          ++ parseCommand b).
Proof.
  assert (Hspan : forall (u s v : jsstring) (q : N),
             plain u = true -> plain v = true -> is_quote q = true -> ~ In q s ->
             scan (u ++ q :: s ++ q :: v) init = mkP [] (u ++ s ++ v) None).
  { intros u s v q Hu Hv Hq Hn.
    assert (Hsu : scan u init = mkP [] u None) by exact (scan_plain u Hu [] []).
    replace (u ++ q :: s ++ q :: v) with ((u ++ q :: s ++ [q]) ++ v)
      by (rewrite <- app_assoc; simpl; now rewrite <- app_assoc).
    rewrite scan_app, scan_span; [|unfold balanced; now rewrite Hsu|exact Hq|exact Hn].
    rewrite Hsu. simpl args. simpl current.
    rewrite (scan_plain v Hv). now rewrite <- app_assoc. }
  split; [reflexivity|]. split; [reflexivity|]. split; [|split; [|split]].
  - intros pre post q Hb Hq. unfold parseCommand.
    change (pre ++ q :: q :: post) with (pre ++ [q; q] ++ post).
    rewrite app_assoc, !scan_app. f_equal. f_equal.
    destruct (scan pre init) as [A C iq] eqn:E.
    unfold balanced in Hb. rewrite E in Hb. simpl in Hb. subst iq.
    unfold scan. simpl. unfold Parser.step at 2. simpl. rewrite Hq.
    unfold Parser.step. simpl. now rewrite N.eqb_refl.
  - intros pre s q. apply scan_span.
  - intros u s v q Hu Hv Hq Hn. unfold parseCommand.
    rewrite (Hspan u s v q Hu Hv Hq Hn). unfold finish. simpl.
    now destruct (u ++ s ++ v).
  - intros a b u s v q c c' Ha Hc Hc' Hu Hv Hq Hn.
    rewrite (@tokens_split_at_space a ((u ++ q :: s ++ q :: v) ++ c' :: b) c Ha Hc).
    rewrite (@tokens_split_at_space (u ++ q :: s ++ q :: v) b c');
      [|unfold balanced; now rewrite (Hspan u s v q Hu Hv Hq Hn)|exact Hc'].
    f_equal. f_equal. unfold parseCommand.
    rewrite (Hspan u s v q Hu Hv Hq Hn). unfold finish. simpl.
    now destruct (u ++ s ++ v).
Qed.

(** The same with single quotes. *)
Lemma parseCommand_empty_and_adjacent_spans_witness :
  parseCommand (lit "fill @e2 ''") = parseCommand (lit "fill @e2 ")
  /\ parseCommand (lit "a'b c'd") = [lit "ab cd"]
  /\ parseCommand (lit "click @e1 x'y z' press Enter")
     = parseCommand (lit "click @e1") ++ [lit "xy z"] ++ parseCommand (lit "press Enter").
Proof.
  destruct parseCommand_empty_and_adjacent_spans as (_ & _ & H3 & _ & H5 & H6).
  split; [|split].
  - apply (H3 (lit "fill @e2 ") [] squote); reflexivity.
  - apply (H5 (lit "a") (lit "b c") (lit "d") squote); try reflexivity.
    vm_compute. intuition discriminate.
  - apply (H6 (lit "click @e1") (lit "press Enter") (lit "x") (lit "y z") [] squote
             space space); try reflexivity.
    vm_compute. intuition discriminate.
Defined.

(** Against C7 as stated. The command [fill @e2 "hello world"] has balanced
    quotes, and its tokens,
    joined by single spaces and parsed again, are four and not three. *)
Lemma rejoin_changes_quoted_token :
  let cmd := lit "fill @e2 " ++ [dquote] ++ lit "hello world" ++ [dquote] in
  balanced cmd
  /\ parseCommand (rejoin (parseCommand cmd))
     = [lit "fill"; lit "@e2"; lit "hello"; lit "world"]
  /\ parseCommand (rejoin (parseCommand cmd)) <> parseCommand cmd.
Proof.
  repeat split; try reflexivity.
  vm_compute. discriminate.
Qed.

(** C7, amended. For every command string whose tokens hold neither white
    space nor a quote character (so, for every command string written without
    quotes), joining the tokens with single spaces and parsing the result
    gives the same tokens. *)
Theorem rejoin_plain_tokens (cmd : jsstring) :
  forallb plain (parseCommand cmd) = true ->
  parseCommand (rejoin (parseCommand cmd)) = parseCommand cmd.
Proof.
  intros Hplain.
  exact (parse_joined (parseCommand cmd) (parseCommand_nonempty cmd) Hplain []).
Qed.

(** In particular, a command written without quotes is stable. *)
Corollary rejoin_unquoted (cmd : jsstring) :
  forallb (fun c => negb (is_quote c)) cmd = true ->
  parseCommand (rejoin (parseCommand cmd)) = parseCommand cmd.
Proof.
  intros Hq.
  exact (parse_joined (parseCommand cmd) (parseCommand_nonempty cmd)
           (unquoted_tokens_plain cmd Hq) []).
Qed.

Lemma rejoin_plain_tokens_witness :
  parseCommand (rejoin (parseCommand (lit "  click   @e3 ")))
  = parseCommand (lit "  click   @e3 ").
Proof. apply rejoin_plain_tokens. reflexivity. Defined.

(** ** The retry policy of the providers *)

Section RetryFacts.

Variable T : Type.
Variable fetch : jsstring -> Body -> T -> FetchOutcome * T.
Variable JSON_stringify : jsval -> jsstring.

Lemma fetches_app (j k : list Http.Event) : fetches (j ++ k) = fetches j + fetches k.
Proof. unfold fetches. now rewrite filter_app, length_app. Qed.

Lemma fetches_after (a : Adapter T) (t' : T) (extra : list Http.Event) :
  fetches (journal (after a t' extra)) = fetches (journal a) + fetches extra.
Proof. unfold after; simpl. apply fetches_app. Qed.

Lemma fetches_request (ep : jsstring) (b : Body) : fetches [Fetched ep b] = 1.
Proof. reflexivity. Qed.

Lemma fetches_request_pause (ep : jsstring) (b : Body) (ms : Z) :
  fetches [Fetched ep b; Slept ms] = 1.
Proof. reflexivity. Qed.



(** *** Anthropic *)

(** The loop body, with the journal written out. *)
Lemma anthropic_attempts_step (body : Body) (n : nat) (attempt : Z)
    (lastError : option Error) (a : Adapter T) :
  Anthropic.attempts fetch JSON_stringify body (S n) attempt lastError a
  = match fetch Anthropic.ANTHROPIC_ENDPOINT body (transport a) with
    | (Responded r, t') =>
        if (status r =? 429)%Z then
          Anthropic.attempts fetch JSON_stringify body n (attempt + 1) (Some rateLimited)
            (after a t' [Fetched Anthropic.ANTHROPIC_ENDPOINT body;
                         Slept (rateLimitWait (retry_after r) attempt * 1000)])
        else if (status r =? 529)%Z then
          Anthropic.attempts fetch JSON_stringify body n (attempt + 1) (Some overloaded)
            (after a t' [Fetched Anthropic.ANTHROPIC_ENDPOINT body;
                         Slept (overloadWait attempt * 1000)])
        else if negb (ok r) then
          (Throw (mkError (lit "Anthropic API error " ++ of_Z (status r) ++ lit ": "
                           ++ slice0 500 (text r))),
           after a t' [Fetched Anthropic.ANTHROPIC_ENDPOINT body])
        else
          Anthropic.readPayload JSON_stringify r
            (after a t' [Fetched Anthropic.ANTHROPIC_ENDPOINT body])
    | (FetchFailed e, t') =>
        (Throw e, after a t' [Fetched Anthropic.ANTHROPIC_ENDPOINT body])
    end.
Proof.
  simpl. unfold bind at 1. unfold Anthropic.post.
  destruct (fetch Anthropic.ANTHROPIC_ENDPOINT body (transport a)) as [[r|e] t'];
    [|reflexivity].
  destruct (status r =? 429)%Z.
  { unfold bind at 1. unfold sleep, record, modify, after. simpl.
    now rewrite <- app_assoc. }
  destruct (status r =? 529)%Z.
  { unfold bind at 1. unfold sleep, record, modify, after. simpl.
    now rewrite <- app_assoc. }
  destruct (negb (ok r)); reflexivity.
Qed.

Lemma anthropic_readPayload_state (r : Response) (a : Adapter T) :
  snd (Anthropic.readPayload JSON_stringify r a) = a.
Proof.
  unfold Anthropic.readPayload, bind, liftRes.
  destruct (json r) as [data|e]; [|reflexivity].
  destruct (Anthropic.textBlockOf data) as [tb|e]; [|reflexivity].
  destruct (getPropOpt tb (lit "text")) as [t|]; [|reflexivity].
  now destruct (truthy t).
Qed.

(** A call sends at most [n] requests in [n] turns and leaves the adapter's
    own fields alone. *)
Lemma anthropic_attempts_bound (body : Body) (n : nat) :
  forall attempt lastError a,
    let a' := snd (Anthropic.attempts fetch JSON_stringify body n attempt lastError a) in
    fetches (journal a') <= fetches (journal a) + n
    /\ conversationHistory a' = conversationHistory a
    /\ model a' = model a.
Proof.
  induction n as [|n IH]; intros attempt lastError a.
  - simpl. repeat split. lia.
  - cbn zeta. rewrite anthropic_attempts_step.
    destruct (fetch Anthropic.ANTHROPIC_ENDPOINT body (transport a)) as [[r|e] t'].
    + destruct (status r =? 429)%Z; [|destruct (status r =? 529)%Z].
      * match goal with |- context [Anthropic.attempts _ _ _ _ ?x ?y ?z] =>
          destruct (IH x y z) as (Hf & Hh & Hm) end.
        rewrite Hh, Hm. rewrite fetches_after, fetches_request_pause in Hf.
        repeat split. lia.
      * match goal with |- context [Anthropic.attempts _ _ _ _ ?x ?y ?z] =>
          destruct (IH x y z) as (Hf & Hh & Hm) end.
        rewrite Hh, Hm. rewrite fetches_after, fetches_request_pause in Hf.
        repeat split. lia.
      * destruct (negb (ok r)).
        -- simpl snd. rewrite fetches_after, fetches_request. repeat split. lia.
        -- rewrite anthropic_readPayload_state, fetches_after, fetches_request.
           repeat split. lia.
    + simpl snd. rewrite fetches_after, fetches_request. repeat split. lia.
Qed.

(** *** GitHub Models *)

Lemma github_attempts_step (body : Body) (n : nat) (attempt : Z)
    (lastError : option Error) (a : Adapter T) :
  GitHubModels.attempts fetch JSON_stringify body (S n) attempt lastError a
  = match fetch GitHubModels.GITHUB_MODELS_ENDPOINT body (transport a) with
    | (Responded r, t') =>
        if (status r =? 429)%Z then
          GitHubModels.attempts fetch JSON_stringify body n (attempt + 1)
            (Some rateLimited)
            (after a t' [Fetched GitHubModels.GITHUB_MODELS_ENDPOINT body;
                         Slept (rateLimitWait (retry_after r) attempt * 1000)])
        else if negb (ok r) then
          (Throw (mkError (lit "GitHub Models API error " ++ of_Z (status r)
                           ++ lit ": " ++ slice0 500 (text r))),
           after a t' [Fetched GitHubModels.GITHUB_MODELS_ENDPOINT body])
        else
          GitHubModels.readPayload JSON_stringify r
            (after a t' [Fetched GitHubModels.GITHUB_MODELS_ENDPOINT body])
    | (FetchFailed e, t') =>
        (Throw e, after a t' [Fetched GitHubModels.GITHUB_MODELS_ENDPOINT body])
    end.
Proof.
  simpl. unfold bind at 1. unfold GitHubModels.post.
  destruct (fetch GitHubModels.GITHUB_MODELS_ENDPOINT body (transport a))
    as [[r|e] t']; [|reflexivity].
  destruct (status r =? 429)%Z.
  { unfold bind at 1. unfold sleep, record, modify, after. simpl.
    now rewrite <- app_assoc. }
  destruct (negb (ok r)); reflexivity.
Qed.

Lemma github_readPayload_state (r : Response) (a : Adapter T) :
  snd (GitHubModels.readPayload JSON_stringify r a) = a.
Proof.
  unfold GitHubModels.readPayload, bind, liftRes.
  destruct (json r) as [data|e]; [|reflexivity].
  destruct (GitHubModels.contentOf data) as [c|e]; [|reflexivity].
  destruct c as [t|]; [|reflexivity].
  now destruct (truthy t).
Qed.

Lemma github_attempts_bound (body : Body) (n : nat) :
  forall attempt lastError a,
    let a' := snd (GitHubModels.attempts fetch JSON_stringify body n attempt lastError a) in
    fetches (journal a') <= fetches (journal a) + n
    /\ conversationHistory a' = conversationHistory a
    /\ model a' = model a.
Proof.
  induction n as [|n IH]; intros attempt lastError a.
  - simpl. repeat split. lia.
  - cbn zeta. rewrite github_attempts_step.
    destruct (fetch GitHubModels.GITHUB_MODELS_ENDPOINT body (transport a))
      as [[r|e] t'].
    + destruct (status r =? 429)%Z.
      * match goal with |- context [GitHubModels.attempts _ _ _ _ ?x ?y ?z] =>
          destruct (IH x y z) as (Hf & Hh & Hm) end.
        rewrite Hh, Hm. rewrite fetches_after, fetches_request_pause in Hf.
        repeat split. lia.
      * destruct (negb (ok r)).
        -- simpl snd. rewrite fetches_after, fetches_request. repeat split. lia.
        -- rewrite github_readPayload_state, fetches_after, fetches_request.
           repeat split. lia.
    + simpl snd. rewrite fetches_after, fetches_request. repeat split. lia.
Qed.

(** A call of [callApi] leaves the conversation history alone. *)
Lemma anthropic_callApi_history (sp : jsstring) (msgs : list Message) (a : Adapter T) :
  conversationHistory (snd (Anthropic.callApi fetch JSON_stringify sp msgs a))
  = conversationHistory a.
Proof.
  unfold Anthropic.callApi, bind, gets.
  apply (anthropic_attempts_bound _ (S MAX_RETRIES) 0 None a).
Qed.

Lemma github_callApi_history (msgs : list Message) (a : Adapter T) :
  conversationHistory (snd (GitHubModels.callApi fetch JSON_stringify msgs a))
  = conversationHistory a.
Proof.
  unfold GitHubModels.callApi, bind, gets.
  apply (github_attempts_bound _ (S MAX_RETRIES) 0 None a).
Qed.

End RetryFacts.



(** ** The conversation history of the providers *)

Section HistoryFacts.

Variable T : Type.
Variable fetch : jsstring -> Body -> T -> FetchOutcome * T.
Variable JSON_parse : jsstring -> option jsval.
Variable JSON_stringify : jsval -> jsstring.
Variable ACTION_SCHEMA : jsstring.

Lemma setHistory_same (a : Adapter T) : setHistory (conversationHistory a) a = a.
Proof. now destruct a. Qed.

Lemma anthropic_decideAction_run (request : LLMRequest) (a : Adapter T) :
  let kept :=
    match previousActions request with [] => [] | _ :: _ => conversationHistory a end in
  let user := mkMessage (lit "user") (JStr (buildUserMessage request)) in
  let sp := Shared.systemPrompt request ++ nl ++ nl ++ lit "## Response Format"
            ++ nl ++ nl ++ ACTION_SCHEMA in
  Anthropic.decideAction fetch JSON_parse JSON_stringify ACTION_SCHEMA request a
  = match Anthropic.callApi fetch JSON_stringify sp (kept ++ [user]) (setHistory kept a) with
    | (Return response, a1) =>
        (Shape.reply JSON_parse response,
         setHistory (kept ++ [user; mkMessage (lit "assistant") response]) a1)
    | (Throw e, a1) => (Throw e, a1)
    end.
Proof.
  cbv zeta. unfold Anthropic.decideAction.
  set (call := Anthropic.callApi fetch JSON_stringify _).
  assert (Hrun : forall kept a0, conversationHistory a0 = kept ->
    (history <- gets (@conversationHistory T) ;;
     response <- call (history ++ [mkMessage (lit "user") (JStr (buildUserMessage request))]) ;;
     modify (fun a => setHistory
               (conversationHistory a ++
                [mkMessage (lit "user") (JStr (buildUserMessage request));
                 mkMessage (lit "assistant") response]) a) ;;
     match response with
     | JStr raw =>
         let action := parseAgentResponse JSON_parse raw in
         liftRes (logAction action) ;;
         ret action
     | _ => throw TypeError
     end) a0
    = match call (kept ++ [mkMessage (lit "user") (JStr (buildUserMessage request))]) a0 with
      | (Return response, a1) =>
          (Shape.reply JSON_parse response,
           setHistory (kept ++ [mkMessage (lit "user") (JStr (buildUserMessage request));
                                mkMessage (lit "assistant") response]) a1)
      | (Throw e, a1) => (Throw e, a1)
      end).
  { intros kept a0 Hk. unfold bind at 1. unfold gets. rewrite Hk.
    unfold bind at 1.
    pose proof (anthropic_callApi_history fetch JSON_stringify
                  (Shared.systemPrompt request ++ nl ++ nl ++ lit "## Response Format"
                   ++ nl ++ nl ++ ACTION_SCHEMA)
                  (kept ++ [mkMessage (lit "user") (JStr (buildUserMessage request))]) a0)
      as Hh.
    fold call in Hh.
    destruct (call _ a0) as [[response|e] a1]; [|reflexivity].
    simpl in Hh. unfold bind, modify. rewrite Hh, Hk.
    destruct response; try reflexivity.
    unfold Shape.reply, liftRes. cbv zeta.
    destruct (logAction (parseAgentResponse JSON_parse s)); reflexivity. }
  destruct (previousActions request) as [|c cs].
  - unfold bind at 1. unfold modify. apply Hrun. reflexivity.
  - unfold bind at 1. unfold ret. rewrite setHistory_same. apply Hrun. reflexivity.
Qed.

Lemma github_decideAction_run (request : LLMRequest) (a : Adapter T) :
  let kept :=
    match previousActions request with [] => [] | _ :: _ => conversationHistory a end in
  let user := mkMessage (lit "user") (JStr (buildUserMessage request)) in
  let system :=
    mkMessage (lit "system")
      (JStr (Shared.systemPrompt request ++ nl ++ nl ++ lit "## Response Format"
             ++ nl ++ nl ++ ACTION_SCHEMA)) in
  GitHubModels.decideAction fetch JSON_parse JSON_stringify ACTION_SCHEMA request a
  = match GitHubModels.callApi fetch JSON_stringify ([system] ++ kept ++ [user])
            (setHistory kept a) with
    | (Return response, a1) =>
        (Shape.reply JSON_parse response,
         setHistory (kept ++ [user; mkMessage (lit "assistant") response]) a1)
    | (Throw e, a1) => (Throw e, a1)
    end.
Proof.
  cbv zeta. unfold GitHubModels.decideAction.
  set (call := GitHubModels.callApi fetch JSON_stringify).
  set (system := mkMessage (lit "system") _).
  set (user := mkMessage (lit "user") _).
  assert (Hrun : forall kept a0, conversationHistory a0 = kept ->
    (history <- gets (@conversationHistory T) ;;
     response <- call ([system] ++ history ++ [user]) ;;
     modify (fun a => setHistory
               (conversationHistory a ++ [user; mkMessage (lit "assistant") response]) a) ;;
     match response with
     | JStr raw =>
         let action := parseAgentResponse JSON_parse raw in
         liftRes (logAction action) ;;
         ret action
     | _ => throw TypeError
     end) a0
    = match call ([system] ++ kept ++ [user]) a0 with
      | (Return response, a1) =>
          (Shape.reply JSON_parse response,
           setHistory (kept ++ [user; mkMessage (lit "assistant") response]) a1)
      | (Throw e, a1) => (Throw e, a1)
      end).
  { intros kept a0 Hk. unfold bind at 1. unfold gets. rewrite Hk.
    unfold bind at 1.
    pose proof (github_callApi_history fetch JSON_stringify
                  ([system] ++ kept ++ [user]) a0) as Hh.
    fold call in Hh.
    destruct (call _ a0) as [[response|e] a1]; [|reflexivity].
    simpl in Hh. unfold bind, modify. rewrite Hh, Hk.
    destruct response; try reflexivity.
    unfold Shape.reply, liftRes. cbv zeta.
    destruct (logAction (parseAgentResponse JSON_parse s)); reflexivity. }
  destruct (previousActions request) as [|c cs].
  - unfold bind at 1. unfold modify. apply Hrun. reflexivity.
  - unfold bind at 1. unfold ret. rewrite setHistory_same. apply Hrun. reflexivity.
Qed.

End HistoryFacts.

(** Against C9 as stated. A call whose transport fails appends nothing: a
    first request of a step put to an adapter that holds the two messages
    of the step before, over a transport that answers 500, throws, and the
    history after the call is empty, without the user message of the call;
    a later request leaves the history as it was, again without that
    message. *)
Lemma failed_call_appends_no_message :
  let stale :=
    mkAdapter (lit "some-model")
      [mkMessage (lit "user") (JStr (lit "old question"));
       mkMessage (lit "assistant") (JStr (lit "old answer"))] 0 [] in
  let first :=
    Anthropic.decideAction (Scenario.answering 500) Scenario.noJSON Scenario.noText
      (lit "schema") Scenario.firstRequest stale in
  let later :=
    GitHubModels.decideAction (Scenario.answering 500) Scenario.noJSON Scenario.noText
      (lit "schema") Scenario.laterRequest stale in
  fst first = Throw (mkError (lit "Anthropic API error 500: no"))
  /\ conversationHistory (snd first) = []
  /\ fst later = Throw (mkError (lit "GitHub Models API error 500: no"))
  /\ conversationHistory (snd later) = conversationHistory stale
  /\ ~ In (mkMessage (lit "user") (JStr (buildUserMessage Scenario.laterRequest)))
         (conversationHistory (snd later)).
Proof.
  cbv zeta. split; [vm_compute; reflexivity|]. split; [vm_compute; reflexivity|].
  split; [vm_compute; reflexivity|]. split; [vm_compute; reflexivity|].
  vm_compute. intros [H|[H|[]]]; discriminate H.
Qed.

(** C9, amended. A call of [decideAction] of either autonomous provider.
    The history kept for the call is empty when the request carries no
    previous command and the adapter's history otherwise; the transport is
    called on the adapter holding that history, with that history followed
    by the user message (after the system message, for GitHub Models), and
    it leaves the history alone. When the transport returns a response, the
    history after the call is the kept history followed by the user message
    and by the response as the assistant's message, whatever the parsing of
    the response then does. When the transport throws, the call throws the
    same error and the history after it is the kept history, with nothing
    appended. *)
Theorem history_lifecycle (T : Type) (fetch : jsstring -> Body -> T -> FetchOutcome * T)
    (JSON_parse : jsstring -> option jsval) (JSON_stringify : jsval -> jsstring)
    (ACTION_SCHEMA : jsstring) (request : LLMRequest) (a : Adapter T) :
  let kept :=
    match previousActions request with [] => [] | _ :: _ => conversationHistory a end in
  let user := mkMessage (lit "user") (JStr (buildUserMessage request)) in
  let format := Shared.systemPrompt request ++ nl ++ nl ++ lit "## Response Format"
                ++ nl ++ nl ++ ACTION_SCHEMA in
  match Anthropic.callApi fetch JSON_stringify format (kept ++ [user])
          (setHistory kept a) with
  | (Return response, a1) =>
      snd (Anthropic.decideAction fetch JSON_parse JSON_stringify ACTION_SCHEMA request a)
      = setHistory (kept ++ [user; mkMessage (lit "assistant") response]) a1
      /\ conversationHistory a1 = kept
  | (Throw e, a1) =>
      Anthropic.decideAction fetch JSON_parse JSON_stringify ACTION_SCHEMA request a
      = (Throw e, a1)
      /\ conversationHistory a1 = kept
  end
  /\ match GitHubModels.callApi fetch JSON_stringify
             ([mkMessage (lit "system") (JStr format)] ++ kept ++ [user])
             (setHistory kept a) with
     | (Return response, a1) =>
         snd (GitHubModels.decideAction fetch JSON_parse JSON_stringify ACTION_SCHEMA
                request a)
         = setHistory (kept ++ [user; mkMessage (lit "assistant") response]) a1
         /\ conversationHistory a1 = kept
     | (Throw e, a1) =>
         GitHubModels.decideAction fetch JSON_parse JSON_stringify ACTION_SCHEMA request a
         = (Throw e, a1)
         /\ conversationHistory a1 = kept
     end.
Proof.
  cbv zeta. split.
  - rewrite anthropic_decideAction_run. cbv zeta.
    match goal with |- context [Anthropic.callApi _ _ ?p ?m ?s] =>
      pose proof (anthropic_callApi_history fetch JSON_stringify p m s) as Hh;
      destruct (Anthropic.callApi fetch JSON_stringify p m s) as [[response|e] a1]
    end; simpl in Hh; (split; [reflexivity|exact Hh]).
  - rewrite github_decideAction_run. cbv zeta.
    match goal with |- context [GitHubModels.callApi _ _ ?m ?s] =>
      pose proof (github_callApi_history fetch JSON_stringify m s) as Hh;
      destruct (GitHubModels.callApi fetch JSON_stringify m s) as [[response|e] a1]
    end; simpl in Hh; (split; [reflexivity|exact Hh]).
Qed.

(** A first request of a step, put to an adapter that still holds the two
    messages of the step before: the history restarts with the new pair. *)
Lemma history_lifecycle_witness :
  let stale :=
    mkAdapter (lit "some-model")
      [mkMessage (lit "user") (JStr (lit "old question"));
       mkMessage (lit "assistant") (JStr (lit "old answer"))] 0 [] in
  conversationHistory
    (snd (Anthropic.decideAction
            (Scenario.throttled 0 (Scenario.anthropicPayload (lit "not json")))
            Scenario.noJSON Scenario.noText (lit "schema") Scenario.firstRequest stale))
  = [mkMessage (lit "user") (JStr (buildUserMessage Scenario.firstRequest));
     mkMessage (lit "assistant") (JStr (lit "not json"))].
Proof.
  intros stale.
  destruct (history_lifecycle
              (Scenario.throttled 0 (Scenario.anthropicPayload (lit "not json")))
              Scenario.noJSON Scenario.noText (lit "schema") Scenario.firstRequest stale)
    as [H _].
  match type of H with
  | match ?call with _ => _ end =>
      let v := eval vm_compute in call in
      change call with v in H
  end.
  lazy beta iota in H. destruct H as [-> _]. reflexivity.
Defined.

(** ** The step loop and the driver *)

Section RunnerFacts.

Import Browser Runner.

Variables W A : Type.
Context {Adapter : LLMAdapter A}.
Variable execFile : list jsstring -> Z -> W -> ExecOutcome * W.
Variable coerced : jsval -> Res (list jsstring).
Variable isoNow : W -> jsstring.
Variable path_join : jsstring -> jsstring -> jsstring.
Variable SYSTEM_PROMPT : jsstring.
Variable SCREENSHOTS_DIR : jsstring.

Lemma bind_run {S X Y} (m : M S X) (k : X -> M S Y) (s : S) :
  bind m k s
  = match m s with
    | (Return x, s') => k x s'
    | (Throw e, s') => (Throw e, s')
    end.
Proof. reflexivity. Qed.

(** [runBrowserCommand] catches whatever the CLI call throws. *)
Lemma runBrowserCommand_total (args : list jsstring) (timeoutMs : Z) (w : W) :
  exists res w', runBrowserCommand execFile args timeoutMs w = (Return res, w').
Proof.
  unfold runBrowserCommand.
  destruct (execFile args timeoutMs w) as [[out err|out err msg] w']; eauto.
Qed.

Lemma browser_total {X} (m : M W X) (st : St W A) (x : X) (w' : W) :
  m (machine st) = (Return x, w') ->
  browser m st = (Return x, withMachine w' st).
Proof. intros H. unfold browser, zoom. now rewrite H. Qed.

Lemma stdout_total (args : list jsstring) (st : St W A) :
  exists out w',
    browser (result <- runBrowserCommand execFile args DEFAULT_TIMEOUT ;;
             ret (stdout result)) st
    = (Return out, withMachine w' st).
Proof.
  destruct (runBrowserCommand_total args DEFAULT_TIMEOUT (machine st)) as (res & w' & H).
  exists (stdout res), w'. apply browser_total. unfold bind. now rewrite H.
Qed.

(** Taking an observation never throws and touches the machine only. *)
Lemma capture_total (st : St W A) :
  exists obs w', capture execFile st = (Return obs, withMachine w' st).
Proof.
  unfold capture, getSnapshot, getUrl, getTitle.
  destruct (stdout_total [lit "snapshot"; lit "-i"; lit "-c"] st) as (s & w1 & H1).
  destruct (stdout_total [lit "get"; lit "url"] (withMachine w1 st)) as (u & w2 & H2).
  destruct (stdout_total [lit "get"; lit "title"] (withMachine w2 (withMachine w1 st)))
    as (t & w3 & H3).
  exists (mkObs s u t), w3.
  unfold bind at 1. rewrite H1. unfold bind at 1. rewrite H2.
  unfold bind at 1. rewrite H3. reflexivity.
Qed.

Lemma asked_app (l k : list Event) : asked (l ++ k) = asked l ++ asked k.
Proof. unfold asked. apply flat_map_app. Qed.

Lemma answered_app (l k : list Event) : answered (l ++ k) = answered l ++ answered k.
Proof. unfold answered. apply flat_map_app. Qed.

Lemma strings_app (l k : list jsval) : strings (l ++ k) = strings l ++ strings k.
Proof. unfold strings. apply flat_map_app. Qed.

Lemma strings_texts (cs : list jsstring) : strings (map JStr cs) = cs.
Proof. induction cs as [|c cs IH]; simpl; congruence. Qed.

Lemma texts_strings (cmds : list jsval) :
  forallb isString cmds = true -> map JStr (strings cmds) = cmds.
Proof.
  induction cmds as [|[|b|x|s|l|f] cmds IH]; simpl; intros H; try discriminate.
  - reflexivity.
  - now rewrite (IH H).
Qed.

Lemma recorded_texts (cs : list jsstring) :
  recorded (map JStr cs) = map JStr (filter (fun c => negb (JS.eqb c SNAPSHOT)) cs).
Proof.
  induction cs as [|c cs IH]; [reflexivity|].
  simpl. destruct (JS.eqb c SNAPSHOT); simpl; now rewrite <- IH.
Qed.

Lemma recorded_strings (cmds : list jsval) :
  forallb isString cmds = true -> forallb isString (recorded cmds) = true.
Proof.
  intros H. rewrite <- (texts_strings cmds H), recorded_texts.
  rewrite forallb_forall. intros v Hv. apply in_map_iff in Hv as (c & <- & _).
  reflexivity.
Qed.

(** A list of commands holds strings only, or strings up to a first value
    that is not one. *)
Lemma first_stray (cmds : list jsval) :
  forallb isString cmds = false ->
  exists cs bad rest, cmds = map JStr cs ++ bad :: rest /\ isString bad = false.
Proof.
  induction cmds as [|v cmds IH]; simpl; intros H; [discriminate|].
  destruct (isString v) eqn:Hv.
  - destruct (IH H) as (cs & bad & rest & -> & Hbad).
    destruct v as [|b|x|s|l|f]; try discriminate.
    exists (s :: cs), bad, rest. now split.
  - exists [], v, cmds. now split.
Qed.

Lemma paused_only (cs : list jsstring) :
  asked (map (fun _ : jsstring => Paused 1500) cs) = []
  /\ answered (map (fun _ : jsstring => Paused 1500) cs) = [].
Proof. induction cs as [|c cs [IH1 IH2]]; simpl; auto. Qed.

Lemma dispatch_snapshot (cmd : jsstring) (rest : list jsval) (obs : Observation)
    (st : St W A) :
  JS.eqb cmd SNAPSHOT = true ->
  exists obs1 w1,
    dispatch execFile coerced (JStr cmd :: rest) obs st
    = dispatch execFile coerced rest obs1 (withMachine w1 st).
Proof.
  intros H. destruct (capture_total st) as (obs1 & w1 & H1).
  exists obs1, w1. cbn [dispatch isSnapshot]. rewrite H, bind_run, H1. reflexivity.
Qed.

Lemma dispatch_string (cmd : jsstring) (rest : list jsval) (obs : Observation)
    (st : St W A) :
  JS.eqb cmd SNAPSHOT = false ->
  exists w1,
    dispatch execFile coerced (JStr cmd :: rest) obs st
    = dispatch execFile coerced rest obs
        (mkSt w1 (adapter st) (allCommands st ++ [JStr cmd])
           (events st ++ (if mutating cmd then [Paused 1500] else []))).
Proof.
  intros H.
  destruct (runBrowserCommand_total (parseCommand cmd) DEFAULT_TIMEOUT (machine st))
    as (res & w1 & H1).
  exists w1. cbn [dispatch isSnapshot parseValue needsPause]. rewrite H.
  rewrite bind_run. unfold liftRes at 1. cbv beta iota.
  rewrite bind_run, (browser_total _ _ H1).
  rewrite bind_run. unfold gets. cbv beta iota.
  rewrite bind_run. unfold setCommands, modify. cbv beta iota.
  rewrite bind_run. unfold liftRes at 1. cbv beta iota.
  rewrite bind_run.
  destruct (mutating cmd).
  - unfold note, modify. reflexivity.
  - unfold ret at 1. cbv beta iota. simpl. now rewrite app_nil_r.
Qed.

(** A command that is not a string throws: at the parser, or else, once it
    has been sent and recorded, at the test of the pause. *)
Lemma dispatch_stray_head (bad : jsval) (rest : list jsval) (obs : Observation)
    (st : St W A) :
  isString bad = false ->
  exists e w' more,
    dispatch execFile coerced (bad :: rest) obs st
    = (Throw e, mkSt w' (adapter st) (allCommands st ++ more) (events st))
    /\ (more = [] \/ more = [bad]).
Proof.
  intros Hbad.
  assert (Hs : isSnapshot bad = false) by (destruct bad; try reflexivity; discriminate).
  assert (Hp : needsPause bad = Throw TypeError)
    by (destruct bad; try reflexivity; discriminate).
  simpl dispatch. rewrite Hs.
  rewrite bind_run. unfold liftRes at 1.
  destruct (parseValue coerced bad) as [parts|e].
  - destruct (runBrowserCommand_total parts DEFAULT_TIMEOUT (machine st))
      as (res & w1 & H1).
    exists TypeError, w1, [bad]. split; [|now right].
    rewrite bind_run, (browser_total _ _ H1).
    rewrite bind_run. unfold gets. cbv beta iota.
    rewrite bind_run. unfold setCommands, modify. cbv beta iota.
    rewrite bind_run. unfold liftRes at 1. rewrite Hp. reflexivity.
  - exists e, (machine st), []. split; [|now left].
    rewrite app_nil_r. now destruct st.
Qed.

Lemma dispatch_app (cs : list jsstring) (more : list jsval) :
  forall obs (st : St W A),
  exists obs' w',
    dispatch execFile coerced (map JStr cs ++ more) obs st
    = dispatch execFile coerced more obs'
        (mkSt w' (adapter st)
           (allCommands st ++ map JStr (filter (fun c => negb (JS.eqb c SNAPSHOT)) cs))
           (events st
            ++ map (fun _ => Paused 1500)
                 (filter mutating (filter (fun c => negb (JS.eqb c SNAPSHOT)) cs)))).
Proof.
  induction cs as [|cmd rest IH]; intros obs st.
  - exists obs, (machine st). simpl. rewrite !app_nil_r. now destruct st.
  - simpl map. simpl app. simpl filter. destruct (JS.eqb cmd SNAPSHOT) eqn:Hs.
    + destruct (@dispatch_snapshot cmd (map JStr rest ++ more) obs st Hs) as (obs1 & w1 & ->).
      destruct (IH obs1 (withMachine w1 st)) as (obs' & w' & ->).
      exists obs', w'. reflexivity.
    + destruct (@dispatch_string cmd (map JStr rest ++ more) obs st Hs) as (w1 & ->).
      match goal with |- context [dispatch _ _ (map JStr rest ++ more) obs ?s] =>
        destruct (IH obs s) as (obs' & w' & ->) end.
      exists obs', w'. simpl negb. cbv iota. simpl filter.
      destruct (mutating cmd); simpl; rewrite <- !app_assoc; reflexivity.
Qed.

(** The commands of an action that are all strings: every one is run, in
    order; all but the refresh sentinel are recorded, and a pause follows
    those that start with click, fill, select or press. *)
Lemma dispatch_run (cs : list jsstring) (obs : Observation) (st : St W A) :
  exists obs' w',
    dispatch execFile coerced (map JStr cs) obs st
    = (Return obs',
       mkSt w' (adapter st)
         (allCommands st ++ map JStr (filter (fun c => negb (JS.eqb c SNAPSHOT)) cs))
         (events st
          ++ map (fun _ => Paused 1500)
               (filter mutating (filter (fun c => negb (JS.eqb c SNAPSHOT)) cs)))).
Proof.
  destruct (dispatch_app cs [] obs st) as (obs' & w' & H).
  rewrite app_nil_r in H. exists obs', w'. rewrite H. reflexivity.
Qed.

(** What dispatching the commands of an action does to the state: it
    returns when the commands are all strings, and throws otherwise; the
    decision source is left alone, and nothing is asked. *)
Lemma dispatch_outcome (cmds : list jsval) (obs : Observation) (st : St W A) :
  exists ps,
    asked ps = [] /\ answered ps = []
    /\ if forallb isString cmds
       then exists obs' w',
              dispatch execFile coerced cmds obs st
              = (Return obs',
                 mkSt w' (adapter st) (allCommands st ++ recorded cmds) (events st ++ ps))
       else exists e w' more,
              dispatch execFile coerced cmds obs st
              = (Throw e, mkSt w' (adapter st) (allCommands st ++ more) (events st ++ ps)).
Proof.
  destruct (forallb isString cmds) eqn:Hs.
  - rewrite <- (texts_strings cmds Hs).
    destruct (dispatch_run (strings cmds) obs st) as (obs' & w' & H).
    eexists. split; [|split; [|exists obs', w'; rewrite H, recorded_texts; reflexivity]];
      apply paused_only.
  - destruct (first_stray cmds Hs) as (cs & bad & rest & -> & Hbad).
    destruct (dispatch_app cs (bad :: rest) obs st) as (obs' & w' & H).
    match type of H with _ = dispatch _ _ _ _ ?s =>
      destruct (@dispatch_stray_head bad rest obs' s Hbad) as (e & w2 & more & H2 & _)
    end.
    eexists. split; [|split; [|exists e, w2; eexists; rewrite H, H2; simpl;
                               rewrite <- app_assoc; reflexivity]];
      apply paused_only.
Qed.

Lemma iterate_unfold (prompt : jsstring) (step : TestStep) (n iter : nat)
    (obs : Observation) (st : St W A) :
  iterate execFile coerced prompt step (S n) iter obs st
  = let req := buildRequest prompt step obs (strings (allCommands st)) iter in
    match decideAction req (adapter st) with
    | (Throw e, a') => (Throw e, withAdapter a' (logged (Asked req) st))
    | (Return act, a') =>
        match dispatch execFile coerced (commands act) obs
                (logged (Answered act) (withAdapter a' (logged (Asked req) st))) with
        | (Return _, st1) =>
            if done act then
              (Return (if Types.success act then pass else fail, actual_result act), st1)
            else
              match capture execFile st1 with
              | (Return obs'', st2) =>
                  iterate execFile coerced prompt step n (iter + 1) obs'' st2
              | (Throw e, st2) => (Throw e, st2)
              end
        | (Throw e, st1) => (Throw e, st1)
        end
    end.
Proof.
  cbv zeta. simpl iterate. unfold ask. unfold bind, gets, note, modify, zoom, ret.
  cbv beta iota.
  change (adapter (logged (Asked (buildRequest prompt step obs
                                    (strings (allCommands st)) iter)) st))
    with (adapter st).
  destruct (decideAction (buildRequest prompt step obs (strings (allCommands st)) iter)
              (adapter st))
    as [[act|e] a']; [|reflexivity].
  destruct (dispatch execFile coerced (commands act) obs _) as [[obs'|e] st1];
    [|reflexivity].
  destruct (done act); reflexivity.
Qed.

(** A turn of the step loop: the request is logged and put to the decision
    source; an exception of the source leaves the loop; an action is logged
    and its commands dispatched, which throws if one of them is not a
    string; the action then either ends the loop with its verdict or is
    followed by a fresh observation and the next turn. *)
Lemma iterate_turn (prompt : jsstring) (step : TestStep) (n iter : nat)
    (obs : Observation) (st : St W A) :
  let req := buildRequest prompt step obs (strings (allCommands st)) iter in
  let run := iterate execFile coerced prompt step in
  match decideAction req (adapter st) with
  | (Throw e, a') =>
      run (S n) iter obs st = (Throw e, withAdapter a' (logged (Asked req) st))
  | (Return act, a') =>
      exists (ps : list Event),
        asked ps = [] /\ answered ps = []
        /\ if forallb isString (commands act)
           then exists w1,
                  let st1 :=
                    mkSt w1 a' (allCommands st ++ recorded (commands act))
                      (events st ++ [Asked req; Answered act] ++ ps) in
                  if done act
                  then run (S n) iter obs st
                       = (Return (if Types.success act then pass else fail,
                                  actual_result act), st1)
                  else exists obs'' w2,
                         run (S n) iter obs st
                         = run n (iter + 1) obs'' (withMachine w2 st1)
           else exists e w1 more,
                  run (S n) iter obs st
                  = (Throw e,
                     mkSt w1 a' (allCommands st ++ more)
                       (events st ++ [Asked req; Answered act] ++ ps))
  end.
Proof.
  cbv zeta. rewrite iterate_unfold. cbv zeta.
  set (req := buildRequest prompt step obs (strings (allCommands st)) iter).
  destruct (decideAction req (adapter st)) as [[act|e] a']; [|reflexivity].
  destruct (dispatch_outcome (commands act) obs
              (logged (Answered act) (withAdapter a' (logged (Asked req) st))))
    as (ps & Hp1 & Hp2 & Hd).
  exists ps. split; [exact Hp1|]. split; [exact Hp2|].
  destruct (forallb isString (commands act)).
  - destruct Hd as (obs' & w1 & Hd). exists w1. rewrite Hd. simpl.
    rewrite <- !app_assoc. simpl.
    destruct (done act); [reflexivity|].
    match goal with |- context [capture execFile ?s] =>
      destruct (capture_total s) as (obs'' & w2 & Hc) end.
    exists obs'', w2. rewrite Hc. reflexivity.
  - destruct Hd as (e & w1 & more & Hd). exists e, w1, more. rewrite Hd. simpl.
    rewrite <- !app_assoc. reflexivity.
Qed.

Lemma turn_log (req : LLMRequest) (act : AgentActionOf jsval) (ps ext : list Event) :
  asked ps = [] -> answered ps = [] ->
  asked ([Asked req; Answered act] ++ ps ++ ext) = req :: asked ext
  /\ answered ([Asked req; Answered act] ++ ps ++ ext) = act :: answered ext.
Proof.
  intros H1 H2. simpl. rewrite asked_app, answered_app, H1, H2. now split.
Qed.

Lemma chained_cons (prompt : jsstring) (step : TestStep) (prev : list jsstring)
    (obs : Observation) (iter : nat) (act : AgentActionOf jsval)
    (rest : list LLMRequest) (answers : list (AgentActionOf jsval)) :
  (rest <> [] -> Shape.undecided act = true) ->
  Shape.chained prompt step (prev ++ strings (recorded (commands act))) (S (iter + 1))
    rest answers ->
  Shape.chained prompt step prev (iter + 1)
    (buildRequest prompt step obs prev iter :: rest) (act :: answers).
Proof.
  intros Hu Hc. simpl. repeat split.
  destruct rest as [|r rest]; [exact Hc|].
  split; [apply Hu; discriminate|exact Hc].
Qed.


Lemma chained_answers (prompt : jsstring) (step : TestStep) (reqs : list LLMRequest) :
  forall prev i answers,
    Shape.chained prompt step prev i reqs answers ->
    List.length answers <= List.length reqs.
Proof.
  induction reqs as [|r rest IH]; intros prev i answers H.
  - simpl in H. subst answers. reflexivity.
  - simpl in H. destruct H as (_ & _ & _ & _ & _ & _ & H).
    destruct answers as [|a answers]; [simpl; lia|].
    destruct rest as [|r' rest]; [subst answers; simpl; lia|].
    destruct H as [_ H]. specialize (IH _ _ _ H). simpl in *. lia.
Qed.

(** The loop of a step, from a turn on, on an array of commands that holds
    strings only: the requests it puts and the actions it receives are
    chained, at most one request is put per turn, and the loop ends in one
    of four ways: the turns are used up by actions that are not final; an
    action is final; the decision source throws; an action holds a command
    that is not a string. *)
Lemma iterate_trace (prompt : jsstring) (step : TestStep) (n : nat) :
  forall iter obs (st : St W A),
    forallb isString (allCommands st) = true ->
    let out := iterate execFile coerced prompt step n iter obs st in
    exists ext,
      events (snd out) = events st ++ ext
      /\ Shape.chained prompt step (strings (allCommands st)) (iter + 1)
           (asked ext) (answered ext)
      /\ List.length (asked ext) <= n
      /\ (n <> 0 -> asked ext <> [])
      /\ match fst out with
         | Return (status, actual) =>
             List.length (answered ext) = List.length (asked ext)
             /\ ((status = pass /\ actual = JStr []
                  /\ List.length (asked ext) = n
                  /\ forallb Shape.undecided (answered ext) = true)
                 \/ (exists front a,
                        answered ext = front ++ [a]
                        /\ forallb Shape.undecided front = true
                        /\ done a = true
                        /\ forallb isString (commands a) = true
                        /\ status = (if Types.success a then pass else fail)
                        /\ actual = actual_result a))
         | Throw e =>
             (exists reqs req a,
                 asked ext = reqs ++ [req]
                 /\ List.length (answered ext) = List.length reqs
                 /\ forallb Shape.undecided (answered ext) = true
                 /\ decideAction req a = (Throw e, adapter (snd out)))
             \/ (List.length (answered ext) = List.length (asked ext)
                 /\ exists front a,
                      answered ext = front ++ [a]
                      /\ forallb Shape.undecided front = true
                      /\ forallb isString (commands a) = false)
         end.
Proof.
  induction n as [|n IH]; intros iter obs st Hall; cbv zeta.
  - exists []. simpl. rewrite app_nil_r.
    split; [reflexivity|]. split; [reflexivity|]. split; [lia|]. split; [congruence|].
    split; [reflexivity|]. left. repeat split.
  - pose proof (iterate_turn prompt step n iter obs st) as Ht. cbv zeta in Ht.
    set (req := buildRequest prompt step obs (strings (allCommands st)) iter) in *.
    destruct (decideAction req (adapter st)) as [[act|e] a'] eqn:Hd.
    + destruct Ht as (ps & Hp1 & Hp2 & Ht).
      destruct (forallb isString (commands act)) eqn:Hstr.
      * destruct Ht as (w1 & Ht). cbv zeta in Ht.
        destruct (done act) eqn:Hdone.
        -- rewrite Ht. exists ([Asked req; Answered act] ++ ps ++ []).
           destruct (turn_log req act ps [] Hp1 Hp2) as [-> ->].
           rewrite app_nil_r. simpl fst. simpl snd. simpl events.
           split; [reflexivity|].
           split; [apply chained_cons; [intros H; now elim H|reflexivity]|].
           split; [simpl; lia|]. split; [discriminate|].
           split; [reflexivity|]. right. exists [], act. repeat split; assumption.
        -- destruct Ht as (obs'' & w2 & Ht). rewrite Ht.
           match goal with |- context [iterate _ _ _ _ n (iter + 1) obs'' ?s] =>
             destruct (IH (iter + 1) obs'' s) as (ext & Hev & Hch & Hlen & Hne & Hout)
           end.
           { simpl. rewrite forallb_app, Hall. simpl. now apply recorded_strings. }
           exists ([Asked req; Answered act] ++ ps ++ ext).
           destruct (turn_log req act ps ext Hp1 Hp2) as [-> ->].
           split; [rewrite Hev; simpl; now rewrite <- !app_assoc|].
           assert (Hund : Shape.undecided act = true)
             by (unfold Shape.undecided; now rewrite Hdone, Hstr).
           split.
           { apply chained_cons; [intros _; exact Hund|].
             simpl allCommands in Hch. rewrite strings_app in Hch.
             rewrite Nat.add_1_r in Hch. exact Hch. }
           split; [simpl; lia|]. split; [discriminate|].
           destruct (fst (iterate execFile coerced prompt step n (iter + 1) obs'' _))
             as [[status actual]|e].
           ++ destruct Hout as [Hl Hout]. split; [simpl; now rewrite Hl|].
              destruct Hout as [(H1 & H2 & H3 & H4)|(front & a & H1 & H2 & H3 & H4 & H5)].
              ** left. split; [exact H1|]. split; [exact H2|].
                 split; [simpl; now rewrite H3|]. simpl. now rewrite Hund.
              ** right. exists (act :: front), a. rewrite H1.
                 split; [reflexivity|]. split; [simpl; now rewrite Hund|].
                 repeat split; try assumption; apply H5.
           ++ destruct Hout as [(reqs & r & a & H1 & H2 & H3 & H4)
                               |(Hl & front & a & H1 & H2 & H3)].
              ** left. exists (req :: reqs), r, a. rewrite H1.
                 split; [reflexivity|]. split; [simpl; now rewrite H2|].
                 split; [simpl; now rewrite Hund|exact H4].
              ** right. split; [simpl; now rewrite Hl|].
                 exists (act :: front), a. rewrite H1.
                 split; [reflexivity|]. split; [simpl; now rewrite Hund|exact H3].
      * destruct Ht as (e & w1 & more & Ht). rewrite Ht.
        exists ([Asked req; Answered act] ++ ps ++ []).
        destruct (turn_log req act ps [] Hp1 Hp2) as [-> ->].
        rewrite app_nil_r. simpl fst. simpl snd. simpl events.
        split; [reflexivity|].
        split; [apply chained_cons; [intros H; now elim H|reflexivity]|].
        split; [simpl; lia|]. split; [discriminate|].
        right. split; [reflexivity|]. exists [], act. repeat split. exact Hstr.
    + rewrite Ht. exists [Asked req]. simpl fst. simpl snd. simpl events.
      split; [reflexivity|].
      split; [simpl; repeat split|].
      split; [simpl; lia|]. split; [discriminate|].
      left. exists [], req, (adapter st). repeat split. exact Hd.
Qed.

(** The [try] block of a step. *)
Lemma attemptStep_trace (prompt : jsstring) (step : TestStep) (st : St W A) :
  forallb isString (allCommands st) = true ->
  let out := attemptStep execFile coerced prompt step st in
  exists ext,
    events (snd out) = events st ++ ext
    /\ Shape.chained prompt step (strings (allCommands st)) 1 (asked ext) (answered ext)
    /\ 1 <= List.length (asked ext) <= MAX_ITERATIONS
    /\ match fst out with
       | Return (status, actual) =>
           List.length (answered ext) = List.length (asked ext)
           /\ ((status = fail /\ actual = JStr timedOut
                /\ List.length (asked ext) = MAX_ITERATIONS
                /\ forallb Shape.undecided (answered ext) = true)
               \/ (exists front a,
                      answered ext = front ++ [a]
                      /\ forallb Shape.undecided front = true
                      /\ done a = true
                      /\ forallb isString (commands a) = true
                      /\ (status, actual)
                         = (if Types.success a && isEmptyText (actual_result a)
                            then (fail, JStr timedOut)
                            else (if Types.success a then pass else fail,
                                  actual_result a))))
       | Throw e =>
           (exists reqs req a,
               asked ext = reqs ++ [req]
               /\ List.length (answered ext) = List.length reqs
               /\ forallb Shape.undecided (answered ext) = true
               /\ decideAction req a = (Throw e, adapter (snd out)))
           \/ (List.length (answered ext) = List.length (asked ext)
               /\ exists front a,
                    answered ext = front ++ [a]
                    /\ forallb Shape.undecided front = true
                    /\ forallb isString (commands a) = false)
       end.
Proof.
  intros Hall. cbv zeta. unfold attemptStep. rewrite bind_run.
  destruct (capture_total st) as (obs & w1 & ->).
  rewrite bind_run.
  pose proof (iterate_trace prompt step MAX_ITERATIONS 0 obs (withMachine w1 st) Hall)
    as Ht. cbv zeta in Ht.
  destruct Ht as (ext & Hev & Hch & Hlen & Hne & Hout).
  assert (Hone : 1 <= List.length (asked ext)).
  { destruct (asked ext); [exfalso; apply Hne; [discriminate|reflexivity]|simpl; lia]. }
  exists ext.
  destruct (iterate execFile coerced prompt step MAX_ITERATIONS 0 obs (withMachine w1 st))
    as [[[status actual]|e] st2]; simpl in Hev, Hout.
  - destruct Hout as [Hl Hout].
    destruct Hout as [(-> & -> & H3 & H4)|(front & a & H1 & H2 & H3 & H4 & -> & ->)].
    + simpl. split; [exact Hev|]. split; [exact Hch|]. split; [lia|].
      split; [exact Hl|]. left. repeat split; assumption.
    + assert (Hp : is_pass (if Types.success a then pass else fail) = Types.success a)
        by (now destruct (Types.success a)).
      rewrite Hp.
      destruct (Types.success a && isEmptyText (actual_result a)) eqn:Hc; simpl;
        (split; [exact Hev|]; split; [exact Hch|]; split; [lia|];
         split; [exact Hl|]; right; exists front, a; rewrite Hc;
         repeat split; assumption).
  - simpl. split; [exact Hev|]. split; [exact Hch|]. split; [lia|]. exact Hout.
Qed.

Lemma takeStepScreenshot_path (testId : jsstring) (stepNumber : Z) (st : St W A) :
  exists w',
    browser (takeStepScreenshot execFile isoNow path_join testId stepNumber
               SCREENSHOTS_DIR) st
    = (Return (path_join SCREENSHOTS_DIR
                 (testId ++ lit "_step" ++ of_Z stepNumber ++ lit "_"
                  ++ dashed (isoNow (machine st)) ++ lit ".png")),
       withMachine w' st).
Proof.
  unfold takeStepScreenshot, screenshot.
  set (filepath :=
         path_join SCREENSHOTS_DIR
           (testId ++ lit "_step" ++ of_Z stepNumber ++ lit "_"
            ++ dashed (isoNow (machine st)) ++ lit ".png")).
  destruct (runBrowserCommand_total ([lit "screenshot"; filepath] ++ [])
              DEFAULT_TIMEOUT (machine st)) as (res & w' & H).
  exists w'. apply browser_total.
  rewrite bind_run. unfold gets. cbv beta iota. fold filepath.
  rewrite bind_run, H. reflexivity.
Qed.

(** A step always yields a result: the verdict of its [try] block, or the
    error status with the message of what the block threw; and the
    screenshot is always taken. *)
Lemma runStep_run (testCase : TestCase) (prompt : jsstring) (step : TestStep)
    (st st1 : St W A) (r : Res (StepStatus * jsval)) :
  attemptStep execFile coerced prompt step (withCommands [] st) = (r, st1) ->
  exists w',
    runStep execFile coerced isoNow path_join SCREENSHOTS_DIR testCase prompt step st
    = (Return (mkStepResult (Types.step step) (action step) (expected step)
                 (fst (settled r)) (snd (settled r)) [] (allCommands st1)
                 (Some (path_join SCREENSHOTS_DIR
                          (id testCase ++ lit "_step" ++ of_Z (Types.step step)
                           ++ lit "_" ++ dashed (isoNow (machine st1)) ++ lit ".png")))),
       withMachine w' st1).
Proof.
  intros Hr. unfold runStep.
  rewrite bind_run. unfold setCommands, modify. cbv beta iota.
  rewrite bind_run. unfold tryCatch at 1. rewrite Hr.
  assert (Hs : (let (r0, s') := (r, st1) in
                match r0 with
                | Return x => (Return x, s')
                | Throw e => ret (error, JStr (lit "Error: " ++ message e)) s'
                end) = (Return (settled r), st1)) by (destruct r; reflexivity).
  rewrite Hs. destruct (settled r) as [stepStatus actualResult].
  destruct (takeStepScreenshot_path (id testCase) (Types.step step) st1) as (w' & Hshot).
  exists w'.
  rewrite bind_run. unfold tryCatch. rewrite bind_run, Hshot. reflexivity.
Qed.

(** A step, with everything its result and its log show. The step ends in
    one of four ways: ten actions that are not final, and the time-out; a
    final action, and its verdict; an exception of the decision source; an
    action with a command that is not a string. *)
Lemma runStep_trace (testCase : TestCase) (prompt : jsstring) (step : TestStep)
    (st : St W A) :
  exists r st' ext w0,
    runStep execFile coerced isoNow path_join SCREENSHOTS_DIR testCase prompt step st
    = (Return r, st')
    /\ events st' = events st ++ ext
    /\ Shape.chained prompt step [] 1 (asked ext) (answered ext)
    /\ 1 <= List.length (asked ext) <= MAX_ITERATIONS
    /\ sr_step r = Types.step step
    /\ sr_screenshot r
       = Some (path_join SCREENSHOTS_DIR
                 (id testCase ++ lit "_step" ++ of_Z (Types.step step) ++ lit "_"
                  ++ dashed (isoNow w0) ++ lit ".png"))
    /\ ((List.length (answered ext) = List.length (asked ext)
         /\ List.length (asked ext) = MAX_ITERATIONS
         /\ forallb Shape.undecided (answered ext) = true
         /\ sr_status r = fail /\ sr_actual r = JStr timedOut)
        \/ (List.length (answered ext) = List.length (asked ext)
            /\ exists front a,
                 answered ext = front ++ [a]
                 /\ forallb Shape.undecided front = true
                 /\ done a = true
                 /\ forallb isString (commands a) = true
                 /\ (sr_status r, sr_actual r)
                    = (if Types.success a && isEmptyText (actual_result a)
                       then (fail, JStr timedOut)
                       else (if Types.success a then pass else fail, actual_result a)))
        \/ (exists reqs req a e,
               asked ext = reqs ++ [req]
               /\ List.length (answered ext) = List.length reqs
               /\ forallb Shape.undecided (answered ext) = true
               /\ decideAction req a = (Throw e, adapter st')
               /\ sr_status r = error
               /\ sr_actual r = JStr (lit "Error: " ++ message e))
        \/ (List.length (answered ext) = List.length (asked ext)
            /\ exists front a e,
                 answered ext = front ++ [a]
                 /\ forallb Shape.undecided front = true
                 /\ forallb isString (commands a) = false
                 /\ sr_status r = error
                 /\ sr_actual r = JStr (lit "Error: " ++ message e))).
Proof.
  destruct (attemptStep execFile coerced prompt step (withCommands [] st))
    as [res st1] eqn:Hr.
  pose proof (@attemptStep_trace prompt step (withCommands [] st) eq_refl) as Ht.
  cbv zeta in Ht. rewrite Hr in Ht. simpl in Ht.
  destruct Ht as (ext & Hev & Hch & Hlen & Hout).
  destruct (@runStep_run testCase prompt step st st1 res Hr) as (w' & ->).
  eexists _, _, ext, (machine st1).
  split; [reflexivity|]. split; [exact Hev|]. split; [exact Hch|].
  split; [exact Hlen|]. split; [reflexivity|]. split; [reflexivity|].
  destruct res as [[status actual]|e]; simpl.
  - destruct Hout as [Hl [(-> & -> & H3 & H4)|(front & a & H1 & H2 & H3 & H4 & H5)]].
    + left. repeat split; assumption.
    + right. left. split; [exact Hl|]. exists front, a. repeat split; assumption.
  - destruct Hout as [(reqs & req & a & H1 & H2 & H3 & H4)|(Hl & front & a & H1 & H2 & H3)].
    + right. right. left. exists reqs, req, a, e. repeat split; assumption.
    + right. right. right. split; [exact Hl|]. exists front, a, e.
      repeat split; assumption.
Qed.

(** What every step yields. *)
Lemma runStep_result (testCase : TestCase) (prompt : jsstring) (step : TestStep)
    (st : St W A) :
  exists r st',
    runStep execFile coerced isoNow path_join SCREENSHOTS_DIR testCase prompt step st
    = (Return r, st')
    /\ sr_step r = Types.step step
    /\ sr_status r <> skipped
    /\ (sr_status r = error ->
        exists e, sr_actual r = JStr (lit "Error: " ++ message e))
    /\ List.length (asked (events st)) + 1 <= List.length (asked (events st'))
    /\ List.length (asked (events st'))
       <= List.length (asked (events st)) + MAX_ITERATIONS.
Proof.
  destruct (runStep_trace testCase prompt step st)
    as (r & st' & ext & w0 & Hrun & Hev & _ & Hlen & Hstep & _ & Hout).
  exists r, st'. split; [exact Hrun|]. split; [exact Hstep|].
  assert (Hcount : List.length (asked (events st'))
                   = List.length (asked (events st)) + List.length (asked ext))
    by (now rewrite Hev, asked_app, length_app).
  assert (Hpair : forall (a : AgentActionOf jsval),
             (sr_status r, sr_actual r)
             = (if Types.success a && isEmptyText (actual_result a)
                then (fail, JStr timedOut)
                else (if Types.success a then pass else fail, actual_result a)) ->
             sr_status r = pass \/ sr_status r = fail).
  { intros a H. destruct (Types.success a && isEmptyText (actual_result a));
      [injection H as -> _; now right|].
    destruct (Types.success a); injection H as -> _; [now left|now right]. }
  split; [|split; [|lia]].
  - destruct Hout as [(_ & _ & _ & -> & _)
                     |[(_ & front & a & _ & _ & _ & _ & H)
                      |[(reqs & req & a & e & _ & _ & _ & _ & -> & _)
                       |(_ & front & a & e & _ & _ & _ & -> & _)]]];
      try discriminate.
    destruct (Hpair a H) as [-> | ->]; discriminate.
  - intros Herr.
    destruct Hout as [(_ & _ & _ & Hs & _)
                     |[(_ & front & a & _ & _ & _ & _ & H)
                      |[(reqs & req & a & e & _ & _ & _ & _ & _ & Ha)
                       |(_ & front & a & e & _ & _ & _ & _ & Ha)]]].
    + congruence.
    + destruct (Hpair a H); congruence.
    + now exists e.
    + now exists e.
Qed.

Lemma aggregate_snoc (l : list StepStatus) (s : StepStatus) :
  existsb is_error l = false -> s <> skipped ->
  overallAfter (aggregate l) s = aggregate (l ++ [s]).
Proof.
  intros Hl Hs. unfold aggregate, overallAfter.
  rewrite !existsb_app, Hl. simpl.
  destruct s; simpl; try congruence;
    rewrite ?orb_false_r, ?orb_true_r; reflexivity.
Qed.

(** The loop over the steps: what it adds to the results, and how many
    requests it puts. *)
Lemma runSteps_run (testCase : TestCase) (prompt : jsstring) (todo : list TestStep) :
  forall overall results (st : St W A),
    existsb is_error (map sr_status results) = false ->
    overall = aggregate (map sr_status results) ->
    exists new st',
      runSteps execFile coerced isoNow path_join SCREENSHOTS_DIR testCase prompt todo
        overall results st
      = (Return (aggregate (map sr_status (results ++ new)), results ++ new), st')
      /\ map sr_step new = map Types.step (firstn (List.length new) todo)
      /\ (forall r, In r new -> sr_status r <> skipped)
      /\ (forall i r, nth_error new i = Some r -> sr_status r = error ->
                      S i = List.length new)
      /\ (existsb is_error (map sr_status new) = false ->
          List.length new = List.length todo)
      /\ (forall r, In r new -> sr_status r = error ->
          exists e, sr_actual r = JStr (lit "Error: " ++ message e))
      /\ List.length new <= List.length todo
      /\ List.length (asked (events st)) + List.length new
         <= List.length (asked (events st'))
      /\ List.length (asked (events st'))
         <= List.length (asked (events st)) + MAX_ITERATIONS * List.length new.
Proof.
  induction todo as [|step rest IH]; intros overall results st Hne Hov.
  - exists [], st. simpl. rewrite app_nil_r, Hov.
    repeat split; try reflexivity; try (intros; contradiction); try lia.
    intros [|i] r H; discriminate H.
  - simpl runSteps. rewrite bind_run.
    destruct (runStep_result testCase prompt step st)
      as (r & st1 & -> & Hstep & Hskip & Herr & Hlo1 & Hhi1).
    assert (Hagg : overallAfter overall (sr_status r)
                   = aggregate (map sr_status (results ++ [r]))).
    { rewrite Hov, map_app. now apply aggregate_snoc. }
    rewrite Hagg.
    destruct (is_error (sr_status r)) eqn:He.
    + exists [r], st1. split; [reflexivity|].
      split; [simpl; now rewrite Hstep|].
      split; [intros r' [<-|[]]; exact Hskip|].
      split.
      { intros [|[|i]] r' H; simpl in H; try discriminate H; reflexivity. }
      split; [simpl; rewrite He; discriminate|].
      split; [intros r' [<-|[]] Hs; exact (Herr Hs)|].
      simpl. unfold MAX_ITERATIONS in *. repeat split; lia.
    + destruct (IH (aggregate (map sr_status (results ++ [r]))) (results ++ [r]) st1)
        as (new & st' & Hrun & Hsteps & Hsk & Hlast & Hall & Hprov & Hn & Hlo & Hhi).
      { rewrite map_app, existsb_app, Hne. simpl. now rewrite He. }
      { reflexivity. }
      exists (r :: new), st'.
      rewrite <- app_assoc in Hrun. split; [exact Hrun|].
      split; [simpl; now rewrite Hstep, Hsteps|].
      split; [intros r' [<-|Hin]; [exact Hskip|now apply Hsk]|].
      split.
      { intros [|i] r' H Hs; simpl in H.
        - injection H as <-. destruct (sr_status r); discriminate.
        - simpl. f_equal. exact (Hlast i r' H Hs). }
      split.
      { simpl. rewrite He. simpl. intros H. now rewrite (Hall H). }
      split; [intros r' [<-|Hin] Hs; [exact (Herr Hs)|exact (Hprov r' Hin Hs)]|].
      simpl. unfold MAX_ITERATIONS in *. repeat split; lia.
Qed.

(** The driver always yields a report, built from the results of the loop. *)
Lemma runTestCase_run (testCase : TestCase) (st : St W A) :
  exists report st',
    runTestCase execFile coerced isoNow path_join SYSTEM_PROMPT SCREENSHOTS_DIR
      testCase st
    = (Return report, st')
    /\ tr_status report = aggregate (map sr_status (tr_steps report))
    /\ map sr_step (tr_steps report)
       = map Types.step (firstn (List.length (tr_steps report)) (steps testCase))
    /\ (forall r, In r (tr_steps report) -> sr_status r <> skipped)
    /\ (forall i r, nth_error (tr_steps report) i = Some r -> sr_status r = error ->
                    S i = List.length (tr_steps report))
    /\ (existsb is_error (map sr_status (tr_steps report)) = false ->
        List.length (tr_steps report) = List.length (steps testCase))
    /\ (forall r, In r (tr_steps report) -> sr_status r = error ->
        exists e, sr_actual r = JStr (lit "Error: " ++ message e))
    /\ List.length (tr_steps report) <= List.length (steps testCase)
    /\ List.length (asked (events st)) + List.length (tr_steps report)
       <= List.length (asked (events st'))
    /\ List.length (asked (events st'))
       <= List.length (asked (events st)) + MAX_ITERATIONS * List.length (tr_steps report).
Proof.
  unfold runTestCase. rewrite !bind_run.
  destruct (runBrowserCommand_total [lit "open"; target_url testCase]
              DEFAULT_TIMEOUT (machine st)) as (r1 & w1 & H1).
  unfold openUrl. rewrite (browser_total _ _ H1).
  rewrite bind_run.
  destruct (runBrowserCommand_total [lit "wait"; lit "--load"; lit "networkidle"] 30000
              (machine (withMachine w1 st))) as (r2 & w2 & H2).
  unfold waitForNetworkIdle. rewrite (browser_total _ _ H2).
  rewrite bind_run.
  destruct (@runSteps_run testCase (buildSystemPrompt SYSTEM_PROMPT testCase)
              (steps testCase) pass [] (withMachine w2 (withMachine w1 st))
              eq_refl eq_refl)
    as (new & st' & -> & Hsteps & Hskip & Hlast & Hall & Hprov & Hn & Hlo & Hhi).
  simpl app. eexists _, st'. split; [reflexivity|].
  simpl tr_steps. simpl tr_status. simpl in Hlo, Hhi. repeat split; assumption.
Qed.

(** A source that, asked first, returns an action that is final and holds
    strings only. *)
Lemma attemptStep_first_verdict (prompt : jsstring) (step : TestStep) (st : St W A)
    (act : AgentActionOf jsval) :
  (forall req, fst (decideAction req (adapter st)) = Return act) ->
  done act = true -> forallb isString (commands act) = true ->
  exists st',
    attemptStep execFile coerced prompt step st
    = (Return (if is_pass (if Types.success act then pass else fail)
                  && isEmptyText (actual_result act)
               then (fail, JStr timedOut)
               else (if Types.success act then pass else fail, actual_result act)),
       st')
    /\ map iteration (asked (events st')) = map iteration (asked (events st)) ++ [1].
Proof.
  intros Hans Hdone Hstr. unfold attemptStep. rewrite bind_run.
  destruct (capture_total st) as (obs & w1 & ->).
  rewrite bind_run.
  pose proof (iterate_turn prompt step 9 0 obs (withMachine w1 st)) as Ht.
  cbv zeta in Ht. change (adapter (withMachine w1 st)) with (adapter st) in Ht.
  specialize (Hans (buildRequest prompt step obs
                      (strings (allCommands (withMachine w1 st))) 0)).
  destruct (decideAction _ (adapter st)) as [[act'|e'] a']; simpl in Hans;
    [|discriminate Hans].
  injection Hans as ->. destruct Ht as (ps & Hp1 & Hp2 & Ht).
  rewrite Hstr in Ht. destruct Ht as (w2 & Ht). cbv zeta in Ht. rewrite Hdone in Ht.
  unfold MAX_ITERATIONS. rewrite Ht.
  eexists. split.
  - destruct (is_pass _ && isEmptyText _); reflexivity.
  - simpl events. rewrite asked_app. simpl. rewrite Hp1, map_app. reflexivity.
Qed.

End RunnerFacts.




(** C6, at the response [{done: true, success: true, actual_result: ""}]
    given to the first request of a step: the result has the status fail and
    the time-out text, though the source was asked once and declared the
    step passed. *)
Theorem empty_result_pass_is_reported_as_timeout :
  let out :=
    Runner.runStep (Adapter := Scenario.scripted) Scenario.healthy Scenario.engine
      Scenario.isoNow Scenario.path_join (lit "shots") Scenario.twoSteps (lit "prompt")
      (mkStep 1 (lit "Enter the user name") (lit "The field holds the name"))
      (Scenario.start 0 [Return (Scenario.verdict true [])]) in
  exists r,
    fst out = Return r
    /\ sr_status r = fail
    /\ sr_actual r
       = JStr (lit "Step timed out after 10 iterations without reaching a conclusion.")
    /\ map iteration (Runner.asked (Runner.events (snd out))) = [1].
Proof. cbv zeta. eexists. vm_compute. repeat split. Qed.

(** The near side of C6: a first response with [done] and [success] set, a
    result that is not the empty string and commands that are strings gives
    the status pass, that result, and one request, numbered 1. *)
Lemma nonempty_result_pass_is_reported (W A : Type) (Adapter : LLMAdapter A)
    (execFile : list jsstring -> Z -> W -> Browser.ExecOutcome * W)
    (coerced : jsval -> Res (list jsstring))
    (isoNow : W -> jsstring) (path_join : jsstring -> jsstring -> jsstring)
    (SCREENSHOTS_DIR : jsstring) (testCase : TestCase) (prompt : jsstring)
    (step : TestStep) (st : Runner.St W A) (act : AgentActionOf jsval) :
  (forall req, fst (decideAction req (Runner.adapter st)) = Return act) ->
  done act = true -> Types.success act = true ->
  forallb isString (commands act) = true -> actual_result act <> JStr [] ->
  let out :=
    Runner.runStep execFile coerced isoNow path_join SCREENSHOTS_DIR testCase prompt
      step st in
  exists r,
    fst out = Return r
    /\ sr_status r = pass
    /\ sr_actual r = actual_result act
    /\ map iteration (Runner.asked (Runner.events (snd out)))
       = map iteration (Runner.asked (Runner.events st)) ++ [1].
Proof.
  intros Hans Hdone Hok Hstr Hne. cbv zeta.
  destruct (@attemptStep_first_verdict W A Adapter execFile coerced prompt step
              (Runner.withCommands [] st) act Hans Hdone Hstr) as (st1 & Hrun & Hev).
  destruct (@runStep_run W A Adapter execFile coerced isoNow path_join SCREENSHOTS_DIR
              testCase prompt step st st1 _ Hrun) as (w' & ->).
  rewrite Hok in *. simpl Runner.is_pass.
  assert (He : Runner.isEmptyText (actual_result act) = false).
  { destruct (actual_result act) as [|b|x|[|c s]|l|f]; try reflexivity.
    now elim Hne. }
  rewrite He. eexists. split; [reflexivity|]. repeat split. exact Hev.
Qed.

(** Against C2 as stated. On a machine where every CLI call is rejected,
    the snapshot command yields the empty text and no exception; a two-step
    case whose decision source declares each step passed gets two steps
    with the status pass, on empty snapshots, and the aggregate status
    pass. *)
Lemma rejected_capture_is_not_an_error :
  let out :=
    Runner.runTestCase (Adapter := Scenario.scripted) Scenario.broken Scenario.engine
      Scenario.isoNow Scenario.path_join (lit "prompt") (lit "shots") Scenario.twoSteps
      (Scenario.start 0
         [Return (Scenario.verdict true (lit "The field holds the name"));
          Return (Scenario.verdict true (lit "The secure page opens"))]) in
  Scenario.broken [lit "snapshot"; lit "-i"; lit "-c"] Browser.DEFAULT_TIMEOUT 0
  = (Browser.Rejected (Some []) (Some (lit "Browser not launched"))
       (lit "Command failed: agent-browser"), 1)
  /\ Browser.getSnapshot Scenario.broken 0 = (Return [], 1)
  /\ exists report,
       fst out = Return report
       /\ tr_status report = pass
       /\ map sr_status (tr_steps report) = [pass; pass]
       /\ map browserState (Runner.asked (Runner.events (snd out))) = [[]; []].
Proof.
  cbv zeta. split; [reflexivity|]. split; [reflexivity|].
  eexists. vm_compute. repeat split.
Qed.

(** C2, amended. A snapshot, URL or title command that fails raises
    nothing: [runBrowserCommand] returns a result for every call, with the
    trimmed output of the failed process (empty when it has none) and the
    success flag off, so an observation is always obtained and the loop goes
    on to the decision source. When a call of the decision source throws,
    which leaves a request of the step without an action, the step is in
    error and its text is "Error: " followed by the message of the
    exception. A step in error has such a text, is the last step that is
    run, and makes the aggregate status error. *)
Theorem step_error_comes_from_decision_source (W A : Type) (Adapter : LLMAdapter A)
    (execFile : list jsstring -> Z -> W -> Browser.ExecOutcome * W)
    (coerced : jsval -> Res (list jsstring))
    (isoNow : W -> jsstring) (path_join : jsstring -> jsstring -> jsstring)
    (SYSTEM_PROMPT SCREENSHOTS_DIR : jsstring) (testCase : TestCase)
    (st : Runner.St W A) :
  (forall args timeoutMs w out err msg w',
      execFile args timeoutMs w = (Browser.Rejected out err msg, w') ->
      Browser.runBrowserCommand execFile args timeoutMs w
      = (Return (Browser.mkResult
                   (match out with Some o => trim o | None => [] end)
                   (match err with Some e => trim e | None => msg end)
                   false), w'))
  /\ (forall s : Runner.St W A,
         exists obs w', Runner.capture execFile s = (Return obs, Runner.withMachine w' s))
  /\ (forall prompt step,
         let out :=
           Runner.runStep execFile coerced isoNow path_join SCREENSHOTS_DIR testCase
             prompt step st in
         exists ext,
           Runner.events (snd out) = Runner.events st ++ ext
           /\ (S (List.length (Runner.answered ext)) = List.length (Runner.asked ext) ->
               exists r e reqs req a,
                 fst out = Return r
                 /\ Runner.asked ext = reqs ++ [req]
                 /\ decideAction req a = (Throw e, Runner.adapter (snd out))
                 /\ sr_status r = error
                 /\ sr_actual r = JStr (lit "Error: " ++ message e)))
  /\ (exists report st',
         Runner.runTestCase execFile coerced isoNow path_join SYSTEM_PROMPT
           SCREENSHOTS_DIR testCase st = (Return report, st')
         /\ forall i r,
              nth_error (tr_steps report) i = Some r -> sr_status r = error ->
              (exists e, sr_actual r = JStr (lit "Error: " ++ message e))
              /\ S i = List.length (tr_steps report)
              /\ tr_status report = error).
Proof.
  split.
  { intros args timeoutMs w out err msg w' H.
    unfold Browser.runBrowserCommand. now rewrite H. }
  split; [intros s; apply capture_total|].
  split.
  - intros prompt step. cbv zeta.
    destruct (runStep_trace execFile coerced isoNow path_join SCREENSHOTS_DIR
                testCase prompt step st)
      as (r & st' & ext & w0 & Hrun & Hev & _ & _ & _ & _ & Hout).
    rewrite Hrun. simpl fst. simpl snd. exists ext. split; [exact Hev|].
    intros Hlen.
    destruct Hout as [(Hl & _)
                     |[(Hl & _)
                      |[(reqs & req & a & e & H1 & H2 & _ & H4 & H5 & H6)
                       |(Hl & _)]]]; try lia.
    exists r, e, reqs, req, a. repeat split; assumption.
  - destruct (runTestCase_run execFile coerced isoNow path_join SYSTEM_PROMPT
                SCREENSHOTS_DIR testCase st)
      as (report & st' & Hrun & Hagg & _ & _ & Hlast & _ & Hprov & _).
    exists report, st'. split; [exact Hrun|].
    intros i r Hnth Herr. split; [|split].
    + apply (Hprov r); [now apply nth_error_In with i|exact Herr].
    + exact (Hlast i r Hnth Herr).
    + rewrite Hagg. unfold Runner.aggregate.
      assert (Hex : existsb Runner.is_error (map sr_status (tr_steps report)) = true).
      { apply existsb_exists. exists (sr_status r). split.
        - apply in_map. now apply nth_error_In with i.
        - now rewrite Herr. }
      now rewrite Hex.
Qed.

(** A decision source that throws "Rate limited (429)" when first asked. *)
Lemma step_error_comes_from_decision_source_witness :
  exists r,
    fst (Runner.runStep (Adapter := Scenario.scripted) Scenario.healthy Scenario.engine
           Scenario.isoNow Scenario.path_join (lit "shots") Scenario.twoSteps
           (lit "prompt")
           (mkStep 1 (lit "Enter the user name") (lit "The field holds the name"))
           (Scenario.start 0 [Throw rateLimited])) = Return r
    /\ sr_status r = error
    /\ sr_actual r = JStr (lit "Error: " ++ lit "Rate limited (429)").
Proof.
  destruct (step_error_comes_from_decision_source Scenario.scripted Scenario.healthy
              Scenario.engine Scenario.isoNow Scenario.path_join (lit "prompt")
              (lit "shots") Scenario.twoSteps (Scenario.start 0 [Throw rateLimited]))
    as (_ & _ & H & _).
  destruct (H (lit "prompt")
              (mkStep 1 (lit "Enter the user name") (lit "The field holds the name")))
    as (ext & Hev & Hthrow).
  simpl app in Hev.
  assert (Hlen : S (List.length (Runner.answered ext)) = List.length (Runner.asked ext))
    by (rewrite <- Hev; vm_compute; reflexivity).
  destruct (Hthrow Hlen) as (r & e & reqs & req & a & Hr & _ & _ & Hs & _).
  exists r. split; [exact Hr|]. split; [exact Hs|].
  vm_compute in Hr. injection Hr as <-. reflexivity.
Defined.

(** C5. A test case always yields a report. Its status is error when a
    step result is in error, else fail when one failed, else pass. The
    results are those of a prefix of the steps, in order, none skipped; a
    result in error is the last one, so nothing runs after it; and when no
    result is in error every step has its result, whether or not an earlier
    one failed. *)
Theorem case_status_precedence (W A : Type) (Adapter : LLMAdapter A)
    (execFile : list jsstring -> Z -> W -> Browser.ExecOutcome * W)
    (coerced : jsval -> Res (list jsstring))
    (isoNow : W -> jsstring) (path_join : jsstring -> jsstring -> jsstring)
    (SYSTEM_PROMPT SCREENSHOTS_DIR : jsstring) (testCase : TestCase)
    (st : Runner.St W A) :
  exists report st',
    Runner.runTestCase execFile coerced isoNow path_join SYSTEM_PROMPT SCREENSHOTS_DIR
      testCase st = (Return report, st')
    /\ tr_status report
       = (if existsb Runner.is_error (map sr_status (tr_steps report)) then error
          else if existsb Runner.is_fail (map sr_status (tr_steps report)) then fail
          else pass)
    /\ map sr_step (tr_steps report)
       = map Types.step (firstn (List.length (tr_steps report)) (steps testCase))
    /\ (forall r, In r (tr_steps report) ->
                  sr_status r = pass \/ sr_status r = fail \/ sr_status r = error)
    /\ (forall i r, nth_error (tr_steps report) i = Some r -> sr_status r = error ->
                    S i = List.length (tr_steps report))
    /\ (existsb Runner.is_error (map sr_status (tr_steps report)) = false ->
        List.length (tr_steps report) = List.length (steps testCase)).
Proof.
  destruct (runTestCase_run execFile coerced isoNow path_join SYSTEM_PROMPT
              SCREENSHOTS_DIR testCase st)
    as (report & st' & Hrun & Hagg & Hsteps & Hskip & Hlast & Hall & _).
  exists report, st'. repeat split; try assumption.
  intros r Hin. specialize (Hskip r Hin).
  destruct (sr_status r); auto. contradiction.
Qed.

(** A first step that fails by verdict, a second one that passes: both run,
    and the case fails. *)
Lemma case_status_precedence_witness :
  exists report st',
    Runner.runTestCase (Adapter := Scenario.scripted) Scenario.healthy Scenario.engine
      Scenario.isoNow Scenario.path_join (lit "prompt") (lit "shots") Scenario.twoSteps
      (Scenario.start 0
         [Return (Scenario.verdict false (lit "The field is empty"));
          Return (Scenario.verdict true (lit "The secure page opens"))])
    = (Return report, st')
    /\ tr_status report = fail
    /\ map sr_status (tr_steps report) = [fail; pass].
Proof.
  destruct (case_status_precedence Scenario.scripted Scenario.healthy Scenario.engine
              Scenario.isoNow Scenario.path_join (lit "prompt") (lit "shots")
              Scenario.twoSteps
              (Scenario.start 0
                 [Return (Scenario.verdict false (lit "The field is empty"));
                  Return (Scenario.verdict true (lit "The secure page opens"))]))
    as (report & st' & Hrun & _).
  exists report, st'. split; [exact Hrun|].
  vm_compute in Hrun. injection Hrun as <- _. split; reflexivity.
Defined.

(** C4. When [JSON.parse] rejects the response, once trimmed and stripped
    of its code fence, [parseAgentResponse], a total function, returns the
    action with no command, [done] and [success] off, an empty result text
    and, as its thought, "Parse error — raw response: " followed by the
    first 200 code units of the raw text, which are the whole text when it
    has no more than 200; this action inhabits the declared interface, and
    logging it does not throw. A turn of the step loop that receives it
    dispatches nothing, takes a fresh observation and goes on to the next
    turn, with the executed commands unchanged. *)
Theorem unparsable_response_is_safe (JSON_parse : jsstring -> option jsval)
    (raw : jsstring) :
  JSON_parse (cleanResponse raw) = None ->
  let excerpt :=
    lit "Parse error " ++ [emdash] ++ lit " raw response: " ++ firstn 200 raw in
  let action := parseAgentResponse JSON_parse raw in
  action = mkAction (JStr excerpt) [] false false (JStr [])
  /\ asTyped action = Some (mkAction excerpt [] false false [])
  /\ slice0 200 raw = firstn 200 raw
  /\ List.length (firstn 200 raw) = Nat.min 200 (List.length raw)
  /\ (exists rest, raw = firstn 200 raw ++ rest)
  /\ logAction action = Return tt
  /\ forall (W A : Type) (Adapter : LLMAdapter A)
       (execFile : list jsstring -> Z -> W -> Browser.ExecOutcome * W)
       (coerced : jsval -> Res (list jsstring))
       (prompt : jsstring) (step : TestStep) (n iter : nat)
       (obs : Runner.Observation) (st : Runner.St W A) (a' : A),
       let req :=
         Runner.buildRequest prompt step obs (Runner.strings (Runner.allCommands st))
           iter in
       decideAction req (Runner.adapter st) = (Return action, a') ->
       exists obs' w',
         Runner.iterate execFile coerced prompt step (S n) iter obs st
         = Runner.iterate execFile coerced prompt step n (iter + 1) obs'
             (Runner.mkSt w' a' (Runner.allCommands st)
                (Runner.events st ++ [Runner.Asked req; Runner.Answered action])).
Proof.
  intros Hparse excerpt action.
  assert (Hp : action = mkAction (JStr excerpt) [] false false (JStr [])).
  { unfold action, parseAgentResponse. now rewrite Hparse. }
  split; [exact Hp|]. split; [now rewrite Hp|].
  split; [reflexivity|].
  split; [apply length_firstn|].
  split; [exists (skipn 200 raw); now rewrite firstn_skipn|].
  split; [now rewrite Hp|].
  intros W A Adapter execFile coerced prompt step n iter obs st a' req Hd.
  rewrite iterate_unfold. cbv zeta. fold req. rewrite Hd. rewrite Hp. simpl.
  match goal with |- context [Runner.capture execFile ?s] =>
    destruct (capture_total execFile s) as (obs' & w' & ->) end.
  exists obs', w'. unfold Runner.withMachine, Runner.logged, Runner.withAdapter.
  simpl. now rewrite <- app_assoc.
Qed.

Lemma unparsable_response_is_safe_witness :
  parseAgentResponse Scenario.noJSON (lit "I cannot do that.")
  = mkAction
      (JStr (lit "Parse error " ++ [emdash] ++ lit " raw response: "
             ++ firstn 200 (lit "I cannot do that.")))
      [] false false (JStr []).
Proof.
  apply (unparsable_response_is_safe Scenario.noJSON (lit "I cannot do that.")).
  reflexivity.
Defined.

(** ** Runs on concrete collaborators *)

(** Three 429 with a retry-after of 2 and then a success: three pauses of
    two seconds, four requests, and the payload of the success. *)
Example three_rate_limits_then_success :
  let out :=
    Anthropic.callApi
      (Scenario.throttled 3 (Scenario.anthropicPayload (lit "{}")))
      Scenario.noText (lit "system") [] (Scenario.fresh 0) in
  fst out = Return (JStr (lit "{}"))
  /\ pauses (journal (snd out)) = [2000; 2000; 2000]%Z
  /\ fetches (journal (snd out)) = 4.
Proof. vm_compute. repeat split. Qed.

(** Nothing but 429 without a hint: four requests, pauses of 10, 20, 30 and
    30 seconds, and the rate-limit error. *)
Example rate_limited_throughout :
  let out :=
    GitHubModels.callApi (Scenario.answering 429) Scenario.noText []
      (Scenario.fresh 0) in
  fst out = Throw rateLimited
  /\ pauses (journal (snd out)) = [10000; 20000; 30000; 30000]%Z
  /\ fetches (journal (snd out)) = 4.
Proof. vm_compute. repeat split. Qed.

(** A 529 is retried by the Anthropic adapter and fatal for GitHub Models. *)
Example overload_by_provider :
  fst (Anthropic.callApi (Scenario.answering 529) Scenario.noText (lit "system") []
         (Scenario.fresh 0)) = Throw overloaded
  /\ fst (GitHubModels.callApi (Scenario.answering 529) Scenario.noText []
            (Scenario.fresh 0))
     = Throw (mkError (lit "GitHub Models API error 529: no")).
Proof. vm_compute. split; reflexivity. Qed.

(** A fenced empty object parses to the default action, and [null], which
    parses but has no property to read, falls back like a syntax error. *)
Example fenced_and_null_responses :
  parseAgentResponse Scenario.noJSON
    (lit "  " ++ fence ++ lit "json" ++ nl ++ lit "{}" ++ nl ++ fence ++ nl)
  = mkAction (JStr []) [] false false (JStr [])
  /\ parseAgentResponse Scenario.noJSON (lit "null") = parseFailure (lit "null").
Proof. vm_compute. split; reflexivity. Qed.

(** [parseInt] on retry-after values. *)
Example retry_after_values :
  rateLimitWait (Some (lit "7")) 0 = 7%Z
  /\ rateLimitWait (Some (lit " 60 seconds")) 2 = 60%Z
  /\ rateLimitWait (Some (lit "61")) 0 = 10%Z
  /\ rateLimitWait (Some (lit "0")) 1 = 20%Z
  /\ rateLimitWait (Some (lit "soon")) 2 = 30%Z
  /\ rateLimitWait (Some []) 3 = 30%Z
  /\ rateLimitWait None 0 = 10%Z.
Proof. vm_compute. repeat split. Qed.

(** * Further properties of the code *)

(** ** The command parser, beyond the documented inputs *)

Section ParserMore.

Lemma scan_blank (pad : jsstring) :
  Shape.blank pad = true -> scan pad init = init.
Proof.
  induction pad as [|c pad IH]; intros Hb; [reflexivity|].
  simpl in Hb. apply andb_prop in Hb as [Hc Hb].
  rewrite scan_cons.
  assert (Hq : is_quote c = false).
  { unfold is_quote, dquote, squote.
    destruct (N.eqb_spec c 34) as [->|_]; [discriminate Hc|].
    destruct (N.eqb_spec c 39) as [->|_]; [discriminate Hc|]. reflexivity. }
  unfold Parser.step; simpl. rewrite Hq, Hc. apply (IH Hb).
Qed.

Lemma concat_snoc {X} (l : list (list X)) (x : list X) :
  concat (l ++ [x]) = concat l ++ x.
Proof. rewrite concat_app. simpl. now rewrite app_nil_r. Qed.

Lemma concat_finish (st : pstate) : concat (finish st) = concat (args st) ++ current st.
Proof.
  unfold finish. destruct (current st) eqn:E.
  - now rewrite app_nil_r.
  - apply concat_snoc.
Qed.

Lemma scan_unquoted_characters (cmd : jsstring) :
  forallb (fun c => negb (is_quote c)) cmd = true ->
  forall st,
    inQuote st = None ->
    concat (finish (scan cmd st))
    = concat (args st) ++ current st ++ filter (fun c => negb (is_space c)) cmd.
Proof.
  induction cmd as [|c cmd IH]; intros Hq st Hi.
  - simpl. rewrite app_nil_r. apply concat_finish.
  - simpl in Hq. apply andb_prop in Hq as [Hc Hq]. apply negb_true_iff in Hc.
    rewrite scan_cons. simpl filter.
    unfold Parser.step. rewrite Hi, Hc.
    destruct (is_space c) eqn:Hs; simpl negb; cbv iota.
    + destruct (current st) as [|x t] eqn:E.
      * rewrite (IH Hq st Hi), E. reflexivity.
      * rewrite (IH Hq) by reflexivity. simpl args. simpl current.
        transitivity ((concat (args st) ++ (x :: t))
                      ++ filter (fun c0 => negb (is_space c0)) cmd);
          [f_equal; apply concat_snoc | now rewrite <- app_assoc].
    + rewrite (IH Hq) by reflexivity. simpl args. simpl current.
      now rewrite <- app_assoc.
Qed.

End ParserMore.

(** X1. No token of the parser is the empty string, however the command is
    quoted: an argument that is empty cannot be passed on. *)
Theorem parseCommand_never_empty_token (cmd t : jsstring) :
  In t (parseCommand cmd) -> t <> [].
Proof.
  intros Hin Ht. subst t.
  pose proof (parseCommand_nonempty cmd) as H.
  rewrite forallb_forall in H. specialize (H [] Hin). discriminate H.
Qed.

Lemma parseCommand_never_empty_token_witness :
  lit "fill" <> [] /\ lit "@e2" <> [].
Proof.
  split; apply (parseCommand_never_empty_token (lit "fill @e2 " ++ [dquote; dquote]));
    vm_compute; auto.
Defined.

(** X2. White space outside quotes separates commands as it separates
    tokens: when the quotes of [a] are balanced, the tokens of [a], a white
    space character and [b] are the tokens of [a] followed by those of [b]. *)
Theorem parseCommand_whitespace_composes (a b : jsstring) (c : N) :
  balanced a -> is_space c = true ->
  parseCommand (a ++ c :: b) = parseCommand a ++ parseCommand b.
Proof.
  intros Hb Hc. unfold parseCommand. rewrite scan_app, scan_cons.
  destruct (scan a init) as [A C iq] eqn:E.
  unfold balanced in Hb. rewrite E in Hb. simpl in Hb. subst iq.
  assert (Hq : is_quote c = false).
  { unfold is_quote, dquote, squote.
    destruct (N.eqb_spec c 34) as [->|_]; [discriminate Hc|].
    destruct (N.eqb_spec c 39) as [->|_]; [discriminate Hc|]. reflexivity. }
  assert (Hstep : Parser.step (mkP A C None) c = mkP (finish (mkP A C None) ++ []) [] None).
  { unfold Parser.step, finish; simpl. rewrite Hq, Hc, app_nil_r.
    now destruct C. }
  rewrite Hstep, scan_under_prefix.
  apply (finish_under_prefix _ _ _ _ (inQuote (scan b init))).
Qed.

Lemma parseCommand_whitespace_composes_witness :
  parseCommand (lit "fill @e2 'a b'" ++ 9%N :: lit "click @e3")
  = parseCommand (lit "fill @e2 'a b'") ++ parseCommand (lit "click @e3").
Proof. apply parseCommand_whitespace_composes; reflexivity. Defined.

(** X3. In a command written without quote characters the parser drops
    white space and nothing else: the tokens, put end to end, are the
    command without its white space. *)
Theorem parseCommand_unquoted_keeps_characters (cmd : jsstring) :
  forallb (fun c => negb (is_quote c)) cmd = true ->
  concat (parseCommand cmd) = filter (fun c => negb (is_space c)) cmd.
Proof.
  intros Hq. unfold parseCommand.
  now rewrite (scan_unquoted_characters cmd Hq init eq_refl).
Qed.

Lemma parseCommand_unquoted_keeps_characters_witness :
  concat (parseCommand (lit " scroll  down 300 ")) = lit "scrolldown300".
Proof.
  rewrite parseCommand_unquoted_keeps_characters; reflexivity.
Defined.

(** X4. The pause after a click, fill, select or press is decided on the
    raw command string, the browser receives the parsed tokens: a command
    that starts with white space is parsed to the same tokens as without it,
    and is never followed by the pause. *)
Theorem padded_command_runs_without_settle (pad cmd : jsstring) :
  pad <> [] -> Shape.blank pad = true ->
  parseCommand (pad ++ cmd) = parseCommand cmd
  /\ Runner.mutating (pad ++ cmd) = false.
Proof.
  intros Hne Hb. split.
  - unfold parseCommand. now rewrite scan_app, (scan_blank pad Hb).
  - destruct pad as [|c pad]; [contradiction|].
    simpl in Hb. apply andb_prop in Hb as [Hc _].
    change ((c :: pad) ++ cmd) with (c :: pad ++ cmd).
    assert (H : forall x rest, is_space x = false ->
                startsWith (c :: pad ++ cmd) (x :: rest) = false).
    { intros x rest Hx. simpl. destruct (N.eqb_spec x c) as [->|_]; [congruence|].
      reflexivity. }
    assert (H1 : startsWith (c :: pad ++ cmd) (lit "click") = false)
      by (apply (H 99%N (lit "lick")); reflexivity).
    assert (H2 : startsWith (c :: pad ++ cmd) (lit "fill") = false)
      by (apply (H 102%N (lit "ill")); reflexivity).
    assert (H3 : startsWith (c :: pad ++ cmd) (lit "select") = false)
      by (apply (H 115%N (lit "elect")); reflexivity).
    assert (H4 : startsWith (c :: pad ++ cmd) (lit "press") = false)
      by (apply (H 112%N (lit "ress")); reflexivity).
    unfold Runner.mutating. cbn [existsb]. now rewrite H1, H2, H3, H4.
Qed.

Lemma padded_command_runs_without_settle_witness :
  parseCommand (lit " click @e1") = parseCommand (lit "click @e1")
  /\ Runner.mutating (lit " click @e1") = false
  /\ Runner.mutating (lit "click @e1") = true.
Proof.
  destruct (@padded_command_runs_without_settle (lit " ") (lit "click @e1"))
    as [H1 H2]; [discriminate|reflexivity|].
  split; [exact H1|]. split; [exact H2|reflexivity].
Defined.

(** ** The step loop and the driver, beyond the claims *)

Section RunnerMore.

Import Browser Runner.

Variables W A : Type.
Context {Adapter : LLMAdapter A}.
Variable execFile : list jsstring -> Z -> W -> ExecOutcome * W.
Variable coerced : jsval -> Res (list jsstring).





End RunnerMore.


(** X6. The requests of a step and the actions that answer them. A step
    always puts a first request, which is numbered 1 and lists no previous
    command, whatever the step before left; each later request is numbered
    one more and lists the commands of the request before it followed by
    the commands of the action that answered that request, the refresh
    sentinel left out; a request follows an action only if the action is
    not final and holds strings only; all requests carry the prompt, the
    action and the expected result of the step and the ceiling 10; and
    there are at most ten. *)
Theorem step_requests_are_chained (W A : Type) (Adapter : LLMAdapter A)
    (execFile : list jsstring -> Z -> W -> Browser.ExecOutcome * W)
    (coerced : jsval -> Res (list jsstring))
    (isoNow : W -> jsstring) (path_join : jsstring -> jsstring -> jsstring)
    (SCREENSHOTS_DIR : jsstring) (testCase : TestCase) (prompt : jsstring)
    (step : TestStep) (st : Runner.St W A) :
  exists ext first later,
    Runner.events
      (snd (Runner.runStep execFile coerced isoNow path_join SCREENSHOTS_DIR testCase
              prompt step st))
    = Runner.events st ++ ext
    /\ Runner.asked ext = first :: later
    /\ previousActions first = []
    /\ iteration first = 1
    /\ Shape.chained prompt step [] 1 (Runner.asked ext) (Runner.answered ext)
    /\ List.length (Runner.answered ext) <= List.length (Runner.asked ext) <= 10.
Proof.
  destruct (runStep_trace execFile coerced isoNow path_join SCREENSHOTS_DIR
              testCase prompt step st)
    as (r & st' & ext & w0 & -> & Hev & Hch & Hlen & _).
  pose proof (chained_answers _ _ _ _ _ _ Hch) as Hans.
  destruct (Runner.asked ext) as [|first later] eqn:Hreqs; [simpl in Hlen; lia|].
  exists ext, first, later. rewrite Hreqs.
  split; [exact Hev|]. split; [reflexivity|].
  split; [apply Hch|]. split; [apply Hch|]. split; [exact Hch|].
  unfold Runner.MAX_ITERATIONS in Hlen. lia.
Qed.

(** X7. The result of a step always names a screenshot file, built from the
    test id, the step number and the time stamp with its colons and dots
    replaced by dashes, whether or not the screenshot command succeeded: the
    runner's fallback for a failed screenshot is never taken. The step
    number is printed in full, as the engine prints a safe integer. *)
Theorem step_result_always_names_a_screenshot (W A : Type) (Adapter : LLMAdapter A)
    (execFile : list jsstring -> Z -> W -> Browser.ExecOutcome * W)
    (coerced : jsval -> Res (list jsstring))
    (isoNow : W -> jsstring) (path_join : jsstring -> jsstring -> jsstring)
    (SCREENSHOTS_DIR : jsstring) (testCase : TestCase) (prompt : jsstring)
    (step : TestStep) (st : Runner.St W A) :
  Shape.safeInteger (Types.step step) ->
  exists r st' w,
    Runner.runStep execFile coerced isoNow path_join SCREENSHOTS_DIR testCase prompt
      step st
    = (Return r, st')
    /\ sr_screenshot r
       = Some (path_join SCREENSHOTS_DIR
                 (id testCase ++ lit "_step" ++ of_Z (Types.step step) ++ lit "_"
                  ++ Browser.dashed (isoNow w) ++ lit ".png")).
Proof.
  intros _.
  destruct (runStep_trace execFile coerced isoNow path_join SCREENSHOTS_DIR
              testCase prompt step st)
    as (r & st' & ext & w0 & Hrun & _ & _ & _ & _ & Hshot & _).
  exists r, st', w0. split; assumption.
Qed.

(** Step 12 of a case, on a machine where every command is rejected. *)
Lemma step_result_always_names_a_screenshot_witness :
  exists r st',
    Runner.runStep (Adapter := Scenario.scripted) Scenario.broken Scenario.engine
      Scenario.isoNow Scenario.path_join (lit "shots") Scenario.twoSteps (lit "prompt")
      (mkStep 12 (lit "Click Login") (lit "The secure page opens"))
      (Scenario.start 0 [Return (Scenario.verdict true (lit "It opened"))])
    = (Return r, st')
    /\ sr_screenshot r = Some (lit "shots/TC001_step12_2026-01-01T00-00-00-000Z.png").
Proof.
  destruct (@step_result_always_names_a_screenshot nat _ Scenario.scripted
              Scenario.broken Scenario.engine Scenario.isoNow Scenario.path_join
              (lit "shots") Scenario.twoSteps (lit "prompt")
              (mkStep 12 (lit "Click Login") (lit "The secure page opens"))
              (Scenario.start 0 [Return (Scenario.verdict true (lit "It opened"))]))
    as (r & st' & w & Hrun & Hshot).
  - unfold Shape.safeInteger. simpl. lia.
  - exists r, st'. split; [exact Hrun|]. rewrite Hshot. reflexivity.
Defined.

(** X8. The cost of a report in requests to the decision source: every
    step that has a result was asked about at least once and at most ten
    times, so the number of requests lies between the number of results and
    ten times that number, and no more results exist than steps. *)
Theorem requests_per_case_are_bounded (W A : Type) (Adapter : LLMAdapter A)
    (execFile : list jsstring -> Z -> W -> Browser.ExecOutcome * W)
    (coerced : jsval -> Res (list jsstring))
    (isoNow : W -> jsstring) (path_join : jsstring -> jsstring -> jsstring)
    (SYSTEM_PROMPT SCREENSHOTS_DIR : jsstring) (testCase : TestCase)
    (st : Runner.St W A) :
  exists report st',
    Runner.runTestCase execFile coerced isoNow path_join SYSTEM_PROMPT SCREENSHOTS_DIR
      testCase st = (Return report, st')
    /\ List.length (tr_steps report) <= List.length (steps testCase)
    /\ List.length (Runner.asked (Runner.events st)) + List.length (tr_steps report)
       <= List.length (Runner.asked (Runner.events st'))
    /\ List.length (Runner.asked (Runner.events st'))
       <= List.length (Runner.asked (Runner.events st))
          + 10 * List.length (tr_steps report).
Proof.
  destruct (runTestCase_run execFile coerced isoNow path_join SYSTEM_PROMPT
              SCREENSHOTS_DIR testCase st)
    as (report & st' & Hrun & _ & _ & _ & _ & _ & _ & Hn & Hlo & Hhi).
  exists report, st'. repeat split; assumption.
Qed.

(** X9. A report has the status pass exactly when every step of the test
    case has a result and every result has the status pass; a case without
    steps therefore passes. *)
Theorem pass_report_means_every_step_passed (W A : Type) (Adapter : LLMAdapter A)
    (execFile : list jsstring -> Z -> W -> Browser.ExecOutcome * W)
    (coerced : jsval -> Res (list jsstring))
    (isoNow : W -> jsstring) (path_join : jsstring -> jsstring -> jsstring)
    (SYSTEM_PROMPT SCREENSHOTS_DIR : jsstring) (testCase : TestCase)
    (st : Runner.St W A) :
  exists report st',
    Runner.runTestCase execFile coerced isoNow path_join SYSTEM_PROMPT SCREENSHOTS_DIR
      testCase st = (Return report, st')
    /\ (tr_status report = pass
        <-> map sr_status (tr_steps report) = map (fun _ => pass) (steps testCase)).
Proof.
  destruct (runTestCase_run execFile coerced isoNow path_join SYSTEM_PROMPT
              SCREENSHOTS_DIR testCase st)
    as (report & st' & Hrun & Hagg & _ & Hskip & _ & Hall & _).
  exists report, st'. split; [exact Hrun|].
  rewrite Hagg. unfold Runner.aggregate.
  assert (Hiff : forall (l : list StepResult) (k : list TestStep),
             List.length l = List.length k ->
             (forall r, In r l -> sr_status r = pass) ->
             map sr_status l = map (fun _ => pass) k).
  { induction l as [|r l IH]; intros [|x k] Hlen Hp; simpl in *; try discriminate.
    - reflexivity.
    - rewrite (Hp r) by now left. f_equal. apply IH; [congruence|auto]. }
  split.
  - intros Hp.
    destruct (existsb Runner.is_error (map sr_status (tr_steps report))) eqn:He;
      [discriminate|].
    destruct (existsb Runner.is_fail (map sr_status (tr_steps report))) eqn:Hf;
      [discriminate|].
    apply Hiff; [exact (Hall eq_refl)|].
    intros r Hin. specialize (Hskip r Hin).
    assert (H1 : Runner.is_error (sr_status r) = false).
    { destruct (Runner.is_error (sr_status r)) eqn:E; [|reflexivity].
      rewrite <- He. symmetry. apply existsb_exists. exists (sr_status r).
      split; [now apply in_map|exact E]. }
    assert (H2 : Runner.is_fail (sr_status r) = false).
    { destruct (Runner.is_fail (sr_status r)) eqn:E; [|reflexivity].
      rewrite <- Hf. symmetry. apply existsb_exists. exists (sr_status r).
      split; [now apply in_map|exact E]. }
    destruct (sr_status r); try discriminate; [reflexivity|contradiction].
  - intros Hmap. rewrite Hmap.
    assert (H : forall k : list TestStep,
               existsb Runner.is_error (map (fun _ => pass) k) = false
               /\ existsb Runner.is_fail (map (fun _ => pass) k) = false).
    { induction k as [|x k [IH1 IH2]]; simpl; auto. }
    destruct (H (steps testCase)) as [-> ->]. reflexivity.
Qed.

(** ** The transport of the providers, beyond the claims *)

Section TransportMore.

Variable T : Type.
Variable fetch : jsstring -> Body -> T -> FetchOutcome * T.
Variable JSON_stringify : jsval -> jsstring.

Lemma rateLimitWait_range (h : option jsstring) (attempt : Z) :
  (0 <= attempt)%Z -> (1 <= rateLimitWait h attempt <= 60)%Z.
Proof.
  intros Ha. unfold rateLimitWait.
  destruct (parsedWait h) as [n|]; [|lia].
  destruct (Z.ltb_spec 0 n); cbn [andb]; [|lia].
  destruct (Z.leb_spec n 60); lia.
Qed.

Lemma overloadWait_range (attempt : Z) :
  (0 <= attempt)%Z -> (15 <= overloadWait attempt <= 45)%Z.
Proof. intros Ha. unfold overloadWait. lia. Qed.

Lemma pauses_app (j k : list Http.Event) : pauses (j ++ k) = pauses j ++ pauses k.
Proof. unfold pauses. apply flat_map_app. Qed.

Lemma requests_app (j k : list Http.Event) :
  Shape.requests (j ++ k) = Shape.requests j ++ Shape.requests k.
Proof. unfold Shape.requests. apply flat_map_app. Qed.

Lemma anthropic_readPayload_truthy (r : Response) (a : Adapter T) (v : jsval) :
  fst (Anthropic.readPayload JSON_stringify r a) = Return v -> truthy v = true.
Proof.
  unfold Anthropic.readPayload, bind, liftRes.
  destruct (json r) as [data|e]; [|discriminate].
  destruct (Anthropic.textBlockOf data) as [tb|e]; [|discriminate].
  destruct (getPropOpt tb (lit "text")) as [t|]; [|discriminate].
  destruct (truthy t) eqn:Ht; [|discriminate].
  simpl. intros H. injection H as <-. exact Ht.
Qed.

Lemma github_readPayload_truthy (r : Response) (a : Adapter T) (v : jsval) :
  fst (GitHubModels.readPayload JSON_stringify r a) = Return v -> truthy v = true.
Proof.
  unfold GitHubModels.readPayload, bind, liftRes.
  destruct (json r) as [data|e]; [|discriminate].
  destruct (GitHubModels.contentOf data) as [c|e]; [|discriminate].
  destruct c as [t|]; [|discriminate].
  destruct (truthy t) eqn:Ht; [|discriminate].
  simpl. intros H. injection H as <-. exact Ht.
Qed.

(** What a run of the loop adds to the journal, and what it may return. *)
Lemma anthropic_attempts_journal (body : Body) (n : nat) :
  forall attempt lastError a,
    (0 <= attempt)%Z ->
    let out := Anthropic.attempts fetch JSON_stringify body n attempt lastError a in
    exists ext k,
      journal (snd out) = journal a ++ ext
      /\ Shape.requests ext = repeat (Anthropic.ANTHROPIC_ENDPOINT, body) k
      /\ k <= n /\ (n <> 0 -> 1 <= k)
      /\ List.length (pauses ext) <= k <= List.length (pauses ext) + 1
      /\ Forall Shape.shortPause (pauses ext)
      /\ (forall v, fst out = Return v -> truthy v = true).
Proof.
  induction n as [|n IH]; intros attempt lastError a Ha; cbv zeta.
  - exists [], 0. simpl. rewrite app_nil_r.
    repeat split; first [lia | now constructor | intros v Hv; discriminate Hv].
  - rewrite anthropic_attempts_step.
    destruct (fetch Anthropic.ANTHROPIC_ENDPOINT body (transport a)) as [[r|e] t'].
    + destruct (status r =? 429)%Z; [|destruct (status r =? 529)%Z].
      * match goal with |- context [Anthropic.attempts _ _ _ _ ?x ?y ?z] =>
          destruct (IH x y z) as (ext & k & Hj & Hr & Hk & _ & Hp & Hs & Hv); [lia|] end.
        cbv zeta in Hj, Hv.
        eexists (_ :: _ :: ext), (S k). rewrite Hj. unfold after. simpl journal.
        rewrite <- app_assoc. split; [reflexivity|].
        simpl. rewrite Hr. repeat split; try lia; try exact Hv.
        constructor; [|exact Hs].
        pose proof (rateLimitWait_range (retry_after r) Ha).
        unfold Shape.shortPause. lia.
      * match goal with |- context [Anthropic.attempts _ _ _ _ ?x ?y ?z] =>
          destruct (IH x y z) as (ext & k & Hj & Hr & Hk & _ & Hp & Hs & Hv); [lia|] end.
        cbv zeta in Hj, Hv.
        eexists (_ :: _ :: ext), (S k). rewrite Hj. unfold after. simpl journal.
        rewrite <- app_assoc. split; [reflexivity|].
        simpl. rewrite Hr. repeat split; try lia; try exact Hv.
        constructor; [|exact Hs].
        pose proof (overloadWait_range Ha).
        unfold Shape.shortPause. lia.
      * destruct (negb (ok r)).
        -- eexists [_], 1. unfold after, pauses, Shape.requests. simpl.
           repeat split;
             first [lia | now constructor | intros v Hv; discriminate Hv].
        -- eexists [_], 1.
           rewrite anthropic_readPayload_state. unfold after, pauses, Shape.requests. simpl.
           repeat split;
             first [lia | now constructor
                   | intros v; apply anthropic_readPayload_truthy].
    + eexists [_], 1. unfold after, pauses, Shape.requests. simpl.
      repeat split; first [lia | now constructor | intros v Hv; discriminate Hv].
Qed.

Lemma github_attempts_journal (body : Body) (n : nat) :
  forall attempt lastError a,
    (0 <= attempt)%Z ->
    let out := GitHubModels.attempts fetch JSON_stringify body n attempt lastError a in
    exists ext k,
      journal (snd out) = journal a ++ ext
      /\ Shape.requests ext = repeat (GitHubModels.GITHUB_MODELS_ENDPOINT, body) k
      /\ k <= n /\ (n <> 0 -> 1 <= k)
      /\ List.length (pauses ext) <= k <= List.length (pauses ext) + 1
      /\ Forall Shape.shortPause (pauses ext)
      /\ (forall v, fst out = Return v -> truthy v = true).
Proof.
  induction n as [|n IH]; intros attempt lastError a Ha; cbv zeta.
  - exists [], 0. simpl. rewrite app_nil_r.
    repeat split; first [lia | now constructor | intros v Hv; discriminate Hv].
  - rewrite github_attempts_step.
    destruct (fetch GitHubModels.GITHUB_MODELS_ENDPOINT body (transport a))
      as [[r|e] t'].
    + destruct (status r =? 429)%Z.
      * match goal with |- context [GitHubModels.attempts _ _ _ _ ?x ?y ?z] =>
          destruct (IH x y z) as (ext & k & Hj & Hr & Hk & _ & Hp & Hs & Hv); [lia|] end.
        cbv zeta in Hj, Hv.
        eexists (_ :: _ :: ext), (S k). rewrite Hj. unfold after. simpl journal.
        rewrite <- app_assoc. split; [reflexivity|].
        simpl. rewrite Hr. repeat split; try lia; try exact Hv.
        constructor; [|exact Hs].
        pose proof (rateLimitWait_range (retry_after r) Ha).
        unfold Shape.shortPause. lia.
      * destruct (negb (ok r)).
        -- eexists [_], 1. unfold after, pauses, Shape.requests. simpl.
           repeat split;
             first [lia | now constructor | intros v Hv; discriminate Hv].
        -- eexists [_], 1.
           rewrite github_readPayload_state. unfold after, pauses, Shape.requests. simpl.
           repeat split;
             first [lia | now constructor
                   | intros v; apply github_readPayload_truthy].
    + eexists [_], 1. unfold after, pauses, Shape.requests. simpl.
      repeat split; first [lia | now constructor | intros v Hv; discriminate Hv].
Qed.

Lemma waited_bound (ps : list Z) (n : nat) :
  Forall Shape.shortPause ps -> List.length ps <= n ->
  (0 <= fold_right Z.add 0 ps <= 60000 * Z.of_nat n)%Z.
Proof.
  revert n. induction ps as [|p ps IH]; intros n Hf Hl;
    cbn [fold_right List.length] in *; [lia|].
  inversion Hf as [|? ? Hp Hps]; subst. unfold Shape.shortPause in Hp.
  destruct n as [|n]; [lia|]. specialize (IH n Hps ltac:(lia)). lia.
Qed.

End TransportMore.

(** X10. The time one transport call can spend waiting: it pauses at most
    four times, each pause lasts between one second and one minute, so the
    pauses of a call add up to four minutes at most, for either provider and
    whatever the transport answers. *)
Theorem provider_call_waits_at_most_four_minutes (T : Type)
    (fetch : jsstring -> Body -> T -> FetchOutcome * T)
    (JSON_stringify : jsval -> jsstring) (sp : jsstring) (msgs : list Message)
    (a : Adapter T) :
  (exists ext,
      journal (snd (Anthropic.callApi fetch JSON_stringify sp msgs a)) = journal a ++ ext
      /\ List.length (pauses ext) <= 4
      /\ Forall Shape.shortPause (pauses ext)
      /\ (0 <= Shape.waited ext <= 240000)%Z)
  /\ (exists ext,
         journal (snd (GitHubModels.callApi fetch JSON_stringify msgs a))
         = journal a ++ ext
         /\ List.length (pauses ext) <= 4
         /\ Forall Shape.shortPause (pauses ext)
         /\ (0 <= Shape.waited ext <= 240000)%Z).
Proof.
  split.
  - unfold Anthropic.callApi. rewrite bind_run. unfold gets. cbv beta iota.
    destruct (anthropic_attempts_journal fetch JSON_stringify
                (mkBody (model a) (Some sp) msgs (Some 1024%Z) None None)
                (S MAX_RETRIES) (attempt := 0%Z) None a ltac:(lia))
      as (ext & k & Hj & _ & Hk & _ & Hp & Hs & _).
    exists ext. unfold MAX_RETRIES in Hk. repeat split; try assumption; try lia;
      apply (waited_bound Hs (n := 4)); lia.
  - unfold GitHubModels.callApi. rewrite bind_run. unfold gets. cbv beta iota.
    match goal with |- context [GitHubModels.attempts _ _ ?b _ _ _ _] =>
      destruct (github_attempts_journal fetch JSON_stringify b
                  (S MAX_RETRIES) (attempt := 0%Z) None a ltac:(lia))
        as (ext & k & Hj & _ & Hk & _ & Hp & Hs & _) end.
    exists ext. unfold MAX_RETRIES in Hk. repeat split; try assumption; try lia;
      apply (waited_bound Hs (n := 4)); lia.
Qed.

(** X11. A transport call sends between one and four requests, all to the
    provider's endpoint and all with the same body, which carries the
    adapter's model and the messages of the call; and every request but
    possibly the last is followed by a pause. *)
Theorem provider_retries_resend_the_same_request (T : Type)
    (fetch : jsstring -> Body -> T -> FetchOutcome * T)
    (JSON_stringify : jsval -> jsstring) (sp : jsstring) (msgs : list Message)
    (a : Adapter T) :
  (exists ext k,
      journal (snd (Anthropic.callApi fetch JSON_stringify sp msgs a)) = journal a ++ ext
      /\ Shape.requests ext
         = repeat (Anthropic.ANTHROPIC_ENDPOINT,
                   mkBody (model a) (Some sp) msgs (Some 1024%Z) None None) k
      /\ 1 <= k <= 4
      /\ List.length (pauses ext) <= k <= List.length (pauses ext) + 1)
  /\ (exists ext k body,
         journal (snd (GitHubModels.callApi fetch JSON_stringify msgs a))
         = journal a ++ ext
         /\ Shape.requests ext = repeat (GitHubModels.GITHUB_MODELS_ENDPOINT, body) k
         /\ b_model body = model a /\ b_messages body = msgs /\ b_system body = None
         /\ 1 <= k <= 4
         /\ List.length (pauses ext) <= k <= List.length (pauses ext) + 1).
Proof.
  split.
  - unfold Anthropic.callApi. rewrite bind_run. unfold gets. cbv beta iota.
    destruct (anthropic_attempts_journal fetch JSON_stringify
                (mkBody (model a) (Some sp) msgs (Some 1024%Z) None None)
                (S MAX_RETRIES) (attempt := 0%Z) None a ltac:(lia))
      as (ext & k & Hj & Hr & Hk & Hk1 & Hp & _).
    exists ext, k. unfold MAX_RETRIES in Hk.
    specialize (Hk1 ltac:(discriminate)). repeat split; try assumption; lia.
  - unfold GitHubModels.callApi. rewrite bind_run. unfold gets. cbv beta iota.
    match goal with |- context [GitHubModels.attempts _ _ ?b _ _ _ _] =>
      destruct (github_attempts_journal fetch JSON_stringify b
                  (S MAX_RETRIES) (attempt := 0%Z) None a ltac:(lia))
        as (ext & k & Hj & Hr & Hk & Hk1 & Hp & _); exists ext, k, b end.
    unfold MAX_RETRIES in Hk. specialize (Hk1 ltac:(discriminate)).
    repeat split; try assumption; try lia;
      destruct (includes (model a) (lit "gpt-5")); reflexivity.
Qed.

(** X12. What a transport call returns is never empty: the value handed to
    the response parser is truthy, so when it is a string it has at least
    one character. *)
Theorem provider_response_is_never_empty (T : Type)
    (fetch : jsstring -> Body -> T -> FetchOutcome * T)
    (JSON_stringify : jsval -> jsstring) (sp : jsstring) (msgs : list Message)
    (a : Adapter T) (v : jsval) :
  (fst (Anthropic.callApi fetch JSON_stringify sp msgs a) = Return v ->
   truthy v = true /\ v <> JStr [])
  /\ (fst (GitHubModels.callApi fetch JSON_stringify msgs a) = Return v ->
      truthy v = true /\ v <> JStr []).
Proof.
  assert (Hne : truthy v = true -> truthy v = true /\ v <> JStr []).
  { intros Ht. split; [exact Ht|]. intros ->. discriminate Ht. }
  split; intros Hret; apply Hne.
  - unfold Anthropic.callApi in Hret. rewrite bind_run in Hret.
    unfold gets in Hret. cbv beta iota in Hret.
    destruct (anthropic_attempts_journal fetch JSON_stringify
                (mkBody (model a) (Some sp) msgs (Some 1024%Z) None None)
                (S MAX_RETRIES) (attempt := 0%Z) None a ltac:(lia))
      as (ext & k & _ & _ & _ & _ & _ & _ & Hv).
    exact (Hv v Hret).
  - unfold GitHubModels.callApi in Hret. rewrite bind_run in Hret.
    unfold gets in Hret. cbv beta iota in Hret.
    match type of Hret with context [GitHubModels.attempts _ _ ?b _ _ _ _] =>
      destruct (github_attempts_journal fetch JSON_stringify b
                  (S MAX_RETRIES) (attempt := 0%Z) None a ltac:(lia))
        as (ext & k & _ & _ & _ & _ & _ & _ & Hv) end.
    exact (Hv v Hret).
Qed.

(** ** The conversation of the providers, beyond the claims *)

Section ConversationMore.

Variable T : Type.
Variable fetch : jsstring -> Body -> T -> FetchOutcome * T.
Variable JSON_parse : jsstring -> option jsval.
Variable JSON_stringify : jsval -> jsstring.
Variable ACTION_SCHEMA : jsstring.

Lemma paired_app (h k : list Message) :
  Shape.paired h = true -> Shape.paired k = true -> Shape.paired (h ++ k) = true.
Proof.
  intros Hh Hk.
  assert (H : forall n (l : list Message),
             List.length l <= n -> Shape.paired l = true ->
             Shape.paired (l ++ k) = true).
  { induction n as [|n IH]; intros [|u [|v rest]] Hl Hp; simpl in *;
      try discriminate; try exact Hk; try lia.
    apply andb_prop in Hp as [Hr Hrest]. rewrite Hr. simpl.
    apply IH; [lia|exact Hrest]. }
  exact (H (List.length h) h (le_n _) Hh).
Qed.

Lemma paired_kept (request : LLMRequest) (a : Adapter T) :
  Shape.paired (conversationHistory a) = true ->
  Shape.paired (match previousActions request with
                | [] => []
                | _ :: _ => conversationHistory a
                end) = true.
Proof. intros H. now destruct (previousActions request). Qed.

End ConversationMore.

(** X13. When the transport call fails, [decideAction] of either provider
    fails with the same error, and the history is left as it was sent:
    emptied if the request carried no previous command, untouched otherwise,
    with neither the user message nor anything else added. *)
Theorem failed_call_adds_nothing_to_the_history (T : Type)
    (fetch : jsstring -> Body -> T -> FetchOutcome * T)
    (JSON_parse : jsstring -> option jsval) (JSON_stringify : jsval -> jsstring)
    (ACTION_SCHEMA : jsstring) (request : LLMRequest) (a : Adapter T) :
  let kept :=
    match previousActions request with [] => [] | _ :: _ => conversationHistory a end in
  let user := mkMessage (lit "user") (JStr (buildUserMessage request)) in
  let format := Shared.systemPrompt request ++ nl ++ nl ++ lit "## Response Format"
                ++ nl ++ nl ++ ACTION_SCHEMA in
  (forall e a1,
      Anthropic.callApi fetch JSON_stringify format (kept ++ [user]) (setHistory kept a)
      = (Throw e, a1) ->
      Anthropic.decideAction fetch JSON_parse JSON_stringify ACTION_SCHEMA request a
      = (Throw e, a1)
      /\ conversationHistory a1 = kept)
  /\ (forall e a1,
         GitHubModels.callApi fetch JSON_stringify
           ([mkMessage (lit "system") (JStr format)] ++ kept ++ [user]) (setHistory kept a)
         = (Throw e, a1) ->
         GitHubModels.decideAction fetch JSON_parse JSON_stringify ACTION_SCHEMA request a
         = (Throw e, a1)
         /\ conversationHistory a1 = kept).
Proof.
  cbv zeta. split; intros e a1 Hcall.
  - rewrite anthropic_decideAction_run. cbv zeta. rewrite Hcall. split; [reflexivity|].
    match type of Hcall with
    | Anthropic.callApi _ _ ?p ?m ?s = _ =>
        pose proof (anthropic_callApi_history fetch JSON_stringify p m s) as Hh
    end.
    rewrite Hcall in Hh. exact Hh.
  - rewrite github_decideAction_run. cbv zeta. rewrite Hcall. split; [reflexivity|].
    match type of Hcall with
    | GitHubModels.callApi _ _ ?m ?s = _ =>
        pose proof (github_callApi_history fetch JSON_stringify m s) as Hh
    end.
    rewrite Hcall in Hh. exact Hh.
Qed.

(** X14. The history of either provider is always a sequence of pairs, a
    user message followed by the assistant's reply: a call of [decideAction]
    on such a history leaves such a history, whether it returns or throws. *)
Theorem history_stays_paired (T : Type)
    (fetch : jsstring -> Body -> T -> FetchOutcome * T)
    (JSON_parse : jsstring -> option jsval) (JSON_stringify : jsval -> jsstring)
    (ACTION_SCHEMA : jsstring) (request : LLMRequest) (a : Adapter T) :
  Shape.paired (conversationHistory a) = true ->
  Shape.paired
    (conversationHistory
       (snd (Anthropic.decideAction fetch JSON_parse JSON_stringify ACTION_SCHEMA
               request a))) = true
  /\ Shape.paired
       (conversationHistory
          (snd (GitHubModels.decideAction fetch JSON_parse JSON_stringify ACTION_SCHEMA
                  request a))) = true.
Proof.
  intros Hp. pose proof (paired_kept request a Hp) as Hk. split.
  - rewrite anthropic_decideAction_run. cbv zeta.
    match goal with |- context [Anthropic.callApi _ _ ?p ?m ?s] =>
      pose proof (anthropic_callApi_history fetch JSON_stringify p m s) as Hh;
      destruct (Anthropic.callApi fetch JSON_stringify p m s) as [[response|e] a1]
    end; simpl in Hh |- *.
    + apply paired_app; [exact Hk|reflexivity].
    + rewrite Hh. exact Hk.
  - rewrite github_decideAction_run. cbv zeta.
    match goal with |- context [GitHubModels.callApi _ _ ?m ?s] =>
      pose proof (github_callApi_history fetch JSON_stringify m s) as Hh;
      destruct (GitHubModels.callApi fetch JSON_stringify m s) as [[response|e] a1]
    end; simpl in Hh |- *.
    + apply paired_app; [exact Hk|reflexivity].
    + rewrite Hh. exact Hk.
Qed.

Lemma failed_call_adds_nothing_to_the_history_witness :
  let stale :=
    mkAdapter (lit "some-model")
      [mkMessage (lit "user") (JStr (lit "old question"));
       mkMessage (lit "assistant") (JStr (lit "old answer"))] 0 [] in
  let out :=
    Anthropic.decideAction (Scenario.answering 500) Scenario.noJSON Scenario.noText
      (lit "schema") Scenario.laterRequest stale in
  fst out = Throw (mkError (lit "Anthropic API error 500: no"))
  /\ conversationHistory (snd out) = conversationHistory stale.
Proof.
  cbv zeta.
  destruct (failed_call_adds_nothing_to_the_history (Scenario.answering 500)
              Scenario.noJSON Scenario.noText (lit "schema") Scenario.laterRequest
              (mkAdapter (lit "some-model")
                 [mkMessage (lit "user") (JStr (lit "old question"));
                  mkMessage (lit "assistant") (JStr (lit "old answer"))] 0 []))
    as [H _].
  split; [vm_compute; reflexivity|].
  refine (proj2 (H (mkError (lit "Anthropic API error 500: no")) _ _)).
  vm_compute. reflexivity.
Defined.

Lemma history_stays_paired_witness :
  let fresh := mkAdapter (lit "some-model") [] 0 [] in
  Shape.paired
    (conversationHistory
       (snd (Anthropic.decideAction
               (Scenario.throttled 1 (Scenario.anthropicPayload (lit "{}")))
               Scenario.noJSON Scenario.noText (lit "schema") Scenario.firstRequest
               fresh))) = true
  /\ Shape.paired
       (conversationHistory
          (snd (GitHubModels.decideAction (Scenario.answering 500) Scenario.noJSON
                  Scenario.noText (lit "schema") Scenario.firstRequest fresh))) = true.
Proof.
  cbv zeta. split.
  - apply (history_stays_paired
             (Scenario.throttled 1 (Scenario.anthropicPayload (lit "{}")))
             Scenario.noJSON Scenario.noText (lit "schema") Scenario.firstRequest
             (mkAdapter (lit "some-model") [] 0 [])). reflexivity.
  - apply (history_stays_paired (Scenario.answering 500)
             Scenario.noJSON Scenario.noText (lit "schema") Scenario.firstRequest
             (mkAdapter (lit "some-model") [] 0 [])). reflexivity.
Defined.

Section PayloadMore.

Lemma findText_first (pre post : list jsval) (fields : list (jsstring * jsval)) :
  forallb Shape.otherBlock pre = true ->
  assoc (lit "type") fields = Some (JStr (lit "text")) ->
  Anthropic.findText (pre ++ JObj fields :: post) = Return (Some (JObj fields)).
Proof.
  intros Hpre Hty. induction pre as [|b pre IH].
  - simpl. rewrite Hty. reflexivity.
  - simpl in Hpre. apply andb_prop in Hpre as [Hb Hpre].
    change ((b :: pre) ++ JObj fields :: post) with (b :: (pre ++ JObj fields :: post)).
    cbn [Anthropic.findText]. rewrite (IH Hpre).
    destruct b as [|x|x|s|items|fs]; cbn [getProp]; try reflexivity; try discriminate.
    cbn [Shape.otherBlock] in Hb.
    destruct (assoc (lit "type") fs) as [[|x|x|s|items|gs]|]; try reflexivity.
    destruct (JS.eqb s (lit "text")); [discriminate|reflexivity].
Qed.

End PayloadMore.

(** X15. Of the content blocks of an Anthropic response only the first one
    of type "text" counts, wherever it stands and whatever follows it: its
    text is the reply when it is truthy, and when it is missing or falsy
    the call fails with "Unexpected Anthropic response structure", even if
    a later text block has text. The adapter is left as it was. *)
Theorem first_text_block_decides (T : Type) (JSON_stringify : jsval -> jsstring)
    (r : Response) (a : Adapter T) (top fields : list (jsstring * jsval))
    (pre post : list jsval) :
  json r = Return (JObj top) ->
  assoc (lit "content") top = Some (JArr (pre ++ JObj fields :: post)) ->
  forallb Shape.otherBlock pre = true ->
  assoc (lit "type") fields = Some (JStr (lit "text")) ->
  Anthropic.readPayload JSON_stringify r a
  = (match assoc (lit "text") fields with
     | Some t =>
         if truthy t then Return t
         else Throw (mkError (lit "Unexpected Anthropic response structure: "
                              ++ slice0 500 (JSON_stringify (JObj top))))
     | None =>
         Throw (mkError (lit "Unexpected Anthropic response structure: "
                         ++ slice0 500 (JSON_stringify (JObj top))))
     end, a).
Proof.
  intros Hjson Hcontent Hpre Hty.
  unfold Anthropic.readPayload, bind, liftRes. rewrite Hjson.
  unfold Anthropic.textBlockOf. cbn [getProp]. rewrite Hcontent.
  rewrite (findText_first pre post fields Hpre Hty). cbn [getPropOpt].
  destruct (assoc (lit "text") fields) as [t|]; [|reflexivity].
  destruct (truthy t); reflexivity.
Qed.

Lemma first_text_block_decides_witness :
  let thinking := JObj [(lit "type", JStr (lit "thinking"));
                        (lit "text", JStr (lit "hidden"))] in
  let empty := [(lit "type", JStr (lit "text")); (lit "text", JStr [])] in
  let later := JObj [(lit "type", JStr (lit "text")); (lit "text", JStr (lit "{}"))] in
  let top := [(lit "id", JStr (lit "msg_1"));
              (lit "content", JArr [thinking; JNum 1; JObj empty; later])] in
  Anthropic.readPayload Scenario.noText
    (mkResponse 200 None [] (Return (JObj top))) (Scenario.fresh 0)
  = (Throw (mkError (lit "Unexpected Anthropic response structure: ")), Scenario.fresh 0).
Proof.
  cbv zeta.
  exact (@first_text_block_decides nat Scenario.noText
           (mkResponse 200 None []
              (Return (JObj [(lit "id", JStr (lit "msg_1"));
                             (lit "content",
                              JArr [JObj [(lit "type", JStr (lit "thinking"));
                                          (lit "text", JStr (lit "hidden"))];
                                    JNum 1;
                                    JObj [(lit "type", JStr (lit "text"));
                                          (lit "text", JStr [])];
                                    JObj [(lit "type", JStr (lit "text"));
                                          (lit "text", JStr (lit "{}"))]])])))
           (Scenario.fresh 0)
           [(lit "id", JStr (lit "msg_1"));
            (lit "content",
             JArr [JObj [(lit "type", JStr (lit "thinking"));
                         (lit "text", JStr (lit "hidden"))];
                   JNum 1;
                   JObj [(lit "type", JStr (lit "text")); (lit "text", JStr [])];
                   JObj [(lit "type", JStr (lit "text"));
                         (lit "text", JStr (lit "{}"))]])]
           [(lit "type", JStr (lit "text")); (lit "text", JStr [])]
           [JObj [(lit "type", JStr (lit "thinking"));
                  (lit "text", JStr (lit "hidden"))]; JNum 1]
           [JObj [(lit "type", JStr (lit "text")); (lit "text", JStr (lit "{}"))]]
           eq_refl eq_refl eq_refl eq_refl).
Defined.

Section FenceMore.

Lemma trimStart_blank (pad s : jsstring) :
  Shape.blank pad = true -> trimStart (pad ++ s) = trimStart s.
Proof.
  induction pad as [|c pad IH]; intros H; [reflexivity|].
  simpl in H. apply andb_prop in H as [Hc Hpad].
  simpl. rewrite Hc. exact (IH Hpad).
Qed.

Lemma blank_rev (pad : jsstring) : Shape.blank pad = true -> Shape.blank (rev pad) = true.
Proof.
  unfold Shape.blank. rewrite !forallb_forall. intros H c Hc.
  apply H. now apply in_rev.
Qed.

Lemma trim_padded (pad1 pad2 x t f : list N) (c d : N) :
  Shape.blank pad1 = true -> Shape.blank pad2 = true ->
  x = c :: t -> x = f ++ [d] -> is_space c = false -> is_space d = false ->
  trim (pad1 ++ x ++ pad2) = x.
Proof.
  intros H1 H2 Hc Hd Sc Sd. unfold trim, trimEnd.
  rewrite (trimStart_blank pad1 (x ++ pad2) H1).
  assert (E : trimStart (x ++ pad2) = x ++ pad2).
  { rewrite Hc. simpl. now rewrite Sc. }
  rewrite E, rev_app_distr.
  rewrite (trimStart_blank (rev pad2) (rev x) (blank_rev pad2 H2)).
  rewrite Hd at 1. rewrite rev_app_distr. simpl. rewrite Sd.
  change (d :: rev f) with (rev [d] ++ rev f).
  rewrite <- rev_app_distr, rev_involutive. now symmetry.
Qed.

Lemma startsWith_app (p s : list N) : startsWith (p ++ s) p = true.
Proof.
  induction p as [|c p IH]; [now destruct s|]. simpl. now rewrite N.eqb_refl.
Qed.

Lemma dropPrefix_app (p s : list N) : dropPrefix p (p ++ s) = s.
Proof.
  unfold dropPrefix. rewrite startsWith_app.
  rewrite skipn_app, skipn_all, Nat.sub_diag. reflexivity.
Qed.

Lemma stripClosingFence_closed (b : list N) :
  stripClosingFence (b ++ nl ++ fence) = b.
Proof.
  unfold stripClosingFence, endsWith.
  rewrite rev_app_distr, startsWith_app.
  rewrite length_app. change (length (nl ++ fence)) with 4.
  replace (length b + 4 - 4) with (length b + 0) by lia.
  rewrite firstn_app_2. simpl. apply app_nil_r.
Qed.

End FenceMore.

(** X16. A response wrapped in a Markdown fence, with or without the [json]
    tag and with any white space around the fence, is handed to
    [JSON.parse] as the text between the fences, whatever that text is. *)
Theorem fenced_response_is_unwrapped (pad1 pad2 b : jsstring) :
  Shape.blank pad1 = true -> Shape.blank pad2 = true ->
  cleanResponse (pad1 ++ (fence ++ lit "json" ++ nl ++ b ++ nl ++ fence) ++ pad2) = b
  /\ cleanResponse (pad1 ++ (fence ++ nl ++ b ++ nl ++ fence) ++ pad2) = b.
Proof.
  intros H1 H2. unfold cleanResponse. split.
  - rewrite (@trim_padded pad1 pad2 _
               ([backtick; backtick] ++ lit "json" ++ nl ++ b ++ nl ++ fence)
               (fence ++ lit "json" ++ nl ++ b ++ nl ++ [backtick; backtick])
               backtick backtick H1 H2);
      [| reflexivity
       | unfold fence, nl, lit; simpl; rewrite <- !app_assoc; reflexivity
       | reflexivity | reflexivity ].
    cbv zeta. change (startsWith (fence ++ lit "json" ++ nl ++ b ++ nl ++ fence) fence)
      with true. cbv iota.
    unfold stripOpeningFence.
    change (startsWith (fence ++ lit "json" ++ nl ++ b ++ nl ++ fence) fence)
      with true. cbv iota.
    change (skipn 3 (fence ++ lit "json" ++ nl ++ b ++ nl ++ fence))
      with (lit "json" ++ nl ++ b ++ nl ++ fence).
    rewrite (dropPrefix_app (lit "json") (nl ++ b ++ nl ++ fence)).
    rewrite (dropPrefix_app nl (b ++ nl ++ fence)).
    apply stripClosingFence_closed.
  - rewrite (@trim_padded pad1 pad2 _
               ([backtick; backtick] ++ nl ++ b ++ nl ++ fence)
               (fence ++ nl ++ b ++ nl ++ [backtick; backtick])
               backtick backtick H1 H2);
      [| reflexivity
       | unfold fence, nl; simpl; rewrite <- !app_assoc; reflexivity
       | reflexivity | reflexivity ].
    cbv zeta. change (startsWith (fence ++ nl ++ b ++ nl ++ fence) fence) with true.
    cbv iota.
    unfold stripOpeningFence.
    change (startsWith (fence ++ nl ++ b ++ nl ++ fence) fence) with true. cbv iota.
    change (skipn 3 (fence ++ nl ++ b ++ nl ++ fence)) with (nl ++ b ++ nl ++ fence).
    change (dropPrefix (lit "json") (nl ++ b ++ nl ++ fence))
      with (nl ++ b ++ nl ++ fence).
    rewrite (dropPrefix_app nl (b ++ nl ++ fence)).
    apply stripClosingFence_closed.
Qed.

Lemma fenced_response_is_unwrapped_witness :
  cleanResponse (lit " " ++ (fence ++ lit "json" ++ nl ++ lit "{}" ++ nl ++ fence) ++ nl)
  = lit "{}"
  /\ cleanResponse (lit " " ++ (fence ++ nl ++ lit "{}" ++ nl ++ fence) ++ nl) = lit "{}".
Proof.
  apply (@fenced_response_is_unwrapped (lit " ") nl (lit "{}")); reflexivity.
Defined.

Section ParseMore.

Lemma orEmpty_shape (v : option jsval) :
  truthy (orEmpty v) = true \/ orEmpty v = JStr [].
Proof.
  destruct v as [x|]; [|now right]. unfold orEmpty.
  destruct (truthy x) eqn:E; [now left|now right].
Qed.

End ParseMore.

(** X17. Only a JSON object can make [parseAgentResponse] return commands,
    [done] or [success]: when the response does not parse, or parses to
    [null], a boolean, a number, a string or an array, the action has no
    command and is neither done nor successful. Its [thought] and
    [actual_result] are the empty string whenever the response gives no
    truthy value for them. *)
Theorem only_an_object_can_act (JSON_parse : jsstring -> option jsval) (raw : jsstring) :
  let a := parseAgentResponse JSON_parse raw in
  (done a = true \/ success a = true \/ commands a <> [] ->
   exists fields,
     JSON_parse (cleanResponse raw) = Some (JObj fields)
     /\ done a = truthy_opt (assoc (lit "done") fields)
     /\ success a = truthy_opt (assoc (lit "success") fields)
     /\ commands a = match assoc (lit "commands") fields with
                     | Some (JArr items) => items
                     | _ => []
                     end)
  /\ (truthy (thought a) = true \/ thought a = JStr [])
  /\ (truthy (actual_result a) = true \/ actual_result a = JStr []).
Proof.
  cbv zeta. unfold parseAgentResponse.
  destruct (JSON_parse (cleanResponse raw)) as [[|x|x|s|items|fields]|];
    cbn [readAction getProp orEmpty truthy_opt parseFailure
         thought commands done success actual_result].
  7: { split; [|split; [now left|now right]].
       intros [H|[H|H]]; [discriminate|discriminate|now destruct H]. }
  6: { split; [|split; apply orEmpty_shape].
       intros _. exists fields. repeat split. }
  all: split; [|split; first [now right | now left]];
       intros [H|[H|H]]; [discriminate|discriminate|now destruct H].
Qed.

Section TerminalMore.

Variable toUpperCase : jsstring -> jsstring.

Lemma eqb_false_neq (a b : jsstring) : JS.eqb a b = false -> a <> b.
Proof. intros E H. destruct (jsstring_eqb_spec a b); [discriminate|contradiction]. Qed.

Lemma loop_final (e : jsstring) (n : nat) :
  forall (lines commands : list jsstring) (l : Interactive.Locals) (rest : list jsstring),
    length lines <= n ->
    Interactive.loop toUpperCase e lines commands = Some (l, rest) ->
    Interactive.l_done l = true
    /\ (exists read, lines = read ++ rest /\ read <> [])
    /\ (exists more, Interactive.l_commands l = commands ++ more
                     /\ Forall (fun c => c <> []) more)
    /\ (Interactive.l_success l = true ->
        Interactive.l_actual l = e \/ trim (Interactive.l_actual l) <> []).
Proof.
  induction n as [|n IH]; intros [|line rest0] commands l rest Hn H;
    try discriminate; simpl in Hn; try lia.
  cbn [Interactive.loop] in H. cbv zeta in H.
  destruct (JS.eqb (trim line) []) eqn:E0.
  - destruct rest0 as [|verdict rest1]; [discriminate|].
    destruct (JS.eqb (toUpperCase (trim verdict)) (lit "PASS")).
    { destruct rest1 as [|actual rest2]; [discriminate|].
      injection H as <- <-. cbn. split; [reflexivity|]. split.
      { exists [line; verdict; actual]. split; [reflexivity|discriminate]. }
      split.
      { exists []. split; [now rewrite app_nil_r|constructor]. }
      intros _. destruct (JS.eqb (trim actual) []) eqn:Ea; [now left|].
      right. now apply eqb_false_neq. }
    destruct (JS.eqb (toUpperCase (trim verdict)) (lit "FAIL")).
    { destruct rest1 as [|actual rest2]; [discriminate|].
      injection H as <- <-. cbn. split; [reflexivity|]. split.
      { exists [line; verdict; actual]. split; [reflexivity|discriminate]. }
      split; [|discriminate].
      exists []. split; [now rewrite app_nil_r|constructor]. }
    destruct (JS.eqb (toUpperCase (trim verdict)) (lit "SKIP")).
    { injection H as <- <-. cbn. split; [reflexivity|]. split.
      { exists [line; verdict]. split; [reflexivity|discriminate]. }
      split; [|discriminate].
      exists []. split; [now rewrite app_nil_r|constructor]. }
    simpl in Hn.
    destruct (IH rest1 commands l rest ltac:(lia) H) as (Hd & (read & -> & _) & Hc & Hs).
    split; [exact Hd|]. split; [|split; assumption].
    exists (line :: verdict :: read). split; [reflexivity|discriminate].
  - destruct (JS.eqb (toUpperCase (trim line)) (lit "PASS")).
    { injection H as <- <-. cbn. split; [reflexivity|]. split.
      { exists [line]. split; [reflexivity|discriminate]. }
      split; [|now left].
      exists []. split; [now rewrite app_nil_r|constructor]. }
    destruct (JS.eqb (toUpperCase (trim line)) (lit "FAIL")).
    { destruct rest0 as [|actual rest1]; [discriminate|].
      injection H as <- <-. cbn. split; [reflexivity|]. split.
      { exists [line; actual]. split; [reflexivity|discriminate]. }
      split; [|discriminate].
      exists []. split; [now rewrite app_nil_r|constructor]. }
    destruct (JS.eqb (toUpperCase (trim line)) (lit "SKIP")).
    { injection H as <- <-. cbn. split; [reflexivity|]. split.
      { exists [line]. split; [reflexivity|discriminate]. }
      split; [|discriminate].
      exists []. split; [now rewrite app_nil_r|constructor]. }
    destruct (JS.eqb (toUpperCase (trim line)) (lit "SNAP")).
    { destruct (IH rest0 _ l rest ltac:(lia) H)
        as (Hd & (read & -> & _) & (more & Hc & Hm) & Hs).
      split; [exact Hd|]. split; [|split; [|exact Hs]].
      { exists (line :: read). split; [reflexivity|discriminate]. }
      exists (lit "__SNAPSHOT__" :: more). split.
      { rewrite Hc, <- app_assoc. reflexivity. }
      constructor; [discriminate|exact Hm]. }
    destruct (IH rest0 _ l rest ltac:(lia) H)
      as (Hd & (read & -> & _) & (more & Hc & Hm) & Hs).
    split; [exact Hd|]. split; [|split; [|exact Hs]].
    { exists (line :: read). split; [reflexivity|discriminate]. }
    exists (trim line :: more). split.
    { rewrite Hc, <- app_assoc. reflexivity. }
    constructor; [now apply eqb_false_neq|exact Hm].
Qed.

Lemma loop_ordinary (e line : jsstring) (rest commands : list jsstring) :
  Shape.ordinary toUpperCase line = true ->
  Interactive.loop toUpperCase e (line :: rest) commands
  = Interactive.loop toUpperCase e rest (commands ++ [trim line]).
Proof.
  unfold Shape.ordinary. intros H.
  repeat (apply andb_prop in H as [H ?]).
  rewrite negb_true_iff in *.
  cbn [Interactive.loop]. cbv zeta.
  repeat match goal with E : JS.eqb _ _ = false |- _ => rewrite E; clear E end.
  reflexivity.
Qed.

Lemma loop_ordinaries (e : jsstring) (cmds rest commands : list jsstring) :
  forallb (Shape.ordinary toUpperCase) cmds = true ->
  Interactive.loop toUpperCase e (cmds ++ rest) commands
  = Interactive.loop toUpperCase e rest (commands ++ map trim cmds).
Proof.
  revert commands. induction cmds as [|c cmds IH]; intros commands H.
  - simpl. now rewrite app_nil_r.
  - simpl in H. apply andb_prop in H as [Hc H].
    change ((c :: cmds) ++ rest) with (c :: (cmds ++ rest)).
    rewrite (loop_ordinary e c (cmds ++ rest) commands Hc), (IH _ H).
    simpl. now rewrite <- app_assoc.
Qed.

End TerminalMore.

(** X18. Whatever is typed, an answer of the interactive adapter closes the
    step: it is [done], carries the fixed thought, has consumed at least
    one line of the terminal and no line out of order, holds no empty
    command, and when it is a success its actual result is the trimmed
    expected result of the step or is not empty. *)
Theorem interactive_answer_is_final (toUpperCase : jsstring -> jsstring)
    (request : LLMRequest) (lines rest : list jsstring) (act : AgentAction) :
  Interactive.decideAction toUpperCase request lines = Some (act, rest) ->
  done act = true
  /\ thought act = Interactive.THOUGHT
  /\ (exists read, lines = read ++ rest /\ read <> [])
  /\ Forall (fun c => c <> []) (commands act)
  /\ (success act = true ->
      actual_result act = trim (expectedResult request) \/ actual_result act <> []).
Proof.
  unfold Interactive.decideAction. intros H.
  destruct (Interactive.loop toUpperCase (expectedResult request) lines []) as [[l r]|] eqn:E;
    [|discriminate].
  injection H as <- <-.
  destruct (@loop_final toUpperCase (expectedResult request) (length lines) lines [] l r
              (le_n _) E) as (Hd & Hread & (more & Hc & Hm) & Hs).
  cbn. split; [exact Hd|]. split; [reflexivity|]. split; [exact Hread|]. split.
  - rewrite Hc. exact Hm.
  - intros S. destruct (Hs S) as [->|Hne]; [now left|now right].
Qed.

Lemma interactive_answer_is_final_witness :
  let typed := [lit "click @e1"; lit " snap "; []; lit "maybe"; lit "fail";
                lit " wrong page "; lit "next"] in
  Interactive.decideAction Fixture.asciiUpper Scenario.firstRequest typed
  = Some (mkAction Interactive.THOUGHT [lit "click @e1"; lit "__SNAPSHOT__"] true false
            (lit "wrong page"), [lit "next"])
  /\ exists read, typed = read ++ [lit "next"] /\ read <> [].
Proof.
  cbv zeta. split; [vm_compute; reflexivity|].
  refine (proj1 (proj2 (proj2
            (@interactive_answer_is_final Fixture.asciiUpper Scenario.firstRequest
               [lit "click @e1"; lit " snap "; []; lit "maybe"; lit "fail";
                lit " wrong page "; lit "next"] [lit "next"] _ _)))).
  vm_compute. reflexivity.
Defined.

(** X19. Lines that are neither blank nor one of the words PASS, FAIL, SKIP
    and SNAP are returned as the commands, trimmed and in the order typed,
    however many they are; a PASS typed after them closes the step as a
    success whose actual result is the trimmed expected result, and leaves
    the following lines unread. *)
Theorem interactive_commands_then_pass (toUpperCase : jsstring -> jsstring)
    (request : LLMRequest) (cmds : list jsstring) (pass : jsstring)
    (rest : list jsstring) :
  forallb (Shape.ordinary toUpperCase) cmds = true ->
  Shape.says toUpperCase "PASS" pass = true ->
  Interactive.decideAction toUpperCase request (cmds ++ pass :: rest)
  = Some (mkAction Interactive.THOUGHT (map trim cmds) true true
            (trim (expectedResult request)), rest).
Proof.
  intros Hc Hp. unfold Interactive.decideAction.
  rewrite (loop_ordinaries toUpperCase (expectedResult request) cmds (pass :: rest) [] Hc).
  unfold Shape.says in Hp. apply andb_prop in Hp as [Hb Hp].
  rewrite negb_true_iff in Hb.
  cbn [Interactive.loop]. cbv zeta. rewrite Hb, Hp. reflexivity.
Qed.

Lemma interactive_commands_then_pass_witness :
  Interactive.decideAction Fixture.asciiUpper Scenario.firstRequest
    ([lit " open https://example.test "; lit "click @e1"] ++ lit "Pass " :: [lit "later"])
  = Some (mkAction Interactive.THOUGHT [lit "open https://example.test"; lit "click @e1"]
            true true (lit "The secure page opens"), [lit "later"]).
Proof.
  apply (@interactive_commands_then_pass Fixture.asciiUpper Scenario.firstRequest
           [lit " open https://example.test "; lit "click @e1"] (lit "Pass ")
           [lit "later"]); reflexivity.
Defined.

Section StartupMore.

Import Startup.

Lemma splitLines_app (a b cur : jsstring) :
  splitLines (a ++ newline :: b) cur = splitLines a cur ++ splitLines b [].
Proof.
  revert cur. induction a as [|c a IH]; intros cur.
  - reflexivity.
  - change ((c :: a) ++ newline :: b) with (c :: (a ++ newline :: b)).
    cbn [splitLines]. destruct (N.eqb c newline).
    + rewrite IH. reflexivity.
    + apply IH.
Qed.

Lemma splitLines_single (line cur : jsstring) :
  ~ In newline line -> splitLines line cur = [cur ++ line].
Proof.
  revert cur. induction line as [|c line IH]; intros cur H.
  - simpl. now rewrite app_nil_r.
  - cbn [splitLines]. destruct (N.eqb_spec c newline) as [->|Hc].
    + exfalso. apply H. now left.
    + rewrite IH; [|intros Hin; apply H; now right].
      now rewrite <- app_assoc.
Qed.

Lemma loadEnv_app (a b : jsstring) (env : Env) :
  loadEnv (Some (a ++ newline :: b)) env = loadEnv (Some b) (loadEnv (Some a) env).
Proof. unfold loadEnv. rewrite splitLines_app. apply fold_left_app. Qed.

Lemma loadEnv_single (line : jsstring) (env : Env) :
  ~ In newline line -> loadEnv (Some line) env = applyLine env line.
Proof. intros H. unfold loadEnv. now rewrite (@splitLines_single line [] H). Qed.

Lemma indexOf_first (c : N) (key value : jsstring) :
  ~ In c key -> indexOf c (key ++ c :: value) = Some (length key).
Proof.
  induction key as [|x key IH]; intros H.
  - simpl. now rewrite N.eqb_refl.
  - simpl. destruct (N.eqb_spec x c) as [->|Hx].
    + exfalso. apply H. now left.
    + rewrite IH; [reflexivity|intros Hin; apply H; now right].
Qed.

Lemma indexOf_none (c : N) (s : jsstring) : ~ In c s -> indexOf c s = None.
Proof.
  induction s as [|x s IH]; intros H; [reflexivity|].
  simpl. destruct (N.eqb_spec x c) as [->|Hx].
  - exfalso. apply H. now left.
  - rewrite IH; [reflexivity|intros Hin; apply H; now right].
Qed.

Lemma eqb_refl (a : jsstring) : JS.eqb a a = true.
Proof. now destruct (jsstring_eqb_spec a a). Qed.

Lemma stored_storable (s : jsstring) : Shape.storable s = true -> stored s = s.
Proof.
  unfold Shape.storable. intros H.
  now destruct (jsstring_eqb_spec (stored s) s).
Qed.

Lemma envName_parts (key : jsstring) :
  Shape.envName key = true ->
  stored key = key /\ key <> [] /\ existsb (N.eqb equals) key = false.
Proof.
  unfold Shape.envName. intros H.
  apply andb_prop in H as [H H3]. apply andb_prop in H as [H1 H2].
  split; [now apply stored_storable|]. split.
  - destruct key; [discriminate H2|discriminate].
  - now apply negb_true_iff in H3.
Qed.

(** Reading the name that has just been set, and another one. *)
Lemma setenv_read (key value : jsstring) (env : Env) :
  Shape.envName key = true -> setenv key value env key = Some (stored value).
Proof.
  intros H. destruct (envName_parts key H) as (Hs & Hne & He).
  unfold setenv. rewrite Hs. destruct key as [|c key]; [now elim Hne|].
  rewrite He, Hs. now rewrite eqb_refl.
Qed.

Lemma setenv_other (key value other : jsstring) (env : Env) :
  Shape.storable other = true -> other <> stored key ->
  setenv key value env other = env other.
Proof.
  intros Ho Hne. unfold setenv.
  destruct (stored key) as [|c name] eqn:E; [reflexivity|].
  destruct (existsb (N.eqb equals) (c :: name)); [reflexivity|].
  rewrite (stored_storable other Ho).
  destruct (jsstring_eqb_spec other (c :: name)) as [Heq|_]; [contradiction|reflexivity].
Qed.


End StartupMore.

(** X20. The environment file is read line by line, in order: loading a
    text made of two parts separated by a line break is loading the first
    part and then the second, so that a later line overrides an earlier
    one. *)
Theorem loadEnv_reads_lines_in_order (a b : jsstring) (env : Startup.Env) :
  Startup.loadEnv (Some (a ++ newline :: b)) env
  = Startup.loadEnv (Some b) (Startup.loadEnv (Some a) env).
Proof. apply loadEnv_app. Qed.

(** X21. What one line of the environment file does. A line that is blank
    once trimmed, that starts with [#] once trimmed, or that holds no [=]
    changes nothing. Any other line is split at its first [=]: the text
    before it, trimmed, is the name, and all the text after it, trimmed, is
    the value, further [=] included. For a name that the environment
    accepts, reading the name then gives the value as the environment
    stores it, which is the value itself unless it holds U+0000, where it
    is cut; and the other names read as before. *)
Theorem env_line_is_split_at_first_equals (line : jsstring) (env : Startup.Env) :
  ~ In newline line ->
  (trim line = [] \/ startsWith (trim line) [Startup.hash] = true
   \/ ~ In Startup.equals (trim line) ->
   Startup.loadEnv (Some line) env = env)
  /\ (forall key value,
        trim line = key ++ Startup.equals :: value ->
        ~ In Startup.equals key ->
        startsWith (trim line) [Startup.hash] = false ->
        Shape.envName (trim key) = true ->
        Startup.loadEnv (Some line) env (trim key) = Some (Startup.stored (trim value))
        /\ (Shape.storable (trim value) = true ->
            Startup.loadEnv (Some line) env (trim key) = Some (trim value))
        /\ (forall other,
               Shape.storable other = true -> other <> trim key ->
               Startup.loadEnv (Some line) env other = env other)).
Proof.
  intros Hnl. rewrite (@loadEnv_single line env Hnl). unfold Startup.applyLine, Startup.assignment.
  cbv zeta. split.
  - intros [H|[H|H]].
    + rewrite H. reflexivity.
    + rewrite H, orb_true_r. reflexivity.
    + destruct (JS.eqb (trim line) [] || startsWith (trim line) [Startup.hash]);
        [reflexivity|]. now rewrite (@indexOf_none Startup.equals (trim line) H).
  - intros key value Ht Hk Hh Hname. rewrite Hh, Ht.
    replace (JS.eqb (key ++ Startup.equals :: value) []) with false
      by now destruct key.
    cbn [orb]. rewrite (@indexOf_first Startup.equals key value Hk).
    rewrite firstn_app, firstn_all, Nat.sub_diag, app_nil_r.
    change (S (length key)) with (1 + length key).
    replace (skipn (1 + length key) (key ++ Startup.equals :: value)) with value
      by (rewrite <- skipn_skipn, skipn_app, skipn_all, Nat.sub_diag; reflexivity).
    split; [now apply setenv_read|]. split.
    + intros Hv. rewrite <- (stored_storable _ Hv) at 2. now apply setenv_read.
    + intros other Ho Hne. apply setenv_other; [exact Ho|].
      destruct (envName_parts _ Hname) as (-> & _). exact Hne.
Qed.

Lemma env_line_is_split_at_first_equals_witness :
  Startup.loadEnv (Some (lit "  # URL=off")) Fixture.shellEnv = Fixture.shellEnv
  /\ Startup.loadEnv (Some (lit " URL = https://x.test/?a=b ")) Fixture.shellEnv
       (lit "URL") = Some (lit "https://x.test/?a=b")
  /\ Startup.loadEnv (Some (lit "KEY=a" ++ 0%N :: lit "b")) Fixture.shellEnv (lit "KEY")
     = Some (lit "a").
Proof.
  split; [|split].
  - apply (@env_line_is_split_at_first_equals (lit "  # URL=off") Fixture.shellEnv).
    + vm_compute. intuition discriminate.
    + right. left. reflexivity.
  - apply (proj2 (@env_line_is_split_at_first_equals (lit " URL = https://x.test/?a=b ")
                    Fixture.shellEnv
                    ltac:(vm_compute; intuition discriminate))
             (lit "URL ") (lit " https://x.test/?a=b")); try reflexivity.
    vm_compute. intuition discriminate.
  - apply (proj2 (@env_line_is_split_at_first_equals (lit "KEY=a" ++ 0%N :: lit "b")
                    Fixture.shellEnv
                    ltac:(vm_compute; intuition discriminate))
             (lit "KEY") (lit "a" ++ 0%N :: lit "b")); try reflexivity.
    vm_compute. intuition discriminate.
Defined.



(** X23. A provider chosen by detection can always be constructed: without
    a [--provider] flag and without [MODEL_PROVIDER], the factory does not
    throw on the provider that [main] selects, and the adapter it returns
    is the Anthropic one exactly when an Anthropic key is set, the GitHub
    Models one when only a GitHub token is set, and the interactive one
    when neither is; a provider adapter starts with an empty history. *)
Theorem detected_provider_is_constructible (T : Type) (argv : list jsstring)
    (env : Startup.Env) (t : T) :
  Startup.indexOfArg (lit "--provider") argv = None ->
  Startup.present (env (lit "MODEL_PROVIDER")) = false ->
  exists adapter,
    Factory.createLLMAdapter (Startup.selectProvider argv env) env t = Return adapter
    /\ match adapter with
       | Factory.AnthropicAdapter a =>
           Startup.present (env (lit "ANTHROPIC_API_KEY")) = true
           /\ conversationHistory a = []
       | Factory.GitHubModelsAdapter a =>
           Startup.present (env (lit "ANTHROPIC_API_KEY")) = false
           /\ Startup.present (env (lit "GITHUB_MODELS_TOKEN")) = true
           /\ conversationHistory a = []
       | Factory.InteractiveLLMAdapter =>
           Startup.present (env (lit "ANTHROPIC_API_KEY")) = false
           /\ Startup.present (env (lit "GITHUB_MODELS_TOKEN")) = false
       end.
Proof.
  intros Hflag Hvar. unfold Startup.selectProvider. rewrite Hflag.
  assert (E : match env (lit "MODEL_PROVIDER") with
              | Some ((_ :: _) as p) => Some p
              | _ => None
              end = None).
  { destruct (env (lit "MODEL_PROVIDER")) as [[|c p]|]; [reflexivity|discriminate|reflexivity]. }
  destruct (env (lit "MODEL_PROVIDER")) as [[|c p]|]; try discriminate.
  all: destruct (Startup.present (env (lit "ANTHROPIC_API_KEY"))) eqn:Ea;
       [|destruct (Startup.present (env (lit "GITHUB_MODELS_TOKEN"))) eqn:Eg].
  all: unfold Factory.createLLMAdapter.
  all: try (change (JS.eqb (lit "anthropic") (lit "interactive")) with false;
            change (JS.eqb (lit "anthropic") (lit "github-models")) with false;
            change (JS.eqb (lit "anthropic") (lit "anthropic")) with true;
            cbv iota; unfold Factory.newAnthropicAdapter; rewrite Ea;
            eexists; split; [reflexivity|]; now split).
  all: try (change (JS.eqb (lit "github-models") (lit "interactive")) with false;
            change (JS.eqb (lit "github-models") (lit "github-models")) with true;
            cbv iota; unfold Factory.newGitHubModelsAdapter; rewrite Eg;
            eexists; split; [reflexivity|]; now repeat split).
  all: change (JS.eqb (lit "interactive") (lit "interactive")) with true; cbv iota;
       eexists; split; [reflexivity|]; now split.
Qed.

Lemma detected_provider_is_constructible_witness :
  exists adapter : Factory.AnyAdapter nat,
    Factory.createLLMAdapter
      (Startup.selectProvider [lit "node"; lit "runner.js"; lit "TC001.yaml"]
         (Startup.loadEnv (Some (lit "GITHUB_MODELS_TOKEN=ghp_x")) Fixture.emptyEnv))
      (Startup.loadEnv (Some (lit "GITHUB_MODELS_TOKEN=ghp_x")) Fixture.emptyEnv) 0
    = Return adapter
    /\ adapter = Factory.GitHubModelsAdapter (mkAdapter (lit "openai/gpt-4.1") [] 0 []).
Proof.
  destruct (@detected_provider_is_constructible nat
              [lit "node"; lit "runner.js"; lit "TC001.yaml"]
              (Startup.loadEnv (Some (lit "GITHUB_MODELS_TOKEN=ghp_x")) Fixture.emptyEnv)
              0 eq_refl eq_refl) as [adapter [H _]].
  exists adapter. split; [exact H|].
  vm_compute in H. now injection H as <-.
Defined.
